(** * resume.py: grouping, placement, request shape and quarantine

    A shallow embedding of
    [community/modules/scheduler/schedmd-slurm-gcp-v6-controller/modules/slurm_files/scripts/resume.py]
    and the properties its specification states about it.

    Python values are modelled as follows.
    - [str] is [string]; [int] is [Z]; list indices and lengths are [nat].
    - a [dict] is an association list in insertion order: assigning to a key
      that is present replaces the value and keeps the position.
    - a [set] of node names is a duplicate-free list; every use the program
      makes of a set either tests membership or sorts it first.
    - provider calls, scheduler commands and log lines are events of a trace;
      a raised exception ends the computation. *)

From Stdlib Require Import String Ascii List ZArith Lia Bool Arith.
From Stdlib Require Import Permutation Sorted OrdersEx RelationClasses.
From Stdlib Require Import DecimalString DecimalNat DecimalZ.
Import ListNotations.

Local Open Scope string_scope.
Local Open Scope list_scope.

Set Implicit Arguments.

(** ** Hashable keys and insertion-ordered dictionaries *)

Class Hashable (K : Type) := {
  key_eqb : K -> K -> bool;
  key_eqb_spec : forall a b, reflect (a = b) (key_eqb a b)
}.

#[global] Instance string_Hashable : Hashable string :=
  {| key_eqb := String.eqb; key_eqb_spec := String.eqb_spec |}.

Definition option_eqb {K} `{Hashable K} (a b : option K) : bool :=
  match a, b with
  | None, None => true
  | Some x, Some y => key_eqb x y
  | _, _ => false
  end.

Lemma option_eqb_spec {K} `{Hashable K} (a b : option K) :
  reflect (a = b) (option_eqb a b).
Proof.
  destruct a as [x|], b as [y|]; simpl; try (constructor; congruence).
  destruct (key_eqb_spec x y); constructor; congruence.
Qed.

#[global] Instance option_Hashable {K} `{Hashable K} : Hashable (option K) :=
  {| key_eqb := option_eqb; key_eqb_spec := option_eqb_spec |}.

Definition dict (K V : Type) := list (K * V).

Definition keys {K V} (d : dict K V) : list K := map fst d.
Definition values {K V} (d : dict K V) : list V := map snd d.

(** [d[k] = v] *)
Fixpoint dict_set {K} `{Hashable K} {V} (k : K) (v : V) (d : dict K V) : dict K V :=
  match d with
  | [] => [(k, v)]
  | (k', v') :: d' =>
      if key_eqb k k' then (k', v) :: d' else (k', v') :: dict_set k v d'
  end.

(** [d.update(items)] *)
Definition dict_update {K} `{Hashable K} {V} (d : dict K V) (items : list (K * V)) : dict K V :=
  fold_left (fun acc kv => dict_set (fst kv) (snd kv) acc) items d.

(** [dict(items)] and dict comprehensions *)
Definition dict_of_items {K} `{Hashable K} {V} (items : list (K * V)) : dict K V :=
  dict_update [] items.

(** [d[k].append(x)] on a [defaultdict(list)] *)
Fixpoint dict_append {K} `{Hashable K} {V} (k : K) (x : V) (d : dict K (list V)) : dict K (list V) :=
  match d with
  | [] => [(k, [x])]
  | (k', xs) :: d' =>
      if key_eqb k k' then (k', xs ++ [x]) :: d' else (k', xs) :: dict_append k x d'
  end.

(** ** Helpers of [util] used by resume.py *)

(** Modelled from the spec: [util.chunked] is not part of this file. "Nodes are
    sliced into groups of <=150" and "sliced into size-bounded chunks": the
    iterable is cut into consecutive slices of [n] elements, the last one
    shorter, and the slicing stops at the first empty slice. *)
Fixpoint chunked_from {A} (fuel n : nat) (l : list A) : list (list A) :=
  match fuel with
  | O => []
  | S fuel' =>
      match firstn n l with
      | [] => []
      | chunk => chunk :: chunked_from fuel' n (skipn n l)
      end
  end.

Definition chunked {A} (n : nat) (l : list A) : list (list A) :=
  chunked_from (List.length l) n l.

(** [enumerate(l)] *)
Definition enumerate {A} (l : list A) : list (nat * A) :=
  combine (seq 0 (List.length l)) l.

(** Modelled from the spec: [util.separate] is not part of this file. It
    "splits" a collection by a predicate; the callers unpack the result as
    (elements failing the predicate, elements satisfying it). *)
Definition separate {A} (pred : A -> bool) (coll : list A) : list A * list A :=
  (filter (fun x => negb (pred x)) coll, filter pred coll).

(** Modelled from the spec: [util.groupby_unsorted] is not part of this file.
    Elements are "split by" their key; groups appear in the order in which
    their key first occurs and keep the order of the elements. *)
Definition groupby_unsorted {A K} `{Hashable K} (seq : list A) (key : A -> K) : dict K (list A) :=
  fold_left (fun indices el => dict_append (key el) el indices) seq [].

(** ** Strings *)

(** [str(i)] for an [int] and for an index *)
Definition str_of_Z (z : Z) : string := NilZero.string_of_int (Z.to_int z).
Definition str_of_nat (n : nat) : string := NilZero.string_of_uint (Nat.to_uint n).

(** [f"{x}"] for an [Optional[int]] *)
Definition str_of_opt_Z (o : option Z) : string :=
  match o with
  | Some z => str_of_Z z
  | None => "None"
  end.

(** [sep.join(ls)] *)
Definition join (sep : string) (ls : list string) : string := String.concat sep ls.

(** [s.split(sep)[0]] *)
Fixpoint split_head (sep : ascii) (s : string) : string :=
  match s with
  | EmptyString => EmptyString
  | String c t => if Ascii.eqb c sep then EmptyString else String c (split_head sep t)
  end.

(** [sub in s] *)
Fixpoint str_contains (sub s : string) : bool :=
  String.prefix sub s ||
  match s with
  | EmptyString => false
  | String _ t => str_contains sub t
  end.

Fixpoint has_char (c : ascii) (s : string) : bool :=
  match s with
  | EmptyString => false
  | String c' t => Ascii.eqb c c' || has_char c t
  end.

(** truthiness of an [Optional[str]] *)
Definition truthy (o : option string) : bool :=
  match o with
  | Some s => negb (String.eqb s "")
  | None => false
  end.

(** ** Sets of node names and [sorted] *)

Definition mem (x : string) (s : list string) : bool := existsb (String.eqb x) s.

(** [set(l)] *)
Definition set_of (l : list string) : list string := nodup string_dec l.
(** [a & b] *)
Definition set_inter (a b : list string) : list string := filter (fun x => mem x b) a.
(** [a.difference(b)] *)
Definition set_diff (a b : list string) : list string := filter (fun x => negb (mem x b)) a.

Definition str_leb (a b : string) : bool :=
  match String_as_OT.compare a b with
  | Gt => false
  | _ => true
  end.

Fixpoint insert_sorted (x : string) (l : list string) : list string :=
  match l with
  | [] => [x]
  | y :: t => if str_leb x y then x :: l else y :: insert_sorted x t
  end.

(** [sorted(l)] on node names *)
Definition sorted (l : list string) : list string := fold_right insert_sorted [] l.

(** ** Effects: a trace of events and exceptions *)

(** the levels of the log lines that the trace records. Lines written with
    [log.debug], which come out only when the logger is enabled for them, are
    left out of the trace *)
Inductive LogLevel := INFO | WARNING | ERROR | FATAL.

(** the body of a [resourcePolicies().insert] request *)
Record PolicyRequest := {
  pr_name : string;
  pr_region : string;
  pr_collocation : string
}.

Inductive Event :=
| EvInsertPolicy (req : PolicyRequest)  (* [ensure_execute] of a placement request *)
| EvWait (op_name : string)             (* [wait_for_operation] *)
| EvRun (cmd : string)                  (* [run] of a scheduler command *)
| EvLog (level : LogLevel) (msg : string)
(* a log line that joins the elements of a set: [before], then the elements
   separated by [sep] in the order in which the set yields them, which the
   program does not fix, then [after] *)
| EvLogSet (level : LogLevel) (before sep : string) (items : list string) (after : string).

Inductive Exn :=
| AssertionError
| TypeError
| StopIteration.

Definition M (A : Type) : Type := list Event * (Exn + A).

Definition ret {A} (a : A) : M A := ([], inr a).

Definition bind {A B} (m : M A) (k : A -> M B) : M B :=
  match m with
  | (t, inl e) => (t, inl e)
  | (t, inr a) => let '(t', r) := k a in (t ++ t', r)
  end.

(** a computation run after the events [t] *)
Definition prepend {A} (t : list Event) (m : M A) : M A := (t ++ fst m, snd m).

Definition emit (e : Event) : M unit := ([e], inr tt).
Definition raise {A} (e : Exn) : M A := ([], inl e).
Definition log (level : LogLevel) (msg : string) : M unit := emit (EvLog level msg).
Definition run (cmd : string) : M unit := emit (EvRun cmd).

Declare Scope monad_scope.
Delimit Scope monad_scope with monad.
Notation "x <- c1 ;; c2" := (bind c1 (fun x => c2))
  (at level 61, c1 at next level, right associativity) : monad_scope.
Notation "c1 ;; c2" := (bind c1 (fun _ => c2))
  (at level 61, right associativity) : monad_scope.
Local Open Scope monad_scope.

(** a [for] loop that threads an accumulator *)
Fixpoint foldM {A B} (f : A -> B -> M A) (l : list B) (a : A) : M A :=
  match l with
  | [] => ret a
  | x :: l' => a' <- f a x ;; foldM f l' a'
  end.

(** a [for] loop run for its effects *)
Fixpoint forM_ {B} (f : B -> M unit) (l : list B) : M unit :=
  match l with
  | [] => ret tt
  | x :: l' => f x ;; forM_ f l'
  end.

(** a comprehension whose element expression has effects *)
Fixpoint mapM {A B} (f : A -> M B) (l : list A) : M (list B) :=
  match l with
  | [] => ret []
  | x :: l' => y <- f x ;; ys <- mapM f l' ;; ret (y :: ys)
  end.

Definition when (b : bool) (m : M unit) : M unit := if b then m else ret tt.

(** the scheduler commands and the provider requests of a trace *)
Definition commands (t : list Event) : list string :=
  flat_map (fun e => match e with EvRun c => [c] | _ => [] end) t.

Definition policy_requests (t : list Event) : list PolicyRequest :=
  flat_map (fun e => match e with EvInsertPolicy r => [r] | _ => [] end) t.

(** ** Data model *)

Definition PLACEMENT_MAX_CNT : nat := 150.
Definition BULK_INSERT_LIMIT : nat := 5000.

Record ResumeJobData := {
  rj_job_id : Z;
  rj_partition : string;
  rj_nodes_alloc : list string
}.

Record ResumeData := {
  jobs : list ResumeJobData
}.

Record BulkChunk := {
  nodes : list string;
  prefix : string;
  chunk_idx : nat;
  job_id : option Z;
  partition : option string;
  placement_group : option string
}.

(** the fields of a nodeset entry of the configuration that resume.py reads *)
Record Nodeset := {
  nodeset_name : string;
  enable_placement : bool;
  zone_policy_allow : list string;
  zone_policy_deny : list string;
  zone_target_shape : string
}.

(** [util.Lookup]: the configuration and naming queries resume.py makes.
    [tpu_vmcount ns] is [util.TPU(ns).vmcount]; [node_machine_type n] is
    [node_template_info(n).machineType]. *)
Record Lookup := {
  slurm_cluster_name : string;
  scontrol : string;
  project : string;
  enable_slurm_gcp_plugins : bool;
  node_prefix : string -> string;
  node_nodeset_name : string -> string;
  node_nodeset : string -> Nodeset;
  node_is_tpu : string -> bool;
  node_region : string -> string;
  node_template : string -> string;
  node_machine_type : string -> string;
  partition_is_tpu : string -> bool;
  partition_enable_job_exclusive : option string -> bool;
  tpu_vmcount : Nodeset -> nat
}.

(** Modelled from the spec: [Lookup.nodeset_map] is not part of this file. The
    placement manager works per nodeset: the node list is split by nodeset
    name, in order of first occurrence. *)
Definition nodeset_map (lkp : Lookup) (hostnames : list string) : dict string (list string) :=
  groupby_unsorted hostnames (node_nodeset_name lkp).

(** what the provider answers to a request: an operation, or the exception
    that [ensure_execute] hands back as a value *)
Record OpError := {
  err_code : string;
  err_message : option string
}.

Record Operation := {
  op_name : string;
  op_target : string;
  op_error : option (list OpError)
}.

Record ErrorDetail := {
  reason : option string
}.

Inductive ExecResult :=
| Started (op : Operation)
| Raised (error_details : list ErrorDetail).

(** the provider, as seen by resume.py *)
Record Provider := {
  ensure_execute : PolicyRequest -> ExecResult;
  wait_for_operation : Operation -> Operation
}.

(** ** Placement groups *)

Definition invalid_types : list string := ["e2"; "t2d"; "n1"; "t2a"; "m1"; "m2"; "m3"].

(** the name of the [i]-th placement group of a nodeset for a job *)
Definition placement_group_name (cluster nodeset : string) (job : Z) (i : nat) : string :=
  (cluster ++ "-slurmgcp-managed-" ++ nodeset ++ "-" ++ str_of_Z job ++ "-" ++ str_of_nat i)%string.

Definition classify_result (item : string * ExecResult) : string :=
  match snd item with
  | Started _ => "submitted"
  | Raised error_details =>
      if forallb (fun e => key_eqb (reason e) (Some "alreadyExists")) error_details
      then "redundant"
      else "failed"
  end.

(** [dict(grouped_ops.get(key, {}))] *)
Definition grouped_get {V} (grouped_ops : dict string (list (string * V))) (key : string)
  : dict string V :=
  match find (fun kv => String.eqb (fst kv) key) grouped_ops with
  | Some (_, items) => dict_of_items items
  | None => []
  end.

(** the three result classes of a list of (group, result) items *)
Definition classify_ops (ops : dict string ExecResult)
  : dict string ExecResult * dict string ExecResult * dict string ExecResult :=
  let grouped_ops := groupby_unsorted ops classify_result in
  (grouped_get grouped_ops "submitted",
   grouped_get grouped_ops "redundant",
   grouped_get grouped_ops "failed").

Definition error_text (errs : list OpError) : string :=
  join "; " (map (fun err =>
    (err_code err ++ ": " ++
     match err_message err with Some m => m | None => "no message" end)%string) errs).

Section Placement.

Variable lookup : Lookup.
Variable provider : Provider.
(** [slurm_gcp_plugins.pre_placement_group_insert], which may rewrite the
    request body in place *)
Variable pre_placement_group_insert : PolicyRequest -> PolicyRequest.
(** [util.to_hostlist_fast]: the compressed host-range of a node list *)
Variable to_hostlist_fast : list string -> string.

Fixpoint valid_placement_nodes (nodelist : list string) : M bool :=
  match nodelist with
  | [] => ret true
  | node :: rest =>
      let mt := node_machine_type lookup node in
      if mem (split_head "-" mt) invalid_types then
        log WARNING ("Unsupported machine type for placement policy: " ++ mt ++ ".")%string ;;
        emit (EvLogSet WARNING
                "Please do not use any the following machine types with placement policy: ("
                "," invalid_types ")") ;;
        ret false
      else valid_placement_nodes rest
  end.

Definition create_placement_request (pg_name region : string) : PolicyRequest :=
  let config := {| pr_name := pg_name; pr_region := region; pr_collocation := "COLLOCATED" |} in
  if enable_slurm_gcp_plugins lookup then pre_placement_group_insert config else config.

(** [groups]: the slices of the node list, under their names *)
Definition placement_groups_of (node_list : list string) (job : Z) : dict string (list string) :=
  let nodeset := node_nodeset lookup (hd "" node_list) in
  dict_of_items
    (map (fun '(i, nodes) =>
            (placement_group_name (slurm_cluster_name lookup) (nodeset_name nodeset) job i, nodes))
         (enumerate (chunked PLACEMENT_MAX_CNT node_list))).

(** [requests]: one creation request per group *)
Definition placement_requests (node_list : list string) (job : Z) : dict string PolicyRequest :=
  let region := node_region lookup (hd "" node_list) in
  map (fun group => (group, create_placement_request group region))
      (keys (placement_groups_of node_list job)).

(** [map_with_futures(ensure_execute, requests.values())] *)
Definition execute_requests (requests : list PolicyRequest) : M (list ExecResult) :=
  mapM (fun req => emit (EvInsertPolicy req) ;; ret (ensure_execute provider req)) requests.

(** [ops]: the provider's answer to each group's request *)
Definition placement_ops (node_list : list string) (job : Z) : dict string ExecResult :=
  let requests := placement_requests node_list job in
  dict_of_items (combine (keys requests) (map (ensure_execute provider) (values requests))).

Definition create_nodeset_placement_groups (node_list : list string) (job : Z)
  : M (dict (option string) (list string)) :=
  let no_pg := [(None, node_list)] in
  if Nat.ltb (List.length node_list) 2 then ret no_pg else
  let model := hd "" node_list in
  let nodeset := node_nodeset lookup model in
  ok <- (if enable_placement nodeset then valid_placement_nodes node_list else ret false) ;;
  if negb ok then ret no_pg else
  let groups := placement_groups_of node_list job in
  let requests := placement_requests node_list job in
  results <- execute_requests (values requests) ;;
  let ops := dict_of_items (combine (keys requests) results) in
  let '(submitted, redundant, failed) := classify_ops ops in
  when (negb (Nat.eqb (List.length redundant) 0))
       (log WARNING ("placement policies already exist: " ++ join "," (keys redundant))%string) ;;
  (* [for _, e in failed.values()] unpacks an exception object *)
  (if negb (Nat.eqb (List.length failed) 0) then raise TypeError else ret tt) ;;
  operations <- mapM (fun '(group, r) =>
                        match r with
                        | Started op => emit (EvWait (op_name op)) ;;
                                        ret (group, wait_for_operation provider op)
                        | Raised _ => raise TypeError (* not among the submitted *)
                        end) submitted ;;
  forM_ (fun '(group, op) =>
           match op_error op with
           | Some errs =>
               log ERROR ("placement group failed to create: '" ++ group ++ "' ("
                            ++ op_name op ++ "): " ++ error_text errs)%string
           | None => ret tt
           end) operations ;;
  log INFO ("created " ++ str_of_nat (List.length operations) ++ " placement groups ("
              ++ to_hostlist_fast (keys operations) ++ ")")%string ;;
  ret (map (fun '(group, nodes) => (Some group, nodes)) groups).

Definition create_placement_groups (node_list : list string) (job : Z)
  : M (dict (option string) (list string)) :=
  let node_map := nodeset_map lookup node_list in
  foldM (fun pgs '(_, nodes) =>
           new_pgs <- create_nodeset_placement_groups nodes job ;;
           ret (dict_update pgs new_pgs))
        node_map [].

End Placement.

(** ** Grouping nodes into bulk chunks *)

(** keys of [job_groups]: a job id, or one of the two fixed names *)
Inductive JobKey :=
| JobId (j : Z)
| JobName (s : string).

Definition JobKey_eqb (a b : JobKey) : bool :=
  match a, b with
  | JobId x, JobId y => Z.eqb x y
  | JobName x, JobName y => String.eqb x y
  | _, _ => false
  end.

Lemma JobKey_eqb_spec (a b : JobKey) : reflect (a = b) (JobKey_eqb a b).
Proof.
  destruct a as [x|x], b as [y|y]; simpl; try (constructor; congruence).
  - destruct (Z.eqb_spec x y); constructor; congruence.
  - destruct (String.eqb_spec x y); constructor; congruence.
Qed.

#[global] Instance JobKey_Hashable : Hashable JobKey :=
  {| key_eqb := JobKey_eqb; key_eqb_spec := JobKey_eqb_spec |}.

Record JobGroup := {
  jg_job_id : option Z;
  jg_partition : option string;
  jg_placement_groups : dict (option string) (list string)
}.

Definition group_name (chunk : BulkChunk) : string :=
  match placement_group chunk with
  | Some pg =>
      (prefix chunk ++ ":job" ++ str_of_opt_Z (job_id chunk) ++ ":" ++ pg ++ ":"
         ++ str_of_nat (chunk_idx chunk))%string
  | None =>
      match job_id chunk with
      | Some j => (prefix chunk ++ ":job" ++ str_of_Z j ++ ":" ++ str_of_nat (chunk_idx chunk))%string
      | None => (prefix chunk ++ ":" ++ str_of_nat (chunk_idx chunk))%string
      end
  end.

Section Grouping.

Variable lookup : Lookup.
Variable provider : Provider.
Variable pre_placement_group_insert : PolicyRequest -> PolicyRequest.
Variable to_hostlist_fast : list string -> string.

Let create_placement_groups' :=
  create_placement_groups lookup provider pre_placement_group_insert to_hostlist_fast.

Definition chunk_nodes (lkp : Lookup) (nodes : list string) : list (list string) :=
  let chunk_size :=
    match nodes with
    | first :: _ =>
        if node_is_tpu lkp first then tpu_vmcount lkp (node_nodeset lkp first)
        else BULK_INSERT_LIMIT
    | [] => BULK_INSERT_LIMIT
    end in
  chunked chunk_size nodes.

(** the loop over [resume_data.jobs] that fills [job_groups] *)
Definition job_groups_of_jobs (lkp : Lookup) (nodes : list string) (resume_data : ResumeData)
  : M (dict JobKey JobGroup) :=
  foldM (fun job_groups job =>
           let nodes_resume := set_inter nodes (set_of (rj_nodes_alloc job)) in
           pgs <- (if partition_is_tpu lkp (rj_partition job)
                   then ret [(None, sorted nodes_resume)]
                   else
                     pgs <- create_placement_groups' (rj_nodes_alloc job) (rj_job_id job) ;;
                     ret (map (fun '(pg, pg_nodes) =>
                                 (pg, sorted (set_inter (set_of pg_nodes) nodes_resume))) pgs)) ;;
           ret (dict_set (JobId (rj_job_id job))
                         {| jg_job_id := Some (rj_job_id job);
                            jg_partition := Some (rj_partition job);
                            jg_placement_groups := pgs |}
                         job_groups))
        (jobs resume_data) [].

(** the comprehension that builds [grouped_nodes], clause by clause:
    the chunks of one prefix bucket, of one placement group, of one job *)
Definition chunks_of_prefix (lkp : Lookup) (job : JobGroup) (pg : option string)
    (bucket : string * list string) : list BulkChunk :=
  let '(pfx, nodes) := bucket in
  map (fun '(i, nodes_chunk) =>
         {| nodes := nodes_chunk;
            prefix := pfx;
            chunk_idx := i;
            job_id := jg_job_id job;
            partition := jg_partition job;
            placement_group := pg |})
      (enumerate (chunk_nodes lkp nodes)).

Definition chunks_of_placement (lkp : Lookup) (job : JobGroup)
    (entry : option string * list string) : list BulkChunk :=
  let '(pg, pg_nodes) := entry in
  flat_map (chunks_of_prefix lkp job pg) (groupby_unsorted pg_nodes (node_prefix lkp)).

Definition chunks_of_job (lkp : Lookup) (job : JobGroup) : list BulkChunk :=
  flat_map (chunks_of_placement lkp job) (jg_placement_groups job).

Definition grouped_nodes (lkp : Lookup) (job_groups : dict JobKey JobGroup) : list BulkChunk :=
  flat_map (chunks_of_job lkp) (values job_groups).

(** [job_groups] as it stands when the comprehension runs *)
Definition job_groups_of (nodes : list string) (resume_data : option ResumeData) (lkp : Lookup)
  : M (dict JobKey JobGroup) :=
  let resume_data := match resume_data with Some r => r | None => {| jobs := [] |} end in
  let nodes := set_of nodes in
  job_groups <- job_groups_of_jobs lkp nodes resume_data ;;
  let all_jobless_nodes :=
    set_diff nodes (concat (map rj_nodes_alloc (jobs resume_data))) in
  let '(jobless_nodes, jobless_nodes_tpu) := separate (node_is_tpu lkp) all_jobless_nodes in
  normal_pgs <- create_placement_groups' (sorted jobless_nodes) 0%Z ;;
  let job_groups :=
    dict_set (JobName "Normal_None")
             {| jg_job_id := None; jg_partition := None; jg_placement_groups := normal_pgs |}
             job_groups in
  let job_groups :=
    dict_set (JobName "TPU_None")
             {| jg_job_id := None; jg_partition := None;
                jg_placement_groups := [(None, sorted jobless_nodes_tpu)] |}
             job_groups in
  ret job_groups.

Definition group_nodes_bulk (nodes : list string) (resume_data : option ResumeData) (lkp : Lookup)
  : M (dict string BulkChunk) :=
  job_groups <- job_groups_of nodes resume_data lkp ;;
  ret (dict_of_items (map (fun chunk => (group_name chunk, chunk))
                          (grouped_nodes lkp job_groups))).

End Grouping.

(** ** Building the bulk-insert request *)

Inductive ApiMethod :=
| ZonalBulkInsert (zone : string)
| RegionalBulkInsert (region : string).

Record LocationPolicy := {
  locations : dict string string;
  targetShape : string
}.

Section Request.

(** the result of [instance_properties]; which properties it holds plays
    no part in the shape of the batch *)
Variable Props : Type.

Record BulkBody := {
  count : nat;
  minCount : option nat;
  sourceInstanceTemplate : string;
  instanceProperties : Props;
  perInstanceProperties : list string;
  locationPolicy : option LocationPolicy
}.

Record BulkInsertRequest := {
  req_method : ApiMethod;
  req_project : string;
  req_body : BulkBody
}.

Variable lookup : Lookup.
(** [instance_properties], which may log *)
Variable instance_properties :
  Nodeset -> string -> option string -> option Z -> option Z -> M Props.
(** [slurm_gcp_plugins.pre_instance_bulk_insert], which is handed the body *)
Variable pre_instance_bulk_insert : list string -> option string -> BulkBody -> BulkBody.

Definition create_instances_request (nodes : list string) (partition_name : option string)
    (placement_group : option string) (job : option Z) : M BulkInsertRequest :=
  if negb (Nat.ltb 0 (List.length nodes) && Nat.leb (List.length nodes) BULK_INSERT_LIMIT)
  then raise AssertionError else
  let model := hd "" nodes in
  let nodeset := node_nodeset lookup model in
  let template := node_template lookup model in
  let body_count := List.length nodes in
  body_minCount <-
    (if truthy placement_group then
       if negb (Nat.leb (List.length nodes) PLACEMENT_MAX_CNT)
       then raise AssertionError
       else ret None
     else ret (Some 1)) ;;
  let labels :=
    match job with
    | Some j => if partition_enable_job_exclusive lookup partition_name then Some j else None
    | None => None
    end in
  props <- instance_properties nodeset model placement_group labels job ;;
  let per_instance := keys (dict_of_items (map (fun k => (k, tt)) nodes)) in
  let zone_allow := zone_policy_allow nodeset in
  let zone_deny := zone_policy_deny nodeset in
  let '(api_method, location_policy) :=
    match zone_allow with
    | [z] => (ZonalBulkInsert z, None)
    | _ =>
        (RegionalBulkInsert (node_region lookup model),
         Some {| locations :=
                   dict_of_items
                     (map (fun z => (("zones/" ++ z)%string, "ALLOW")) zone_allow ++
                      map (fun z => (("zones/" ++ z)%string, "DENY")) zone_deny);
                 targetShape := zone_target_shape nodeset |})
    end in
  let body := {| count := body_count;
                 minCount := body_minCount;
                 sourceInstanceTemplate := template;
                 instanceProperties := props;
                 perInstanceProperties := per_instance;
                 locationPolicy := location_policy |} in
  let body :=
    if enable_slurm_gcp_plugins lookup
    then pre_instance_bulk_insert nodes placement_group body
    else body in
  ret {| req_method := api_method; req_project := project lookup; req_body := body |}.

End Request.

(** the [labels] the builder hands to [instance_properties]: the job id
    (under [slurm_job_id]) for a job of a partition with exclusive jobs *)
Definition job_labels (lookup : Lookup) (partition_name : option string) (job : option Z)
  : option Z :=
  match job with
  | Some j => if partition_enable_job_exclusive lookup partition_name then Some j else None
  | None => None
  end.

(** ** Quarantine and reconciliation *)

Section Quarantine.

Variable lookup : Lookup.
Variable to_hostlist_fast : list string -> string.
Variable to_hostlist : list string -> string.
(** [shlex.quote] *)
Variable shlex_quote : string -> string.
(** [util.trim_self_link]: the resource name at the end of a self link *)
Variable trim_self_link : string -> string.

Definition down_command (nodelist reason_quoted : string) : string :=
  (scontrol lookup ++ " update nodename=" ++ nodelist ++ " state=down reason=" ++ reason_quoted)%string.

Definition comment_command (job : Z) (reason_quoted : string) : string :=
  (scontrol lookup ++ " update jobid=" ++ str_of_Z job ++ " admincomment='" ++ reason_quoted ++ "'")%string.

Definition notify_command (job : Z) (reason_quoted : string) : string :=
  (scontrol lookup ++ " notify " ++ str_of_Z job ++ " '" ++ reason_quoted ++ "'")%string.

(** [set(job.nodes_alloc) & nodes] is not empty *)
Definition job_uses (nodes : list string) (job : ResumeJobData) : bool :=
  negb (Nat.eqb (List.length (set_inter (set_of (rj_nodes_alloc job)) nodes)) 0).

Definition down_nodes_notify_jobs (nodes : list string) (reason : string)
    (resume_data : option ResumeData) : M unit :=
  let nodelist := to_hostlist_fast nodes in
  let reason_quoted := shlex_quote reason in
  log ERROR ("Marking nodes " ++ nodelist ++ " as DOWN, reason: " ++ reason)%string ;;
  run (down_command nodelist reason_quoted) ;;
  match resume_data with
  | None =>
      log WARNING
        "Cannot update and notify jobs with API failures as no valid resume file is present."
  | Some resume_data =>
      let nodes := set_of nodes in
      forM_ (fun job =>
               if negb (job_uses nodes job) then ret tt else
               run (comment_command (rj_job_id job) reason_quoted) ;;
               run (notify_command (rj_job_id job) reason_quoted))
            (jobs resume_data)
  end.

Definition has_error (op : Operation) : bool :=
  match op_error op with Some _ => true | None => false end.

Definition op_errors (op : Operation) : list OpError :=
  match op_error op with Some errs => errs | None => [] end.

(** ["+".join(err["code"] for err in op["error"]["errors"])] *)
Definition joined_code (op : Operation) : string := join "+" (map err_code (op_errors op)).

(** [failed_nodes] of one failure bucket *)
Definition failed_nodes_of (failed_ops : list Operation) : dict string Operation :=
  dict_of_items (map (fun op => (trim_self_link (op_target op), op)) failed_ops).

(** the reason handed to the quarantine for a bucket: built from the first
    entry of [failed_nodes] *)
Definition bucket_reason (failed_op : Operation) : string :=
  ("GCP Error: " ++ error_text (op_errors failed_op))%string.

(** the first log line of a failure bucket *)
Definition failure_log (group_id : string) (bucket : string * list Operation) : string :=
  let '(code, failed_ops) := bucket in
  let failed_nodes := failed_nodes_of failed_ops in
  let hostlist := to_hostlist (keys failed_nodes) in
  let count := List.length failed_nodes in
  (str_of_nat count ++ " instances failed to start: " ++ code ++ " (" ++ hostlist
     ++ ") operationGroupId=" ++ group_id)%string.

(** the body of the loop over one failure bucket in [resume_nodes] *)
Definition reconcile_bucket (group_id : string) (resume_data : option ResumeData)
    (bucket : string * list Operation) : M unit :=
  let '(code, failed_ops) := bucket in
  let failed_nodes := failed_nodes_of failed_ops in
  log ERROR (failure_log group_id bucket) ;;
  match failed_nodes with
  | [] => raise StopIteration
  | (failed_node, failed_op) :: _ =>
      let msg := error_text (op_errors failed_op) in
      when (negb (String.eqb code "RESOURCE_ALREADY_EXISTS"))
           (down_nodes_notify_jobs (keys failed_nodes) (bucket_reason failed_op) resume_data) ;;
      log ERROR ("errors from insert for node '" ++ failed_node ++ "' (" ++ op_name failed_op
                   ++ "): " ++ msg)%string
  end.

(** the part of the loop body of [resume_nodes] that reconciles the
    per-instance insert operations of one completed bulk operation, from the
    split of [get_insert_operations(group_id)] on; the warning about the bulk
    operation's own error comes before it and is not part of it. It returns
    the successful inserts *)
Definition reconcile_inserts (group_id : string) (insert_operations : list Operation)
    (resume_data : option ResumeData) : M (list Operation) :=
  let '(successful_inserts, failed_inserts) := separate has_error insert_operations in
  let by_error_inserts := groupby_unsorted failed_inserts joined_code in
  forM_ (reconcile_bucket group_id resume_data) by_error_inserts ;;
  let ready_nodes := set_of (map (fun op => trim_self_link (op_target op)) successful_inserts) in
  when (Nat.ltb 0 (List.length ready_nodes))
       (log INFO ("created " ++ str_of_nat (List.length ready_nodes) ++ " instances: nodes="
                    ++ to_hostlist_fast ready_nodes)%string) ;;
  ret successful_inserts.

End Quarantine.

(** ** Notions used to state the properties *)

(** a job's allocation and a node set have a node in common *)
Definition allocation_intersects (nodes : list string) (job : ResumeJobData) : bool :=
  existsb (fun n => mem n nodes) (rj_nodes_alloc job).

(** the nodeset routine goes on to create placement groups for this list:
    none of the three reasons for the "no policy" answer applies *)
Definition placement_applies (lookup : Lookup) (node_list : list string) : bool :=
  negb (Nat.ltb (List.length node_list) 2) &&
  enable_placement (node_nodeset lookup (hd "" node_list)) &&
  match valid_placement_nodes lookup node_list with
  | (_, inr ok) => ok
  | (_, inl _) => false
  end.

(** every reported error detail gives "alreadyExists" as its reason *)
Definition only_already_exists (error_details : list ErrorDetail) : Prop :=
  forall e, In e error_details -> reason e = Some "alreadyExists".

Section QuarantineNotions.

Variable lookup : Lookup.
Variable to_hostlist_fast : list string -> string.
Variable shlex_quote : string -> string.
Variable trim_self_link : string -> string.

(** the scheduler commands of a quarantine of [nodes]: one mark-down command
    over the host-range of all of them, then a comment update and a
    notification per job whose allocation meets them *)
Definition quarantine_commands (nodes : list string) (reason : string)
    (resume_data : option ResumeData) : list string :=
  down_command lookup (to_hostlist_fast nodes) (shlex_quote reason) ::
  match resume_data with
  | None => []
  | Some rd =>
      flat_map (fun job => [comment_command lookup (rj_job_id job) (shlex_quote reason);
                            notify_command lookup (rj_job_id job) (shlex_quote reason)])
               (filter (allocation_intersects nodes) (jobs rd))
  end.

(** the scheduler commands owed to one failure bucket: none when its code is
    exactly "RESOURCE_ALREADY_EXISTS", else the quarantine of all its nodes
    with the reason built from its first entry *)
Definition bucket_commands (resume_data : option ResumeData)
    (bucket : string * list Operation) : list string :=
  let '(code, failed_ops) := bucket in
  if String.eqb code "RESOURCE_ALREADY_EXISTS" then []
  else
    match failed_nodes_of trim_self_link failed_ops with
    | [] => []
    | (_, failed_op) :: _ =>
        quarantine_commands (keys (failed_nodes_of trim_self_link failed_ops))
                            (bucket_reason failed_op) resume_data
    end.

End QuarantineNotions.

(** the machine family of a node is one that placement policies refuse *)
Definition disallowed_family (lookup : Lookup) (node : string) : Prop :=
  In (split_head "-" (node_machine_type lookup node)) invalid_types.

(** a placement group is attached to a chunk: the chunk's placement group
    is a non-empty name, which is what [if placement_group:] tests *)
Definition placement_attached (chunk : BulkChunk) : bool := truthy (placement_group chunk).

(** the group identifier as the specification words it:
    [{prefix}:job{job_id}:{placement_group}:{chunk_index}], the job part left
    out without a job id, the placement part left out without a placement
    group *)
Definition spec_group_name (chunk : BulkChunk) : string :=
  (prefix chunk
   ++ match job_id chunk with Some j => ":job" ++ str_of_Z j | None => "" end
   ++ match placement_group chunk with Some pg => ":" ++ pg | None => "" end
   ++ ":" ++ str_of_nat (chunk_idx chunk))%string.

(** an entry of a placement mapping computed for [node_list] and [job]: its
    nodes are nodes of the list, and a named group holds at most
    [PLACEMENT_MAX_CNT] nodes under a name built from the cluster name, a
    nodeset name, the job id and an index *)
Definition placement_entry_ok (lookup : Lookup) (node_list : list string) (job : Z)
    (pg : option string) (pg_nodes : list string) : Prop :=
  (forall n, In n pg_nodes -> In n node_list) /\
  match pg with
  | None => True
  | Some name =>
      List.length pg_nodes <= PLACEMENT_MAX_CNT /\
      exists model i,
        name = placement_group_name (slurm_cluster_name lookup)
                 (nodeset_name (node_nodeset lookup model)) job i
  end.

(** what holds of an entry of [job_groups]: placement groups under distinct
    keys, named groups of at most [PLACEMENT_MAX_CNT] nodes under generated
    names, the job id of the key, and for the two jobless groups nodes that
    are all conventional, respectively all accelerator nodes *)
Definition job_group_ok (lookup lkp : Lookup) (key : JobKey) (group : JobGroup) : Prop :=
  NoDup (keys (jg_placement_groups group)) /\
  (forall pg pg_nodes,
     In (pg, pg_nodes) (jg_placement_groups group) ->
     match pg with
     | None => True
     | Some name =>
         List.length pg_nodes <= PLACEMENT_MAX_CNT /\
         exists model job i,
           name = placement_group_name (slurm_cluster_name lookup)
                    (nodeset_name (node_nodeset lookup model)) job i
     end) /\
  match key with
  | JobId j => jg_job_id group = Some j
  | JobName s =>
      jg_job_id group = None /\
      exists tpu : bool,
        s = (if tpu then "TPU_None" else "Normal_None") /\
        forall pg pg_nodes n,
          In (pg, pg_nodes) (jg_placement_groups group) -> In n pg_nodes ->
          node_is_tpu lkp n = tpu
  end.

(** the entries of [job_groups] have distinct keys and are all well formed *)
Definition job_groups_ok (lookup lkp : Lookup) (job_groups : dict JobKey JobGroup) : Prop :=
  NoDup (keys job_groups) /\
  forall key group, In (key, group) job_groups -> job_group_ok lookup lkp key group.

(** the elements of [seq] under key [k], in order: the group of [k] *)
Definition group_of {A K} `{Hashable K} (key : A -> K) (seq : list A) (k : K) : list A :=
  filter (fun x => key_eqb (key x) k) seq.

(** the index built by [groupby_unsorted] after the elements [p] *)
Definition groupby_inv {A K} `{Hashable K} (key : A -> K) (p : list A)
    (d : dict K (list A)) : Prop :=
  NoDup (keys d) /\
  (forall k xs, In (k, xs) d -> xs = group_of key p k /\ xs <> []) /\
  (forall x, In x p -> In (key x) (keys d)).

(** the name parts of a chunk hold no ":" *)
Definition well_named (chunk : BulkChunk) : Prop :=
  has_char ":" (prefix chunk) = false /\
  forall pg, placement_group chunk = Some pg -> has_char ":" pg = false.

(** the group identifier of a chunk without its leading ["{prefix}:"] *)
Definition name_tail (chunk : BulkChunk) : string :=
  match placement_group chunk with
  | Some pg =>
      ("job" ++ str_of_opt_Z (job_id chunk) ++ ":" ++ pg ++ ":"
         ++ str_of_nat (chunk_idx chunk))%string
  | None =>
      match job_id chunk with
      | Some j => ("job" ++ str_of_Z j ++ ":" ++ str_of_nat (chunk_idx chunk))%string
      | None => str_of_nat (chunk_idx chunk)
      end
  end.

(** two duplicate-free lists with the same elements: one set in two orders *)
Definition same_set (l1 l2 : list string) : Prop :=
  NoDup l1 /\ NoDup l2 /\ forall x, In x l1 <-> In x l2.

Definition str_le (a b : string) : Prop := str_leb a b = true.

(** ** A small cluster

    Cluster [c] has three nodesets: [a] (conventional, placement enabled),
    [b] (conventional, placement disabled) and [t] (accelerator pods of two
    VMs). Node names are [c-<nodeset>-<index>]. *)

Module Demo.

Definition nodeset_name_of (node : string) : string :=
  if String.prefix "c-a-" node then "a"
  else if String.prefix "c-t-" node then "t"
  else "b".

Definition nodeset_of (node : string) : Nodeset :=
  {| nodeset_name := nodeset_name_of node;
     enable_placement := String.eqb (nodeset_name_of node) "a";
     zone_policy_allow := ["us-central1-a"];
     zone_policy_deny := [];
     zone_target_shape := "ANY_SINGLE_ZONE" |}.

Definition lookup : Lookup :=
  {| slurm_cluster_name := "c";
     scontrol := "scontrol";
     project := "proj";
     enable_slurm_gcp_plugins := false;
     node_prefix := fun node => ("c-" ++ nodeset_name_of node)%string;
     node_nodeset_name := nodeset_name_of;
     node_nodeset := nodeset_of;
     node_is_tpu := fun node => String.eqb (nodeset_name_of node) "t";
     node_region := fun _ => "us-central1";
     node_template := fun node => ("tpl-" ++ nodeset_name_of node)%string;
     node_machine_type := fun node =>
       if String.eqb (nodeset_name_of node) "a" then "c2-standard-60" else "n1-standard-8";
     partition_is_tpu := fun p => String.eqb p "tpu";
     partition_enable_job_exclusive := fun _ => false;
     tpu_vmcount := fun _ => 2 |}.

(** a provider on which no placement policy exists yet *)
Definition fresh : Provider :=
  {| ensure_execute := fun req =>
       Started {| op_name := ("op-" ++ pr_name req)%string;
                  op_target := pr_name req;
                  op_error := None |};
     wait_for_operation := fun op => op |}.

(** a provider on which every requested placement policy exists already *)
Definition existing : Provider :=
  {| ensure_execute := fun _ => Raised [{| reason := Some "alreadyExists" |}];
     wait_for_operation := fun op => op |}.

Definition no_plugin (req : PolicyRequest) : PolicyRequest := req.

Definition hostlist (nodes : list string) : string := join "," nodes.

Definition quote (s : string) : string := ("'" ++ s ++ "'")%string.

(** a failed insert that reports two errors *)
Definition two_errors : Operation :=
  {| op_name := "operation-1";
     op_target := "https://www.googleapis.com/compute/v1/projects/proj/zones/us-central1-a/instances/c-a-0";
     op_error := Some [ {| err_code := "QUOTA_EXCEEDED"; err_message := Some "Quota exceeded" |};
                        {| err_code := "ZONE_RESOURCE_POOL_EXHAUSTED"; err_message := None |} ] |}.

(** the text after the last "/" of a link *)
Fixpoint trim (link : string) : string :=
  match link with
  | EmptyString => EmptyString
  | String c rest =>
      if has_char "/" rest then trim rest
      else if Ascii.eqb c "/" then rest else link
  end.

Definition group_nodes (p : Provider) (nodes : list string) (resume_data : option ResumeData)
  : M (dict string BulkChunk) :=
  group_nodes_bulk lookup p no_plugin hostlist nodes resume_data lookup.

End Demo.

(** the collaborators of the request builder, for the same cluster *)
Module DemoRequest.

(** the nodeset has a reservation without policies, which
    [instance_properties] reports in the log *)
Definition instance_properties (_ : Nodeset) (_ : string) (_ : option string)
    (_ _ : option Z) : M unit :=
  log INFO "reservation projects/proj/reservations/res-1 is being used without any policies".

Definition no_plugin (_ : list string) (_ : option string) (body : BulkBody unit)
  : BulkBody unit := body.

Definition placed_chunk : BulkChunk :=
  {| nodes := ["c-a-0"; "c-a-1"];
     prefix := "c-a";
     chunk_idx := 0;
     job_id := Some 7%Z;
     partition := Some "p";
     placement_group := Some "c-slurmgcp-managed-a-7-0" |}.

End DemoRequest.

(** the same cluster with plugins enabled, and a plugin that rewrites the
    request body it is handed *)
Module DemoPlugin.

Definition lookup : Lookup :=
  {| slurm_cluster_name := slurm_cluster_name Demo.lookup;
     scontrol := scontrol Demo.lookup;
     project := project Demo.lookup;
     enable_slurm_gcp_plugins := true;
     node_prefix := node_prefix Demo.lookup;
     node_nodeset_name := node_nodeset_name Demo.lookup;
     node_nodeset := node_nodeset Demo.lookup;
     node_is_tpu := node_is_tpu Demo.lookup;
     node_region := node_region Demo.lookup;
     node_template := node_template Demo.lookup;
     node_machine_type := node_machine_type Demo.lookup;
     partition_is_tpu := partition_is_tpu Demo.lookup;
     partition_enable_job_exclusive := partition_enable_job_exclusive Demo.lookup;
     tpu_vmcount := tpu_vmcount Demo.lookup |}.

Definition one_instance (_ : list string) (_ : option string) (body : BulkBody unit)
  : BulkBody unit :=
  {| count := 1;
     minCount := minCount body;
     sourceInstanceTemplate := sourceInstanceTemplate body;
     instanceProperties := instanceProperties body;
     perInstanceProperties := perInstanceProperties body;
     locationPolicy := locationPolicy body |}.

End DemoPlugin.


(** ** Further notions *)

(** the event is a wait for a provider operation *)
Definition is_wait (e : Event) : bool :=
  match e with EvWait _ => true | _ => false end.

(** the jobs of the resume data, none when the data is absent *)
Definition jobs_of (resume_data : option ResumeData) : list ResumeJobData :=
  match resume_data with
  | Some r => jobs r
  | None => []
  end.

(** what an entry of [job_groups] holds, for the input nodes [input] and the
    jobs [job_list]: lists of distinct input nodes; under a job id, nodes of
    the allocation of a job with that id, and no named group when the job's
    partition is an accelerator partition; under one of the two fixed names,
    nodes that no job has allocated, and no named group for accelerator
    nodes *)
Definition job_group_sound (lkp : Lookup) (input : list string)
    (job_list : list ResumeJobData) (key : JobKey) (group : JobGroup) : Prop :=
  (forall pg pg_nodes, In (pg, pg_nodes) (jg_placement_groups group) ->
     NoDup pg_nodes /\ forall n, In n pg_nodes -> In n input) /\
  match key with
  | JobId j =>
      exists job,
        In job job_list /\ rj_job_id job = j /\
        jg_job_id group = Some j /\ jg_partition group = Some (rj_partition job) /\
        (forall pg pg_nodes n, In (pg, pg_nodes) (jg_placement_groups group) ->
           In n pg_nodes -> In n (rj_nodes_alloc job)) /\
        (partition_is_tpu lkp (rj_partition job) = true ->
         forall pg pg_nodes, In (pg, pg_nodes) (jg_placement_groups group) -> pg = None)
  | JobName _ =>
      jg_job_id group = None /\ jg_partition group = None /\
      forall pg pg_nodes n, In (pg, pg_nodes) (jg_placement_groups group) ->
        In n pg_nodes ->
        (forall job, In job job_list -> ~ In n (rj_nodes_alloc job)) /\
        (node_is_tpu lkp n = true -> pg = None)
  end.

Definition job_groups_sound (lkp : Lookup) (input : list string)
    (job_list : list ResumeJobData) (job_groups : dict JobKey JobGroup) : Prop :=
  forall key group, In (key, group) job_groups -> job_group_sound lkp input job_list key group.

(** a provider that refuses every placement policy for lack of quota *)
Module DemoFailure.

Definition refusing : Provider :=
  {| ensure_execute := fun _ => Raised [{| reason := Some "quotaExceeded" |}];
     wait_for_operation := fun op => op |}.


End DemoFailure.

(** the nodes of the list all belong to one nodeset *)
Definition one_nodeset (lookup : Lookup) (node_list : list string) : Prop :=
  forall a b, In a node_list -> In b node_list ->
              node_nodeset_name lookup a = node_nodeset_name lookup b.

(** no job of the list has allocated the node *)
Definition unallocated (job_list : list ResumeJobData) (node : string) : Prop :=
  forall job, In job job_list -> ~ In node (rj_nodes_alloc job).

(** the entry of [job_groups] holds every input node of the job's allocation *)
Definition covers_allocation (input : list string) (job : ResumeJobData)
    (group : JobGroup) : Prop :=
  forall n, In n input -> In n (rj_nodes_alloc job) ->
            exists pg pg_nodes, In (pg, pg_nodes) (jg_placement_groups group) /\ In n pg_nodes.

(** the two lists share no element *)
Definition disjoint {A} (l1 l2 : list A) : Prop :=
  forall x, In x l1 -> ~ In x l2.

(** the lists filed under different keys share no element *)
Definition values_disjoint {K A} (d : dict K (list A)) : Prop :=
  forall k1 l1 k2 l2, In (k1, l1) d -> In (k2, l2) d -> k1 <> k2 -> disjoint l1 l2.

(** ** Instance properties *)

(** a [timedelta], held as its length in microseconds *)
Definition timedelta := Z.

Definition timedelta_of_seconds (s : Z) : timedelta := (s * 1000000)%Z.
Definition timedelta_of_weeks (w : Z) : timedelta := (w * 7 * 86400 * 1000000)%Z.

(** [int(d.total_seconds())]: the conversion to [int] truncates towards zero *)
Definition int_total_seconds (d : timedelta) : Z := Z.quot d 1000000.

(** the [dws_flex] settings of a nodeset *)
Record DwsFlex := {
  dws_enabled : bool;
  max_run_duration : Z;
  use_job_duration : bool
}.

(** Modelled from the spec: the job record answered by [lookup().job] is not
    part of this file. "The job's remaining wall-clock limit" is its
    [duration], a [timedelta] or [None]. *)
Record Job := {
  job_duration : option timedelta
}.

(** Modelled from the spec: the reservation answered by
    [lookup().nodeset_reservation] is not part of this file. A "capacity
    reservation" has a name for the bulk insert, may be "dense", and may
    "carry its own resource policies". *)
Record Reservation := {
  bulk_insert_name : string;
  deployment_type : option string;
  reservation_policies : list string
}.

(** [props.scheduling] and [props.reservationAffinity]: a key that was never
    assigned is [None] *)
Record Scheduling := {
  onHostMaintenance : option string;
  provisioning_model : option string;
  maintenanceInterval : option string;
  instanceTerminationAction : option string;
  maxRunDuration_seconds : option Z
}.

Record ReservationAffinity := {
  consumeReservationType : option string;
  affinity_key : option string;
  affinity_values : option (list string)
}.

Definition no_scheduling : Scheduling :=
  {| onHostMaintenance := None; provisioning_model := None; maintenanceInterval := None;
     instanceTerminationAction := None; maxRunDuration_seconds := None |}.

Definition no_affinity : ReservationAffinity :=
  {| consumeReservationType := None; affinity_key := None; affinity_values := None |}.

Section InstanceProperties.

(** the values of labels *)
Variable Label : Type.
(** the explicit [instance_properties] of a nodeset *)
Variable Override : Type.

(** a disk of an instance template: [initializeParams.diskType] and
    [initializeParams.labels] *)
Record Disk := {
  diskType : option string;
  disk_labels : dict string Label
}.

(** Modelled from the spec: [lookup().template_info] is not part of this
    file. Of "the nodeset's source template" the builder reads the labels and
    the disks. *)
Record TemplateInfo := {
  template_labels : dict string Label;
  template_disks : list Disk
}.

(** the fields of a nodeset that [instance_properties] reads *)
Record NodesetProps := {
  maintenance_interval : option string;
  dws_flex : DwsFlex;
  nodeset_instance_properties : option Override
}.

(** [props]: the keys the builder assigns *)
Record InstanceProps := {
  props_labels : option (dict string Label);
  props_disks : option (list Disk);
  props_scheduling : Scheduling;
  resourcePolicies : option (list string);
  reservationAffinity : ReservationAffinity
}.

Definition empty_props : InstanceProps :=
  {| props_labels := None; props_disks := None; props_scheduling := no_scheduling;
     resourcePolicies := None; reservationAffinity := no_affinity |}.

Definition set_scheduling (props : InstanceProps) (s : Scheduling) : InstanceProps :=
  {| props_labels := props_labels props; props_disks := props_disks props;
     props_scheduling := s; resourcePolicies := resourcePolicies props;
     reservationAffinity := reservationAffinity props |}.

Definition set_resourcePolicies (props : InstanceProps) (pols : list string) : InstanceProps :=
  {| props_labels := props_labels props; props_disks := props_disks props;
     props_scheduling := props_scheduling props; resourcePolicies := Some pols;
     reservationAffinity := reservationAffinity props |}.

Definition set_reservationAffinity (props : InstanceProps) (a : ReservationAffinity)
  : InstanceProps :=
  {| props_labels := props_labels props; props_disks := props_disks props;
     props_scheduling := props_scheduling props; resourcePolicies := resourcePolicies props;
     reservationAffinity := a |}.

Definition set_onHostMaintenance (s : Scheduling) (v : string) : Scheduling :=
  {| onHostMaintenance := Some v; provisioning_model := provisioning_model s;
     maintenanceInterval := maintenanceInterval s;
     instanceTerminationAction := instanceTerminationAction s;
     maxRunDuration_seconds := maxRunDuration_seconds s |}.

Definition set_provisioning_model (s : Scheduling) (v : string) : Scheduling :=
  {| onHostMaintenance := onHostMaintenance s; provisioning_model := Some v;
     maintenanceInterval := maintenanceInterval s;
     instanceTerminationAction := instanceTerminationAction s;
     maxRunDuration_seconds := maxRunDuration_seconds s |}.

Definition set_maintenanceInterval (s : Scheduling) (v : string) : Scheduling :=
  {| onHostMaintenance := onHostMaintenance s; provisioning_model := provisioning_model s;
     maintenanceInterval := Some v;
     instanceTerminationAction := instanceTerminationAction s;
     maxRunDuration_seconds := maxRunDuration_seconds s |}.

Definition set_instanceTerminationAction (s : Scheduling) (v : string) : Scheduling :=
  {| onHostMaintenance := onHostMaintenance s; provisioning_model := provisioning_model s;
     maintenanceInterval := maintenanceInterval s;
     instanceTerminationAction := Some v;
     maxRunDuration_seconds := maxRunDuration_seconds s |}.

Definition set_maxRunDuration_seconds (s : Scheduling) (v : Z) : Scheduling :=
  {| onHostMaintenance := onHostMaintenance s; provisioning_model := provisioning_model s;
     maintenanceInterval := maintenanceInterval s;
     instanceTerminationAction := instanceTerminationAction s;
     maxRunDuration_seconds := Some v |}.

Definition set_consumeReservationType (a : ReservationAffinity) (v : string)
  : ReservationAffinity :=
  {| consumeReservationType := Some v; affinity_key := affinity_key a;
     affinity_values := affinity_values a |}.

Variable lookup : Lookup.
(** [lookup().template_info], [lookup().nodeset_reservation], [lookup().job] *)
Variable template_info : string -> TemplateInfo.
Variable nodeset_reservation : NodesetProps -> option Reservation.
Variable job_of : Z -> option Job.
(** [util.universe_domain()] *)
Variable universe_domain : string.
(** the text of a list of names inside an f-string *)
Variable str_of_list : list string -> string.
(** [props.update(...)] with the explicit properties of the nodeset *)
Variable props_update : InstanceProps -> Override -> InstanceProps.

Definition dws_flex_duration (flex : DwsFlex) (job_id : option Z) : M Z :=
  let max_duration := max_run_duration flex in
  let duration :=
    if use_job_duration flex then
      match job_id with
      | Some j =>
          match job_of j with
          | Some job =>
              match job_duration job with
              | Some d => if Z.eqb d 0 then None else Some d
              | None => None
              end
          | None => None
          end
      | None => None
      end
    else None in
  match duration with
  | Some d =>
      if Z.leb (timedelta_of_seconds 30) d && Z.leb d (timedelta_of_weeks 2)
      then ret (int_total_seconds d)
      else
        log INFO "Job TimeLimit cannot be less than 30 seconds or exceed 2 weeks" ;;
        ret max_duration
  | None => ret max_duration
  end.

Definition update_props_dws (props : InstanceProps) (flex : DwsFlex) (job_id : option Z)
  : M InstanceProps :=
  let props :=
    set_scheduling props (set_onHostMaintenance (props_scheduling props) "TERMINATE") in
  let props :=
    set_scheduling props (set_instanceTerminationAction (props_scheduling props) "DELETE") in
  let props :=
    set_reservationAffinity props
      (set_consumeReservationType (reservationAffinity props) "NO_RESERVATION") in
  seconds <- dws_flex_duration flex job_id ;;
  ret (set_scheduling props (set_maxRunDuration_seconds (props_scheduling props) seconds)).

(** the loop over the disks of the template: a disk that is not a local SSD
    takes the labels *)
Definition label_disk (labels : dict string Label) (disk : Disk) : Disk :=
  if String.eqb (match diskType disk with Some t => t | None => "local-ssd" end) "local-ssd"
  then disk
  else {| diskType := diskType disk; disk_labels := dict_update (disk_labels disk) labels |}.

Definition instance_properties (nodeset : NodesetProps) (model : string)
    (placement_group : option string) (labels : option (dict string Label))
    (job_id : option Z) : M InstanceProps :=
  let props := empty_props in
  let props :=
    match labels with
    | Some ((_ :: _) as labels) =>
        let template := node_template lookup model in
        let info := template_info template in
        {| props_labels := Some (dict_update (dict_of_items (template_labels info)) labels);
           props_disks := Some (map (label_disk labels) (template_disks info));
           props_scheduling := props_scheduling props;
           resourcePolicies := resourcePolicies props;
           reservationAffinity := reservationAffinity props |}
    | _ => props
    end in
  let props :=
    if truthy placement_group then
      match placement_group with
      | Some pg =>
          set_resourcePolicies
            (set_scheduling props (set_onHostMaintenance (props_scheduling props) "TERMINATE"))
            [pg]
      | None => props
      end
    else props in
  props <-
    match nodeset_reservation nodeset with
    | Some reservation =>
        let props :=
          set_reservationAffinity props
            {| consumeReservationType := Some "SPECIFIC_RESERVATION";
               affinity_key := Some ("compute." ++ universe_domain ++ "/reservation-name")%string;
               affinity_values := Some [bulk_insert_name reservation] |} in
        let props :=
          if key_eqb (deployment_type reservation) (Some "DENSE")
          then set_scheduling props
                 (set_provisioning_model (props_scheduling props) "RESERVATION_BOUND")
          else props in
        match reservation_policies reservation with
        | _ :: _ =>
            let props :=
              set_scheduling props
                (set_onHostMaintenance (props_scheduling props) "TERMINATE") in
            let props := set_resourcePolicies props (reservation_policies reservation) in
            log INFO ("reservation " ++ bulk_insert_name reservation
                        ++ " is being used with policies "
                        ++ str_of_list (reservation_policies reservation))%string ;;
            ret props
        | [] =>
            let props := set_resourcePolicies props [] in
            log INFO ("reservation " ++ bulk_insert_name reservation
                        ++ " is being used without any policies")%string ;;
            ret props
        end
    | None => ret props
    end ;;
  let props :=
    if truthy (maintenance_interval nodeset) then
      match maintenance_interval nodeset with
      | Some interval =>
          set_scheduling props (set_maintenanceInterval (props_scheduling props) interval)
      | None => props
      end
    else props in
  props <-
    (if dws_enabled (dws_flex nodeset)
     then update_props_dws props (dws_flex nodeset) job_id
     else ret props) ;;
  ret match nodeset_instance_properties nodeset with
      | Some explicit => props_update props explicit
      | None => props
      end.

(** [per_instance_properties]: no property beyond the name *)
Definition per_instance_properties (node : string) : unit := tt.

(** the other fields of the nodeset object that the request builder reads
    its zones from *)
Variable nodeset_props : Nodeset -> NodesetProps.
(** a job id as the value of a label *)
Variable label_of_job : Z -> Label.

(** [instance_properties] as [create_instances_request] calls it: [labels]
    is [dict(slurm_job_id=job_id)] or [None] *)
Definition request_instance_properties (nodeset : Nodeset) (model : string)
    (placement_group : option string) (labels : option Z) (job_id : option Z)
  : M InstanceProps :=
  instance_properties (nodeset_props nodeset) model placement_group
    (option_map (fun j => [("slurm_job_id", label_of_job j)]) labels) job_id.

End InstanceProperties.

(** a nodeset with a dense reservation that carries a policy, flexible
    capacity with the duration of the job, and no explicit properties *)
Module DemoProps.

Definition template_info (_ : string) : TemplateInfo string :=
  {| template_labels := [("env", "prod"); ("slurm_job_id", "none")];
     template_disks := [ {| diskType := Some "pd-ssd"; disk_labels := [("env", "prod")] |};
                         {| diskType := None; disk_labels := [] |} ] |}.

Definition nodeset : NodesetProps unit :=
  {| maintenance_interval := None;
     dws_flex := {| dws_enabled := true; max_run_duration := 3600; use_job_duration := true |};
     nodeset_instance_properties := None |}.

Definition reservation : Reservation :=
  {| bulk_insert_name := "projects/proj/reservations/res-1";
     deployment_type := Some "DENSE";
     reservation_policies := ["pol-a"] |}.

Definition nodeset_reservation (_ : NodesetProps unit) : option Reservation :=
  Some reservation.

(** job 7 has ninety seconds and a half left *)
Definition job_of (j : Z) : option Job :=
  if Z.eqb j 7 then Some {| job_duration := Some 90500000%Z |} else None.

Definition str_of_list (l : list string) : string := ("[" ++ join ", " l ++ "]")%string.

Definition props_update (props : InstanceProps string) (_ : unit) : InstanceProps string :=
  props.

Definition instance_properties :=
  instance_properties Demo.lookup template_info nodeset_reservation job_of
                      "googleapis.com" str_of_list props_update.

(** the properties as the request builder asks for them: every nodeset of
    the small cluster has the settings above *)
Definition request_instance_properties :=
  request_instance_properties Demo.lookup template_info nodeset_reservation job_of
                              "googleapis.com" str_of_list props_update
                              (fun _ => nodeset) str_of_Z.

End DemoProps.

(** ** Accelerator nodes and the dispatch of the chunks *)

(** the argument of [create_node]: one name, or the names of a multi-VM pod *)
Inductive NodeName :=
| OneNode (name : string)
| ManyNodes (names : list string).

(** Modelled from the spec: [util.TPU] is not part of this file. The
    provisioner can "look up an existing pod by name", "create it" and "start
    it", and a nodeset may be "configured to preserve accelerator pods across
    scale-down". [node_exists] says whether [get_node] answers a pod;
    [create_node] and [start_node] answer whether the call succeeded. *)
Record TPU := {
  preserve_tpu : bool;
  node_exists : string -> bool;
  create_node : NodeName -> bool;
  start_node : string -> bool
}.

(** the calls of [start_tpu] on the accelerator API, and its log lines *)
Inductive TpuEvent :=
| TpuGetNode (node : string)
| TpuCreateNode (nodename : NodeName)
| TpuStartNode (node : string)
| TpuLog (level : LogLevel) (msg : string).

(** [start_tpu] returns nothing; [node[0]] of an empty list raises *)
Inductive TpuResult :=
| TpuReturned
| TpuIndexError.

Definition start_tpu (tpu : TPU) (node : list string) : list TpuEvent * TpuResult :=
  match node with
  | [single] =>
      if node_exists tpu single then
        if preserve_tpu tpu then
          ([TpuGetNode single; TpuStartNode single]
             ++ (if start_node tpu single then []
                 else [TpuLog ERROR "Error starting tpu node {node}"]),
           TpuReturned)
        else
          ([TpuGetNode single;
            TpuLog INFO ("Tpu node " ++ single ++ " is already created, but will not start it because nodeset does not have preserve_tpu option active.")],
           TpuReturned)
      else
        ([TpuGetNode single; TpuCreateNode (OneNode single)]
           ++ (if create_node tpu (OneNode single) then []
               else [TpuLog ERROR "Error creating tpu node {node}"]),
         TpuReturned)
  | [] => ([], TpuIndexError)
  | _ =>
      ([TpuCreateNode (ManyNodes node)]
         ++ (if create_node tpu (ManyNodes node) then []
             else [TpuLog ERROR "Error creating tpu node {node}"]),
       TpuReturned)
  end.

(** the event is a call that creates or starts a pod *)
Definition is_mutation (e : TpuEvent) : bool :=
  match e with
  | TpuCreateNode _ | TpuStartNode _ => true
  | _ => false
  end.

(** [d.get(k)] *)
Definition dict_lookup {K} `{Hashable K} {V} (k : K) (d : dict K V) : option V :=
  option_map snd (find (fun kv => key_eqb k (fst kv)) d).

Section Dispatch.

Variable Props : Type.
Variable lookup : Lookup.
Variable instance_properties :
  Nodeset -> string -> option string -> option Z -> option Z -> M Props.
Variable pre_instance_bulk_insert :
  list string -> option string -> BulkBody Props -> BulkBody Props.
(** [util.TPU(nodeset)] *)
Variable make_tpu : Nodeset -> TPU.

(** [tpu_start_data], [tpu_objs] and [bi_inserts] of [resume_nodes] *)
Record Dispatch := {
  tpu_start_data : list (TPU * list string);
  tpu_objs : dict string TPU;
  bi_inserts : dict string (BulkInsertRequest Props)
}.

Definition no_dispatch : Dispatch :=
  {| tpu_start_data := []; tpu_objs := []; bi_inserts := [] |}.

(** how the loop can end early: [chunk.nodes[0]] of an empty list, a missing
    key of [tpu_objs], or an exception of [create_instances_request] *)
Inductive DispatchError :=
| DispatchIndexError
| DispatchKeyError
| DispatchRaised (e : Exn).

(** [chunk.partition and lookup().partition_is_tpu(chunk.partition)] *)
Definition on_tpu_path (chunk : BulkChunk) : bool :=
  truthy (partition chunk) &&
  match partition chunk with
  | Some p => partition_is_tpu lookup p
  | None => false
  end.

(** the body of the loop of [resume_nodes] over [grouped_nodes.items()] *)
Definition dispatch_chunk (st : Dispatch) (item : string * BulkChunk)
  : list Event * (DispatchError + Dispatch) :=
  let '(group, chunk) := item in
  if on_tpu_path chunk then
    let objs :=
      if negb (mem (prefix chunk) (keys (tpu_objs st))) then
        match nodes chunk with
        | model :: _ => inr (dict_set (prefix chunk) (make_tpu (node_nodeset lookup model))
                                      (tpu_objs st))
        | [] => inl DispatchIndexError
        end
      else inr (tpu_objs st) in
    match objs with
    | inl e => ([], inl e)
    | inr objs =>
        match dict_lookup (prefix chunk) objs with
        | Some tpu =>
            ([], inr {| tpu_start_data := tpu_start_data st ++ [(tpu, nodes chunk)];
                        tpu_objs := objs;
                        bi_inserts := bi_inserts st |})
        | None => ([], inl DispatchKeyError)
        end
    end
  else
    match create_instances_request lookup instance_properties pre_instance_bulk_insert
            (nodes chunk) (partition chunk) (placement_group chunk) (job_id chunk) with
    | (t, inr req) =>
        (t, inr {| tpu_start_data := tpu_start_data st;
                   tpu_objs := tpu_objs st;
                   bi_inserts := dict_set group req (bi_inserts st) |})
    | (t, inl e) => (t, inl (DispatchRaised e))
    end.

Fixpoint dispatch_chunks (items : dict string BulkChunk) (st : Dispatch)
  : list Event * (DispatchError + Dispatch) :=
  match items with
  | [] => ([], inr st)
  | item :: rest =>
      match dispatch_chunk st item with
      | (t, inr st') => let '(t', r) := dispatch_chunks rest st' in (t ++ t', r)
      | (t, inl e) => (t, inl e)
      end
  end.

End Dispatch.

Section DispatchNotions.

Variable lookup : Lookup.
Variable make_tpu : Nodeset -> TPU.

(** the accelerator object [tpu] was built for the first node of a chunk of
    [items] that takes the accelerator path and has the name prefix [pfx] *)
Definition tpu_built_for (items : dict string BulkChunk) (pfx : string) (tpu : TPU) : Prop :=
  exists g c model rest,
    In (g, c) items /\ on_tpu_path lookup c = true /\ prefix c = pfx /\
    nodes c = model :: rest /\ tpu = make_tpu (node_nodeset lookup model).

(** an entry of [tpu_start_data]: the nodes of a chunk of [items] on the
    accelerator path, with an object built for the chunk's prefix *)
Definition start_datum_ok (items : dict string BulkChunk) (datum : TPU * list string) : Prop :=
  exists g c,
    In (g, c) items /\ on_tpu_path lookup c = true /\ nodes c = snd datum /\
    tpu_built_for items (prefix c) (fst datum).

End DispatchNotions.

(** accelerator pods that do not exist yet and are created at the first call *)
Module DemoDispatch.

Definition make_tpu (_ : Nodeset) : TPU :=
  {| preserve_tpu := false;
     node_exists := fun _ => false;
     create_node := fun _ => true;
     start_node := fun _ => true |}.

(** a chunk of a job on the accelerator partition and a chunk without job *)
Definition chunks : dict string BulkChunk :=
  [ ("c-t:job9:0",
     {| nodes := ["c-t-0"; "c-t-1"]; prefix := "c-t"; chunk_idx := 0;
        job_id := Some 9%Z; partition := Some "tpu"; placement_group := None |});
    ("c-b:0",
     {| nodes := ["c-b-0"]; prefix := "c-b"; chunk_idx := 0;
        job_id := None; partition := None; placement_group := None |}) ].

Definition dispatch (items : dict string BulkChunk) :=
  dispatch_chunks Demo.lookup DemoRequest.instance_properties DemoRequest.no_plugin
                  make_tpu items (no_dispatch unit).

End DemoDispatch.

(** the provider refuses no request, unless for a policy that exists
    already: every answer is an operation, or error details that all give
    "alreadyExists" as their reason *)
Definition provider_accepts (provider : Provider) : Prop :=
  forall req,
    match ensure_execute provider req with
    | Started _ => True
    | Raised error_details => only_already_exists error_details
    end.

(** the small cluster with an accelerator nodeset whose VM groups hold one
    node more than a bulk insert takes, and that many accelerator nodes,
    [c-t-0] and onwards *)
Module DemoBig.

Definition lookup : Lookup :=
  {| slurm_cluster_name := slurm_cluster_name Demo.lookup;
     scontrol := scontrol Demo.lookup;
     project := project Demo.lookup;
     enable_slurm_gcp_plugins := enable_slurm_gcp_plugins Demo.lookup;
     node_prefix := node_prefix Demo.lookup;
     node_nodeset_name := node_nodeset_name Demo.lookup;
     node_nodeset := node_nodeset Demo.lookup;
     node_is_tpu := node_is_tpu Demo.lookup;
     node_region := node_region Demo.lookup;
     node_template := node_template Demo.lookup;
     node_machine_type := node_machine_type Demo.lookup;
     partition_is_tpu := partition_is_tpu Demo.lookup;
     partition_enable_job_exclusive := partition_enable_job_exclusive Demo.lookup;
     tpu_vmcount := fun _ => S BULK_INSERT_LIMIT |}.

Definition node (i : nat) : string := ("c-t-" ++ str_of_nat i)%string.

Definition nodes : list string := map node (seq 0 (S BULK_INSERT_LIMIT)).

End DemoBig.
(** * Properties *)

(** ** The effect monad *)

Lemma bind_ok {A B} (m : M A) (k : A -> M B) t b :
  bind m k = (t, inr b) ->
  exists t1 a t2, m = (t1, inr a) /\ k a = (t2, inr b) /\ t = t1 ++ t2.
Proof.
  unfold bind. destruct m as [t1 [e|a]]; [discriminate|].
  destruct (k a) as [t2 r] eqn:E. intros H. inversion H; subst.
  exists t1, a, t2. auto.
Qed.

Lemma bind_pair {A B} t (a : A) (k : A -> M B) : bind (t, inr a) k = prepend t (k a).
Proof. unfold bind, prepend. destruct (k a). reflexivity. Qed.

Lemma bind_raise {A B} t e (k : A -> M B) : bind (t, inl e) k = (t, inl e).
Proof. reflexivity. Qed.

Lemma prepend_pair {A} t t' (r : Exn + A) : prepend t (t', r) = (t ++ t', r).
Proof. reflexivity. Qed.

Lemma bind_run {A B} (m : M A) (k : A -> M B) t a :
  m = (t, inr a) -> bind m k = prepend t (k a).
Proof. intros ->. apply bind_pair. Qed.

Lemma bind_emit {B} e (k : unit -> M B) : bind (emit e) k = prepend [e] (k tt).
Proof. apply bind_pair. Qed.

Lemma bind_log {B} l s (k : unit -> M B) : bind (log l s) k = prepend [EvLog l s] (k tt).
Proof. apply bind_pair. Qed.

Lemma bind_raise_l {A B} e (k : A -> M B) : bind (raise e) k = raise e.
Proof. reflexivity. Qed.

Lemma prepend_nil {A} (m : M A) : prepend [] m = m.
Proof. destruct m. reflexivity. Qed.

Lemma prepend_prepend {A} t1 t2 (m : M A) : prepend t1 (prepend t2 m) = prepend (t1 ++ t2) m.
Proof. unfold prepend. cbn. rewrite app_assoc. reflexivity. Qed.

Lemma bind_ret_l {A B} (a : A) (k : A -> M B) : bind (ret a) k = k a.
Proof. unfold bind, ret. destruct (k a). reflexivity. Qed.

Ltac mstep :=
  repeat (rewrite ?bind_pair, ?bind_raise, ?bind_ret_l, ?bind_log, ?bind_emit, ?bind_raise_l;
          cbv beta).

Lemma bind_eq {A B} (m : M A) (k : A -> M B) t1 a t2 r :
  m = (t1, inr a) -> k a = (t2, r) -> bind m k = (t1 ++ t2, r).
Proof. intros -> H. unfold bind. rewrite H. reflexivity. Qed.

Lemma commands_app t1 t2 : commands (t1 ++ t2) = commands t1 ++ commands t2.
Proof. apply flat_map_app. Qed.

Lemma policy_requests_app t1 t2 :
  policy_requests (t1 ++ t2) = policy_requests t1 ++ policy_requests t2.
Proof. apply flat_map_app. Qed.

Lemma foldM_ok_inv {A B} (P : A -> Prop) (f : A -> B -> M A) l :
  (forall a x t a', In x l -> P a -> f a x = (t, inr a') -> P a') ->
  forall a t r, P a -> foldM f l a = (t, inr r) -> P r.
Proof.
  induction l as [|x l IH]; intros Hstep a t r Ha Hrun; simpl in Hrun.
  - inversion Hrun; subst; assumption.
  - apply bind_ok in Hrun as (t1 & a' & t2 & Hf & Hrest & _).
    eapply IH; [ | | exact Hrest ].
    + intros; eapply Hstep; eauto. right; assumption.
    + eapply Hstep; eauto. left; reflexivity.
Qed.

Lemma commands_map_run cs : commands (map EvRun cs) = cs.
Proof. induction cs as [|c cs IH]; [reflexivity|]. cbn. f_equal. exact IH. Qed.

(** ** Membership in sets of node names *)

Lemma mem_In x s : mem x s = true <-> In x s.
Proof.
  unfold mem. rewrite existsb_exists. split.
  - intros (y & Hy & E). apply String.eqb_eq in E. subst. assumption.
  - intros H. exists x. split; [assumption | apply String.eqb_refl].
Qed.

Lemma set_of_In x l : In x (set_of l) <-> In x l.
Proof. unfold set_of. apply nodup_In. Qed.

Lemma set_inter_In x a b : In x (set_inter a b) <-> In x a /\ In x b.
Proof. unfold set_inter. rewrite filter_In, mem_In. tauto. Qed.

Lemma set_diff_In x a b : In x (set_diff a b) <-> In x a /\ ~ In x b.
Proof.
  unfold set_diff. rewrite filter_In, negb_true_iff, <- not_true_iff_false, mem_In. tauto.
Qed.

(** ** Strings and decimal numerals *)

Lemma append_inv_head (a b c : string) : (a ++ b = a ++ c)%string -> b = c.
Proof. induction a as [|ch a IH]; cbn; intros E; [assumption|]. inversion E. auto. Qed.

Lemma has_char_append ch (a b : string) :
  has_char ch (a ++ b)%string = has_char ch a || has_char ch b.
Proof.
  induction a as [|c a IH]; cbn; [reflexivity|]. rewrite IH. apply orb_assoc.
Qed.

(** two strings that agree up to their first separator *)
Lemma append_sep_inv ch (a b x y : string) :
  has_char ch a = false -> has_char ch b = false ->
  (a ++ String ch x = b ++ String ch y)%string -> a = b /\ x = y.
Proof.
  revert b. induction a as [|c a IH]; intros [|d b]; cbn; intros Ha Hb E.
  - inversion E. auto.
  - inversion E; subst. rewrite Ascii.eqb_refl in Hb. discriminate.
  - inversion E; subst. rewrite Ascii.eqb_refl in Ha. discriminate.
  - apply orb_false_elim in Ha as [_ Ha], Hb as [_ Hb]. inversion E; subst.
    destruct (IH b Ha Hb) as [-> ->]; [assumption | auto].
Qed.

Lemma append_assoc (a b c : string) : ((a ++ b) ++ c = a ++ b ++ c)%string.
Proof. induction a as [|ch a IH]; cbn; [reflexivity|]. rewrite IH. reflexivity. Qed.

Lemma append_nil_r (a : string) : (a ++ "")%string = a.
Proof. induction a as [|ch a IH]; cbn; [reflexivity|]. rewrite IH. reflexivity. Qed.

Lemma prefix_append (a b : string) : String.prefix a (a ++ b) = true.
Proof.
  induction a as [|ch a IH]; cbn; [destruct b; reflexivity|].
  destruct (ascii_dec ch ch); [assumption | congruence].
Qed.

Lemma str_contains_middle (pre sub post : string) :
  str_contains sub (pre ++ sub ++ post) = true.
Proof.
  induction pre as [|ch pre IH]; cbn [String.append].
  - pose proof (prefix_append sub post) as Hp.
    destruct (sub ++ post)%string; cbn [str_contains]; rewrite Hp; reflexivity.
  - cbn [str_contains]. rewrite IH. apply orb_true_r.
Qed.

Lemma join_In sep x ls :
  In x ls -> exists pre post, join sep ls = (pre ++ x ++ post)%string.
Proof.
  unfold join. induction ls as [|y ls IH]; [intros []|]. intros [->|Hin].
  - destruct ls as [|z ls].
    + exists "", "". cbn. rewrite append_nil_r. reflexivity.
    + exists "", (sep ++ String.concat sep (z :: ls))%string. reflexivity.
  - destruct (IH Hin) as (pre & post & E). destruct ls as [|z ls]; [destruct Hin|].
    exists (y ++ sep ++ pre)%string, post.
    change (String.concat sep (y :: z :: ls))
      with (y ++ sep ++ String.concat sep (z :: ls))%string.
    rewrite E.
    rewrite !append_assoc. reflexivity.
Qed.

Lemma digits_no_colon d : has_char ":" (NilEmpty.string_of_uint d) = false.
Proof. induction d; cbn; auto. Qed.

Lemma uint_no_colon d : has_char ":" (NilZero.string_of_uint d) = false.
Proof. destruct d; try apply (digits_no_colon (_ d)); reflexivity. Qed.

Lemma str_of_nat_no_colon n : has_char ":" (str_of_nat n) = false.
Proof. apply uint_no_colon. Qed.

Lemma str_of_Z_no_colon z : has_char ":" (str_of_Z z) = false.
Proof.
  unfold str_of_Z. destruct (Z.to_int z); cbn; apply uint_no_colon.
Qed.

Lemma str_of_opt_Z_no_colon o : has_char ":" (str_of_opt_Z o) = false.
Proof. destruct o; [apply str_of_Z_no_colon | reflexivity]. Qed.

Lemma to_uint_nonnil n : Nat.to_uint n <> Decimal.Nil.
Proof.
  intros E. pose proof (DecimalNat.Unsigned.of_to n) as Hn. rewrite E in Hn.
  cbn in Hn. subst n. discriminate.
Qed.

Lemma str_of_nat_inj n m : str_of_nat n = str_of_nat m -> n = m.
Proof.
  unfold str_of_nat. intros E. apply DecimalNat.Unsigned.to_uint_inj.
  pose proof (NilZero.usu _ (to_uint_nonnil n)) as Hn.
  pose proof (NilZero.usu _ (to_uint_nonnil m)) as Hm.
  rewrite E in Hn. congruence.
Qed.

Lemma to_int_proper z :
  Z.to_int z <> Decimal.Pos Decimal.Nil /\ Z.to_int z <> Decimal.Neg Decimal.Nil.
Proof.
  destruct z as [|p|p]; cbn; split; try discriminate;
    intros E; inversion E as [E']; apply (DecimalPos.Unsigned.to_uint_nonnil _ E').
Qed.

Lemma int_of_str_of_Z z : NilZero.int_of_string (str_of_Z z) = Some (Z.to_int z).
Proof. destruct (to_int_proper z). apply NilZero.isi; assumption. Qed.

Lemma str_of_Z_inj x y : str_of_Z x = str_of_Z y -> x = y.
Proof.
  intros E. apply DecimalZ.to_int_inj.
  pose proof (int_of_str_of_Z x) as Hx. rewrite E, int_of_str_of_Z in Hx. congruence.
Qed.

Lemma str_of_Z_not_None z : str_of_Z z <> "None".
Proof.
  intros E. pose proof (int_of_str_of_Z z) as Hz. rewrite E in Hz. discriminate.
Qed.

Lemma str_of_opt_Z_inj a b : str_of_opt_Z a = str_of_opt_Z b -> a = b.
Proof.
  destruct a as [x|], b as [y|]; cbn; intros E.
  - f_equal. apply str_of_Z_inj. assumption.
  - destruct (str_of_Z_not_None _ E).
  - symmetry in E. destruct (str_of_Z_not_None _ E).
  - reflexivity.
Qed.

Lemma placement_group_name_inj cluster nodeset job i j :
  placement_group_name cluster nodeset job i = placement_group_name cluster nodeset job j ->
  i = j.
Proof.
  unfold placement_group_name. intros E.
  repeat (apply append_inv_head in E). apply str_of_nat_inj. assumption.
Qed.

Lemma placement_group_name_no_colon cluster nodeset job i :
  has_char ":" cluster = false -> has_char ":" nodeset = false ->
  has_char ":" (placement_group_name cluster nodeset job i) = false.
Proof.
  intros Hc Hn. unfold placement_group_name.
  rewrite !has_char_append, Hc, Hn, str_of_Z_no_colon, str_of_nat_no_colon. reflexivity.
Qed.

(** ** Group identifiers *)

Lemma group_name_spec_agree (c : BulkChunk) :
  job_id c <> None \/ placement_group c = None ->
  group_name c = spec_group_name c.
Proof.
  unfold group_name, spec_group_name.
  destruct (placement_group c) as [pg|], (job_id c) as [j|]; cbn [str_of_opt_Z]; intros H.
  - rewrite !append_assoc. reflexivity.
  - destruct H; congruence.
  - rewrite !append_assoc. reflexivity.
  - reflexivity.
Qed.

Lemma has_colon_middle (a b : string) : has_char ":" (a ++ String ":" b)%string = true.
Proof. rewrite has_char_append. cbn. apply orb_true_r. Qed.

Lemma group_name_split (c : BulkChunk) :
  group_name c = (prefix c ++ String ":" (name_tail c))%string.
Proof.
  unfold group_name, name_tail.
  destruct (placement_group c); [reflexivity|]. destruct (job_id c); reflexivity.
Qed.

Lemma name_tail_cases (c : BulkChunk) :
  (exists pg, placement_group c = Some pg /\
              name_tail c = String "j" (String "o" (String "b"
                              (str_of_opt_Z (job_id c)
                                 ++ String ":" (pg ++ String ":" (str_of_nat (chunk_idx c))))))%string) \/
  (placement_group c = None /\ job_id c <> None /\
   name_tail c = String "j" (String "o" (String "b"
                   (str_of_opt_Z (job_id c) ++ String ":" (str_of_nat (chunk_idx c)))))%string) \/
  (placement_group c = None /\ job_id c = None /\ name_tail c = str_of_nat (chunk_idx c)).
Proof.
  unfold name_tail. destruct (placement_group c) as [pg|].
  - left. exists pg. split; reflexivity.
  - destruct (job_id c) as [j|].
    + right. left. repeat split. discriminate.
    + right. right. repeat split.
Qed.

Lemma no_colon_neq (a b : string) :
  has_char ":" a = false -> has_char ":" b = true -> a <> b.
Proof. intros Ha Hb ->. congruence. Qed.

Lemma job_tail_has_colon (a b : string) :
  has_char ":" (String "j" (String "o" (String "b" (a ++ String ":" b)))) = true.
Proof. cbn. apply has_colon_middle. Qed.

Lemma group_name_inj (c1 c2 : BulkChunk) :
  well_named c1 -> well_named c2 ->
  group_name c1 = group_name c2 ->
  prefix c1 = prefix c2 /\ job_id c1 = job_id c2 /\
  placement_group c1 = placement_group c2 /\ chunk_idx c1 = chunk_idx c2.
Proof.
  intros [Hp1 Hpg1] [Hp2 Hpg2] E. rewrite !group_name_split in E.
  apply append_sep_inv in E as [Hpfx E]; [|assumption|assumption].
  split; [assumption|].
  destruct (name_tail_cases c1) as [(pg1 & P1 & T1)|[(P1 & J1 & T1)|(P1 & J1 & T1)]];
    destruct (name_tail_cases c2) as [(pg2 & P2 & T2)|[(P2 & J2 & T2)|(P2 & J2 & T2)]];
    rewrite T1, T2 in E.
  - injection E as E.
    apply append_sep_inv in E as [Hjob E]; [|apply str_of_opt_Z_no_colon..].
    apply append_sep_inv in E as [Hpg E]; [|auto..].
    apply str_of_opt_Z_inj in Hjob. apply str_of_nat_inj in E.
    repeat split; congruence.
  - injection E as E.
    apply append_sep_inv in E as [_ E]; [|apply str_of_opt_Z_no_colon..].
    exfalso. symmetry in E. revert E. apply no_colon_neq;
      [apply str_of_nat_no_colon | apply has_colon_middle].
  - exfalso. symmetry in E. revert E. apply no_colon_neq;
      [apply str_of_nat_no_colon | apply job_tail_has_colon].
  - injection E as E.
    apply append_sep_inv in E as [_ E]; [|apply str_of_opt_Z_no_colon..].
    exfalso. revert E. apply no_colon_neq;
      [apply str_of_nat_no_colon | apply has_colon_middle].
  - injection E as E.
    apply append_sep_inv in E as [Hjob E]; [|apply str_of_opt_Z_no_colon..].
    apply str_of_opt_Z_inj in Hjob. apply str_of_nat_inj in E.
    repeat split; congruence.
  - exfalso. symmetry in E. revert E. apply no_colon_neq;
      [apply str_of_nat_no_colon | apply job_tail_has_colon].
  - exfalso. revert E. apply no_colon_neq;
      [apply str_of_nat_no_colon | apply job_tail_has_colon].
  - exfalso. revert E. apply no_colon_neq;
      [apply str_of_nat_no_colon | apply job_tail_has_colon].
  - apply str_of_nat_inj in E. repeat split; congruence.
Qed.

(** ** Lists without duplicates *)

Lemma NoDup_map_inj {A B} (f : A -> B) l :
  (forall x y, In x l -> In y l -> f x = f y -> x = y) -> NoDup l -> NoDup (map f l).
Proof.
  induction l as [|a l IH]; intros Hinj Hnd; cbn; [constructor|].
  inversion Hnd as [|? ? Hnin Hnd']; subst. constructor.
  - intros Hin. apply in_map_iff in Hin as (b & Hb & Hbl).
    apply Hnin. rewrite (Hinj a b); [assumption | left; reflexivity | right; assumption | auto].
  - apply IH; [|assumption]. intros x y Hx Hy. apply Hinj; right; assumption.
Qed.

Lemma NoDup_flat_map_names {A B C} (name : B -> C) (g : A -> list B) (l : list A) :
  (forall a, In a l -> NoDup (map name (g a))) ->
  ForallOrdPairs (fun a1 a2 => forall b1 b2, In b1 (g a1) -> In b2 (g a2) ->
                                             name b1 <> name b2) l ->
  NoDup (map name (flat_map g l)).
Proof.
  induction l as [|a l IH]; intros Heach Hpairs; cbn; [constructor|].
  inversion Hpairs as [|? ? Hhead Htail]; subst.
  rewrite map_app. apply NoDup_app.
  - apply Heach. left. reflexivity.
  - apply IH; [|assumption]. intros a' Ha'. apply Heach. right. assumption.
  - intros x Hx1 Hx2.
    apply in_map_iff in Hx1 as (b1 & <- & Hb1).
    apply in_map_iff in Hx2 as (b2 & E & Hb2).
    apply in_flat_map in Hb2 as (a2 & Ha2 & Hb2).
    rewrite Forall_forall in Hhead. apply (Hhead a2 Ha2 b1 b2 Hb1 Hb2). congruence.
Qed.

Lemma ForallOrdPairs_by_key {A K} (key : A -> K) (R : A -> A -> Prop) l :
  NoDup (map key l) ->
  (forall a1 a2, In a1 l -> In a2 l -> key a1 <> key a2 -> R a1 a2) ->
  ForallOrdPairs R l.
Proof.
  induction l as [|a l IH]; intros Hnd HR; [constructor|].
  cbn in Hnd. inversion Hnd as [|? ? Hnin Hnd']; subst. constructor.
  - apply Forall_forall. intros b Hb. apply HR; [left; reflexivity | right; assumption|].
    intros E. apply Hnin. rewrite E. apply in_map. assumption.
  - apply IH; [assumption|]. intros a1 a2 H1 H2. apply HR; right; assumption.
Qed.

Lemma flat_map_map {A B C} (f : B -> list C) (g : A -> B) l :
  flat_map f (map g l) = flat_map (fun a => f (g a)) l.
Proof. induction l as [|a l IH]; cbn; [reflexivity|]. rewrite IH. reflexivity. Qed.

(** ** Dictionaries *)

Section DictFacts.

Context {K : Type} `{Hashable K} {V : Type}.

Lemma key_eqb_refl (k : K) : key_eqb k k = true.
Proof. destruct (key_eqb_spec k k); congruence. Qed.

Lemma dict_set_keys (k : K) (v : V) d :
  keys (dict_set k v d) = if existsb (key_eqb k) (keys d) then keys d else keys d ++ [k].
Proof.
  induction d as [|[k' v'] d IH]; [reflexivity|]. cbn.
  destruct (key_eqb_spec k k') as [->|Hne]; [reflexivity|].
  cbn. unfold keys in IH. rewrite IH. destruct (existsb _ _); reflexivity.
Qed.

Lemma existsb_key_In (k : K) l : existsb (key_eqb k) l = true <-> In k l.
Proof.
  rewrite existsb_exists. split.
  - intros (y & Hy & E). destruct (key_eqb_spec k y); congruence.
  - intros Hin. exists k. split; [assumption | apply key_eqb_refl].
Qed.

Lemma dict_set_In_keys (k k0 : K) (v0 : V) d :
  In k (keys (dict_set k0 v0 d)) <-> k = k0 \/ In k (keys d).
Proof.
  rewrite dict_set_keys. destruct (existsb (key_eqb k0) (keys d)) eqn:E.
  - apply existsb_key_In in E. split; [tauto | intros [->|]; assumption].
  - rewrite in_app_iff. cbn. intuition congruence.
Qed.

Lemma dict_set_NoDup (k : K) (v : V) d : NoDup (keys d) -> NoDup (keys (dict_set k v d)).
Proof.
  intros Hnd. rewrite dict_set_keys. destruct (existsb (key_eqb k) (keys d)) eqn:E; [assumption|].
  apply NoDup_app_remove_l with (l := []). cbn.
  apply Permutation_NoDup with (l := k :: keys d).
  - apply Permutation_cons_append.
  - constructor; [|assumption]. intros Hin. apply existsb_key_In in Hin. congruence.
Qed.

Lemma dict_set_In_inv (k k0 : K) (v v0 : V) d :
  In (k, v) (dict_set k0 v0 d) -> (k = k0 /\ v = v0) \/ In (k, v) d.
Proof.
  induction d as [|[k' v'] d IH]; cbn.
  - intros [E|[]]. inversion E. auto.
  - destruct (key_eqb_spec k0 k') as [->|Hne]; cbn.
    + intros [E|Hin]; [inversion E; auto | auto].
    + intros [E|Hin]; [auto|]. destruct (IH Hin); auto.
Qed.

Lemma dict_set_In_new (k0 : K) (v0 : V) d : In (k0, v0) (dict_set k0 v0 d).
Proof.
  induction d as [|[k' v'] d IH]; cbn; [auto|].
  destruct (key_eqb_spec k0 k') as [->|Hne]; cbn; auto.
Qed.

Lemma dict_set_In_old (k k0 : K) (v v0 : V) d :
  k <> k0 -> In (k, v) d -> In (k, v) (dict_set k0 v0 d).
Proof.
  intros Hne. induction d as [|[k' v'] d IH]; cbn; [tauto|].
  destruct (key_eqb_spec k0 k') as [->|Hne']; cbn.
  - intros [E|Hin]; [inversion E; congruence | auto].
  - intros [E|Hin]; auto.
Qed.

Lemma dict_set_fresh (k : K) (v : V) d : ~ In k (keys d) -> dict_set k v d = d ++ [(k, v)].
Proof.
  induction d as [|[k' v'] d IH]; cbn; [reflexivity|]. intros Hnin.
  destruct (key_eqb_spec k k') as [->|Hne]; [tauto|]. rewrite IH; tauto.
Qed.

Lemma keys_functional (d : dict K V) k v v' :
  NoDup (keys d) -> In (k, v) d -> In (k, v') d -> v = v'.
Proof.
  induction d as [|[k' w] d IH]; cbn; [tauto|]. intros Hnd H1 H2.
  inversion Hnd as [|? ? Hnin Hnd']; subst.
  assert (Hk : forall u, In (k', u) d -> False).
  { intros u Hu. apply Hnin. change k' with (fst (k', u)). apply in_map. assumption. }
  destruct H1 as [E1|H1], H2 as [E2|H2].
  - congruence.
  - inversion E1; subst. destruct (Hk _ H2).
  - inversion E2; subst. destruct (Hk _ H1).
  - auto.
Qed.

Lemma dict_update_In_inv (d : dict K V) items kv :
  In kv (dict_update d items) -> In kv d \/ In kv items.
Proof.
  unfold dict_update. revert d. induction items as [|[k0 v0] items IH]; cbn; [auto|].
  intros d Hin. destruct (IH _ Hin) as [Hd|Hi]; [|auto].
  destruct kv as [k v]. apply dict_set_In_inv in Hd as [[-> ->]|Hd]; auto.
Qed.

Lemma dict_update_NoDup (d : dict K V) items :
  NoDup (keys d) -> NoDup (keys (dict_update d items)).
Proof.
  unfold dict_update. revert d. induction items as [|[k0 v0] items IH]; cbn; [auto|].
  intros d Hnd. apply IH. apply dict_set_NoDup. assumption.
Qed.

Lemma dict_update_fresh (d : dict K V) items :
  NoDup (keys d ++ keys items) -> dict_update d items = d ++ items.
Proof.
  unfold dict_update. revert d. induction items as [|[k0 v0] items IH]; cbn; intros d Hnd.
  - rewrite app_nil_r. reflexivity.
  - assert (Hnin : ~ In k0 (keys d)).
    { intros Hin. apply NoDup_remove_2 in Hnd. apply Hnd. apply in_or_app. auto. }
    rewrite dict_set_fresh by assumption. rewrite IH.
    + rewrite <- app_assoc. reflexivity.
    + unfold keys in *. rewrite map_app. cbn. rewrite <- app_assoc. cbn.
      apply NoDup_remove_1 in Hnd as Hnd1.
      apply Permutation_NoDup with (l := k0 :: map fst d ++ map fst items).
      * apply Permutation_middle.
      * constructor; [|assumption]. apply NoDup_remove_2 in Hnd. assumption.
Qed.

Lemma dict_update_In_keys (d : dict K V) items k :
  In k (keys (dict_update d items)) <-> In k (keys d) \/ In k (keys items).
Proof.
  unfold dict_update. revert d.
  induction items as [|[k0 v0] items IH]; cbn [fold_left fst snd]; intros d.
  - cbn. tauto.
  - rewrite IH, dict_set_In_keys. cbn. intuition congruence.
Qed.

Lemma dict_of_items_In_keys (items : list (K * V)) k :
  In k (keys (dict_of_items items)) <-> In k (keys items).
Proof. unfold dict_of_items. rewrite dict_update_In_keys. cbn. tauto. Qed.

Lemma dict_of_items_NoDup (items : list (K * V)) : NoDup (keys (dict_of_items items)).
Proof. apply dict_update_NoDup. constructor. Qed.

Lemma dict_of_items_fresh (items : list (K * V)) :
  NoDup (keys items) -> dict_of_items items = items.
Proof. intros Hnd. unfold dict_of_items. rewrite dict_update_fresh; auto. Qed.

Lemma dict_of_items_In_inv (items : list (K * V)) kv :
  In kv (dict_of_items items) -> In kv items.
Proof. intros Hin. apply dict_update_In_inv in Hin as [[]|]; assumption. Qed.

End DictFacts.

Lemma filter_none {A} (f : A -> bool) l :
  (forall x, In x l -> f x = false) -> filter f l = [].
Proof.
  induction l as [|x l IH]; [reflexivity|]. intros Hf. cbn.
  rewrite (Hf x) by (left; reflexivity). apply IH. intros y Hy. apply Hf. right. assumption.
Qed.

(** ** Grouping by key *)

Section GroupbyFacts.

Context {A K : Type} `{Hashable K}.
Variable key : A -> K.

Lemma dict_append_keys (k : K) (x : A) d :
  keys (dict_append k x d) = if existsb (key_eqb k) (keys d) then keys d else keys d ++ [k].
Proof.
  induction d as [|[k' xs] d IH]; [reflexivity|]. cbn.
  destruct (key_eqb_spec k k') as [->|Hne]; [reflexivity|].
  cbn. unfold keys in IH. rewrite IH. destruct (existsb _ _); reflexivity.
Qed.

Lemma dict_append_NoDup (k : K) (x : A) d :
  NoDup (keys d) -> NoDup (keys (dict_append k x d)).
Proof.
  intros Hnd. rewrite dict_append_keys.
  destruct (existsb (key_eqb k) (keys d)) eqn:E; [assumption|].
  apply Permutation_NoDup with (l := k :: keys d).
  - apply Permutation_cons_append.
  - constructor; [|assumption]. intros Hin. apply existsb_key_In in Hin. congruence.
Qed.

Lemma dict_append_In_inv (k k0 : K) (x : A) xs d :
  NoDup (keys d) ->
  In (k, xs) (dict_append k0 x d) ->
  (k <> k0 /\ In (k, xs) d) \/
  (k = k0 /\ exists xs0, xs = xs0 ++ [x] /\
                         (In (k0, xs0) d \/ (xs0 = [] /\ ~ In k0 (keys d)))).
Proof.
  induction d as [|[k' ys] d IH]; cbn; intros Hnd Hin.
  - destruct Hin as [E|[]]. inversion E; subst. right. split; [reflexivity|].
    exists []. split; [reflexivity|]. right. split; [reflexivity | tauto].
  - inversion Hnd as [|? ? Hnin Hnd']; subst.
    destruct (key_eqb_spec k0 k') as [->|Hne]; cbn in Hin.
    + destruct Hin as [E|Hin].
      * inversion E; subst. right. split; [reflexivity|]. exists ys. auto.
      * left. split; [|auto]. intros ->. apply Hnin.
        change k' with (fst (k', xs)). apply in_map. assumption.
    + destruct Hin as [E|Hin].
      * inversion E; subst. left. split; [congruence | auto].
      * destruct (IH Hnd' Hin) as [[Hk Hd]|[Hk (xs0 & Hxs & Hcase)]]; [left; auto|].
        right. split; [assumption|]. exists xs0. split; [assumption|].
        destruct Hcase as [Hd|[Hnil Hnk]]; [auto|].
        right. split; [assumption|]. intros [E|Hk0]; [congruence | tauto].
Qed.

Lemma groupby_inv_step p d x :
  groupby_inv key p d -> groupby_inv key (p ++ [x]) (dict_append (key x) x d).
Proof.
  intros (Hnd & Hgroups & Hcover). repeat split.
  - apply dict_append_NoDup. assumption.
  - apply dict_append_In_inv in H0 as [[Hk Hd]|[Hk (xs0 & Hxs & Hcase)]]; [| |assumption].
    + destruct (Hgroups _ _ Hd) as [-> _]. unfold group_of. rewrite filter_app. cbn.
      destruct (key_eqb_spec (key x) k); [congruence|]. rewrite app_nil_r. reflexivity.
    + subst. unfold group_of. rewrite filter_app. cbn. rewrite key_eqb_refl. f_equal.
      destruct Hcase as [Hd|[-> Hnk]]; [apply Hgroups; assumption|].
      symmetry. apply filter_none. intros y Hy.
      destruct (key_eqb_spec (key y) (key x)) as [E|_]; [|reflexivity].
      exfalso. apply Hnk. rewrite <- E. apply Hcover. assumption.
  - apply dict_append_In_inv in H0 as [[Hk Hd]|[Hk (xs0 & Hxs & Hcase)]]; [| |assumption].
    + apply Hgroups in Hd. tauto.
    + subst. destruct xs0; discriminate.
  - intros y Hy. rewrite dict_append_keys.
    assert (Hgoal : In (key y) (keys d) \/ key y = key x).
    { apply in_app_or in Hy as [Hy|Hy]; [auto|]. destruct Hy as [<-|Hy]; [auto | destruct Hy]. }
    destruct (existsb (key_eqb (key x)) (keys d)) eqn:E.
    + apply existsb_key_In in E. destruct Hgoal as [ ? | -> ]; assumption.
    + apply in_or_app. destruct Hgoal as [ ? | -> ]; [auto | right; left; reflexivity].
Qed.

Lemma groupby_inv_fold seq : forall p d,
  groupby_inv key p d ->
  groupby_inv key (p ++ seq) (fold_left (fun indices el => dict_append (key el) el indices) seq d).
Proof.
  induction seq as [|x seq IH]; intros p d Hinv; cbn.
  - rewrite app_nil_r. assumption.
  - replace (p ++ x :: seq) with ((p ++ [x]) ++ seq) by (rewrite <- app_assoc; reflexivity).
    apply IH. apply groupby_inv_step. assumption.
Qed.

Lemma groupby_unsorted_inv seq : groupby_inv key seq (groupby_unsorted seq key).
Proof.
  unfold groupby_unsorted. apply groupby_inv_fold with (p := []).
  repeat split; try constructor; intros; contradiction.
Qed.

Lemma groupby_unsorted_NoDup seq : NoDup (keys (groupby_unsorted seq key)).
Proof. apply groupby_unsorted_inv. Qed.

Lemma groupby_unsorted_group seq k xs :
  In (k, xs) (groupby_unsorted seq key) -> xs = group_of key seq k /\ xs <> [].
Proof. apply groupby_unsorted_inv. Qed.

Lemma groupby_unsorted_member seq k xs x :
  In (k, xs) (groupby_unsorted seq key) -> In x xs -> In x seq /\ key x = k.
Proof.
  intros Hg Hx. apply groupby_unsorted_group in Hg as [-> _].
  apply filter_In in Hx as [Hin E]. split; [assumption|].
  destruct (key_eqb_spec (key x) k); congruence.
Qed.

Lemma groupby_unsorted_length seq k xs :
  In (k, xs) (groupby_unsorted seq key) -> List.length xs <= List.length seq.
Proof.
  intros Hg. apply groupby_unsorted_group in Hg as [-> _]. apply filter_length_le.
Qed.

Lemma groupby_unsorted_covers seq x :
  In x seq -> exists xs, In (key x, xs) (groupby_unsorted seq key) /\ In x xs.
Proof.
  intros Hx. destruct (groupby_unsorted_inv seq) as (_ & Hgroups & Hcover).
  specialize (Hcover _ Hx). apply in_map_iff in Hcover as ([k xs] & Hk & Hin).
  cbn in Hk. subst k. exists xs. split; [assumption|].
  destruct (Hgroups _ _ Hin) as [-> _]. apply filter_In. split; [assumption|].
  apply key_eqb_refl.
Qed.

End GroupbyFacts.

(** ** Slicing and numbering *)

Lemma chunked_from_In {A} fuel n (l c : list A) :
  In c (chunked_from fuel n l) ->
  c <> [] /\ List.length c <= n /\ List.length c <= List.length l /\
  (forall x, In x c -> In x l).
Proof.
  revert l. induction fuel as [|fuel IH]; intros l; cbn; [intros []|].
  destruct (firstn n l) as [|x chunk] eqn:E; [intros []|].
  intros [<- | Hin].
  - rewrite <- E. repeat split.
    + rewrite E. discriminate.
    + apply firstn_le_length.
    + rewrite length_firstn. lia.
    + intros y Hy. rewrite <- (firstn_skipn n l). apply in_or_app. auto.
  - destruct (IH _ Hin) as (Hne & Hn & Hlen & Hsub). repeat split; try assumption.
    + rewrite length_skipn in Hlen. lia.
    + intros y Hy. rewrite <- (firstn_skipn n l). apply in_or_app. auto.
Qed.

Lemma chunked_In {A} n (l c : list A) :
  In c (chunked n l) ->
  c <> [] /\ List.length c <= n /\ List.length c <= List.length l /\
  (forall x, In x c -> In x l).
Proof. apply chunked_from_In. Qed.

(** the fuel of [chunked] is enough: no element is left out *)
Lemma chunked_from_concat {A} fuel n (l : list A) :
  0 < n -> List.length l <= fuel -> concat (chunked_from fuel n l) = l.
Proof.
  intros Hn. revert l. induction fuel as [|fuel IH]; intros l Hlen; cbn.
  - destruct l; [reflexivity | cbn in Hlen; lia].
  - destruct (firstn n l) as [|x chunk] eqn:E.
    + destruct l as [|y l]; [reflexivity|]. destruct n; [lia | cbn in E; discriminate].
    + cbn [concat]. rewrite IH.
      * rewrite <- E. apply firstn_skipn.
      * rewrite length_skipn. destruct l; [rewrite firstn_nil in E; discriminate|].
        cbn [List.length] in *. lia.
Qed.

Lemma chunked_concat {A} n (l : list A) : 0 < n -> concat (chunked n l) = l.
Proof. intros Hn. apply chunked_from_concat; [assumption | lia]. Qed.

Lemma combine_seq_fst {A} (l : list A) start :
  map fst (combine (seq start (List.length l)) l) = seq start (List.length l).
Proof.
  revert start. induction l as [|x l IH]; intros start; cbn; [reflexivity|].
  f_equal. apply IH.
Qed.

Lemma combine_seq_snd {A} (l : list A) start :
  map snd (combine (seq start (List.length l)) l) = l.
Proof.
  revert start. induction l as [|x l IH]; intros start; cbn; [reflexivity|].
  f_equal. apply IH.
Qed.

Lemma enumerate_fst {A} (l : list A) : map fst (enumerate l) = seq 0 (List.length l).
Proof. apply combine_seq_fst. Qed.

Lemma enumerate_snd {A} (l : list A) : map snd (enumerate l) = l.
Proof. apply combine_seq_snd. Qed.

Lemma enumerate_In {A} (l : list A) i x : In (i, x) (enumerate l) -> In x l.
Proof.
  intros Hin. rewrite <- (enumerate_snd l). change x with (snd (i, x)).
  apply in_map. assumption.
Qed.

Lemma enumerate_NoDup {A} (l : list A) : NoDup (map fst (enumerate l)).
Proof. rewrite enumerate_fst. apply seq_NoDup. Qed.

(** ** Quarantine *)

Section QuarantineFacts.

Variable lookup : Lookup.
Variable to_hostlist_fast : list string -> string.
Variable shlex_quote : string -> string.

Lemma job_uses_intersects nodes job :
  job_uses (set_of nodes) job = allocation_intersects nodes job.
Proof.
  unfold job_uses, allocation_intersects.
  destruct (existsb (fun n => mem n nodes) (rj_nodes_alloc job)) eqn:E.
  - apply existsb_exists in E as (n & Hn & Hm). apply mem_In in Hm.
    assert (Hin : In n (set_inter (set_of (rj_nodes_alloc job)) (set_of nodes))).
    { apply set_inter_In. split; apply set_of_In; assumption. }
    destruct (set_inter (set_of (rj_nodes_alloc job)) (set_of nodes)); [destruct Hin | reflexivity].
  - destruct (set_inter (set_of (rj_nodes_alloc job)) (set_of nodes)) as [|n l] eqn:El;
      [reflexivity | exfalso].
    assert (Hin : In n (set_inter (set_of (rj_nodes_alloc job)) (set_of nodes)))
      by (rewrite El; left; reflexivity).
    apply set_inter_In in Hin as [H1 H2]. rewrite set_of_In in H1, H2.
    assert (existsb (fun n => mem n nodes) (rj_nodes_alloc job) = true).
    { apply existsb_exists. exists n. split; [assumption | apply mem_In; assumption]. }
    congruence.
Qed.

Lemma notify_loop_commands nodes rq l :
  forM_ (fun job =>
           if negb (job_uses (set_of nodes) job) then ret tt else
           (run (comment_command lookup (rj_job_id job) rq) ;;
            run (notify_command lookup (rj_job_id job) rq))%monad) l
  = (map EvRun
       (flat_map (fun job => [comment_command lookup (rj_job_id job) rq;
                              notify_command lookup (rj_job_id job) rq])
                 (filter (allocation_intersects nodes) l)),
     inr tt).
Proof.
  induction l as [|job l IH]; [reflexivity|].
  cbn [forM_ filter]. rewrite IH, job_uses_intersects.
  destruct (allocation_intersects nodes job); reflexivity.
Qed.

Lemma down_nodes_notify_jobs_run nodes reason resume_data :
  exists t,
    down_nodes_notify_jobs lookup to_hostlist_fast shlex_quote nodes reason resume_data
      = (t, inr tt) /\
    commands t = quarantine_commands lookup to_hostlist_fast shlex_quote
                                     nodes reason resume_data.
Proof.
  unfold down_nodes_notify_jobs, quarantine_commands. destruct resume_data as [rd|].
  - rewrite notify_loop_commands. unfold run. mstep. rewrite prepend_prepend, prepend_pair.
    eexists. split; [reflexivity|]. rewrite !commands_app, commands_map_run. reflexivity.
  - eexists. split; reflexivity.
Qed.

(** C8. The quarantine routine issues the mark-down command exactly once, first,
    over the host-range of the whole node set. Without resume data that is the
    only command. With resume data it is followed by a comment update and a
    notification for each job whose allocation meets the node set, and for no
    other job. The routine never raises. *)
Theorem C8_down_nodes_notify_jobs_commands nodes reason resume_data :
  let result := down_nodes_notify_jobs lookup to_hostlist_fast shlex_quote
                                       nodes reason resume_data in
  snd result = inr tt /\
  commands (fst result) =
    down_command lookup (to_hostlist_fast nodes) (shlex_quote reason) ::
    match resume_data with
    | None => []
    | Some rd =>
        flat_map (fun job => [comment_command lookup (rj_job_id job) (shlex_quote reason);
                              notify_command lookup (rj_job_id job) (shlex_quote reason)])
                 (filter (allocation_intersects nodes) (jobs rd))
    end.
Proof.
  destruct (down_nodes_notify_jobs_run nodes reason resume_data) as (t & Hrun & Hcmd).
  cbn zeta. rewrite Hrun. cbn [fst snd]. split; [reflexivity | exact Hcmd].
Qed.

Variable to_hostlist : list string -> string.
Variable trim_self_link : string -> string.

Lemma error_text_contains errs err :
  In err errs -> str_contains (err_code err) (bucket_reason {| op_name := ""; op_target := "";
                                                               op_error := Some errs |}) = true.
Proof.
  intros Hin. unfold bucket_reason, error_text, op_errors. cbn [op_error].
  destruct (join_In "; " _ _ (in_map (fun e =>
              (err_code e ++ ": " ++
               match err_message e with Some m => m | None => "no message" end)%string)
            errs err Hin)) as (pre & post & ->).
  rewrite (append_assoc (err_code err)), <- (append_assoc "GCP Error: " pre).
  apply str_contains_middle.
Qed.

Lemma bucket_reason_contains failed_op err :
  In err (op_errors failed_op) ->
  str_contains (err_code err) (bucket_reason failed_op) = true.
Proof.
  intros Hin. unfold op_errors in Hin. destruct failed_op as [name target [errs|]]; cbn in Hin.
  - apply (error_text_contains errs err Hin).
  - destruct Hin.
Qed.

Lemma failed_nodes_of_nonempty failed_ops :
  failed_ops <> [] -> failed_nodes_of trim_self_link failed_ops <> [].
Proof.
  destruct failed_ops as [|op rest]; [congruence|]. intros _ E.
  assert (Hk : In (trim_self_link (op_target op))
                  (keys (failed_nodes_of trim_self_link (op :: rest)))).
  { unfold failed_nodes_of. apply dict_of_items_In_keys. left. reflexivity. }
  rewrite E in Hk. destruct Hk.
Qed.

Lemma reconcile_bucket_run group_id resume_data code failed_ops :
  failed_ops <> [] ->
  exists t,
    reconcile_bucket lookup to_hostlist_fast to_hostlist shlex_quote trim_self_link
                     group_id resume_data (code, failed_ops)
      = (EvLog ERROR (failure_log to_hostlist trim_self_link group_id (code, failed_ops)) :: t,
         inr tt) /\
    commands t = bucket_commands lookup to_hostlist_fast shlex_quote trim_self_link
                                 resume_data (code, failed_ops).
Proof.
  intros Hne. apply failed_nodes_of_nonempty in Hne.
  unfold reconcile_bucket, bucket_commands.
  destruct (failed_nodes_of trim_self_link failed_ops) as [|[node op] rest] eqn:E;
    [congruence|].
  destruct (down_nodes_notify_jobs_run (keys ((node, op) :: rest)) (bucket_reason op)
              resume_data) as (t & Hrun & Hcmd).
  destruct (String.eqb code "RESOURCE_ALREADY_EXISTS"); unfold when; cbn [negb]; mstep.
  - unfold log, emit. rewrite prepend_pair. eexists. split; reflexivity.
  - rewrite (bind_run _ Hrun). unfold log, emit. rewrite prepend_prepend, prepend_pair.
    cbn [app]. eexists. split; [reflexivity|]. rewrite !commands_app, Hcmd. cbn.
    rewrite app_nil_r. reflexivity.
Qed.

Lemma reconcile_buckets_run group_id resume_data buckets :
  (forall code failed_ops, In (code, failed_ops) buckets -> failed_ops <> []) ->
  exists t,
    forM_ (reconcile_bucket lookup to_hostlist_fast to_hostlist shlex_quote trim_self_link
                            group_id resume_data) buckets = (t, inr tt) /\
    commands t = flat_map (bucket_commands lookup to_hostlist_fast shlex_quote trim_self_link
                                           resume_data) buckets /\
    forall bucket, In bucket buckets ->
      In (EvLog ERROR (failure_log to_hostlist trim_self_link group_id bucket)) t.
Proof.
  induction buckets as [|[code failed_ops] buckets IH]; intros Hne.
  - exists []. repeat split. intros bucket [].
  - destruct IH as (t & Hrun & Hcmd & Hlog).
    { intros c f Hin. apply (Hne c f). right. assumption. }
    destruct (reconcile_bucket_run group_id resume_data code (Hne _ _ (or_introl eq_refl)))
      as (tb & Hb & Hcb).
    cbn [forM_ flat_map]. rewrite (bind_run _ Hb), Hrun, prepend_pair.
    eexists. split; [reflexivity|]. split.
    + cbn [app]. change (commands (?e :: ?l)) with (commands l).
      rewrite commands_app, Hcb, Hcmd. reflexivity.
    + intros bucket [<-|Hin]; [left; reflexivity|].
      right. apply in_or_app. right. apply Hlog. assumption.
Qed.

(** C4 (amended). Reconciling the per-instance insert operations of a completed
    bulk operation never raises and returns the inserts without error. The
    failed inserts are grouped by their error codes joined with "+". The
    mark-down, job-comment and notification commands issued are, bucket after
    bucket: none for the bucket whose code is exactly
    "RESOURCE_ALREADY_EXISTS", and for every other bucket one quarantine of
    all the nodes of the bucket (a single mark-down command, then the job
    comments and notifications). The reason of that quarantine is built from
    the first entry of the bucket's failed nodes, an entry of the bucket: it
    contains every error code of that entry, hence the bucket's code when
    that entry reports a single error. Every bucket, the
    "RESOURCE_ALREADY_EXISTS" one included, is logged as an error. *)
Theorem C4_reconcile_inserts_quarantine group_id insert_operations resume_data :
  let result := reconcile_inserts lookup to_hostlist_fast to_hostlist shlex_quote
                                  trim_self_link group_id insert_operations resume_data in
  let buckets := groupby_unsorted (filter has_error insert_operations) joined_code in
  let owed := bucket_commands lookup to_hostlist_fast shlex_quote trim_self_link resume_data in
  snd result = inr (filter (fun op => negb (has_error op)) insert_operations) /\
  commands (fst result) = flat_map owed buckets /\
  forall code failed_ops,
    In (code, failed_ops) buckets ->
    In (EvLog ERROR (failure_log to_hostlist trim_self_link group_id (code, failed_ops)))
       (fst result) /\
    (forall op, In op failed_ops <->
                In op insert_operations /\ has_error op = true /\ joined_code op = code) /\
    (code = "RESOURCE_ALREADY_EXISTS" -> owed (code, failed_ops) = []) /\
    (code <> "RESOURCE_ALREADY_EXISTS" ->
     exists failed_node failed_op rest,
       failed_nodes_of trim_self_link failed_ops = (failed_node, failed_op) :: rest /\
       In failed_op failed_ops /\
       owed (code, failed_ops)
         = quarantine_commands lookup to_hostlist_fast shlex_quote
             (keys (failed_nodes_of trim_self_link failed_ops))
             (bucket_reason failed_op) resume_data /\
       (forall op, In op failed_ops ->
                   In (trim_self_link (op_target op))
                      (keys (failed_nodes_of trim_self_link failed_ops))) /\
       (forall err, In err (op_errors failed_op) ->
                    str_contains (err_code err) (bucket_reason failed_op) = true) /\
       (forall err, op_errors failed_op = [err] ->
                    str_contains code (bucket_reason failed_op) = true)).
Proof.
  cbn zeta. unfold reconcile_inserts, separate.
  destruct (reconcile_buckets_run group_id resume_data
              (groupby_unsorted (filter has_error insert_operations) joined_code))
    as (t & Hrun & Hcmd & Hlog).
  { intros code failed_ops Hin. apply groupby_unsorted_group in Hin. tauto. }
  rewrite (bind_run _ Hrun).
  split; [|split].
  - destruct (Nat.ltb 0 _); unfold when; mstep; reflexivity.
  - destruct (Nat.ltb 0 _); unfold when; mstep; unfold log, emit, ret;
      rewrite ?prepend_prepend, ?prepend_pair; cbn [fst];
      rewrite ?commands_app, Hcmd; cbn; rewrite ?app_nil_r; reflexivity.
  - intros code failed_ops Hin.
    pose proof (groupby_unsorted_group _ _ _ _ Hin) as [Hgroup Hne].
    split; [|split; [|split]].
    + specialize (Hlog _ Hin).
      destruct (Nat.ltb 0 _); unfold when; mstep; unfold log, emit, ret;
        rewrite ?prepend_prepend, ?prepend_pair; cbn [fst];
        rewrite ?app_nil_r; try (apply in_or_app; left); exact Hlog.
    + intros op. rewrite Hgroup. unfold group_of. rewrite !filter_In. cbn.
      rewrite String.eqb_eq. tauto.
    + intros ->. reflexivity.
    + intros Hcode. pose proof (failed_nodes_of_nonempty Hne) as Hnodes.
      destruct (failed_nodes_of trim_self_link failed_ops) as [|[node op] rest] eqn:E;
        [congruence|].
      assert (Hmember : In op failed_ops).
      { assert (Hin' : In (node, op) (failed_nodes_of trim_self_link failed_ops))
          by (rewrite E; left; reflexivity).
        apply dict_of_items_In_inv, in_map_iff in Hin' as (op' & Hop & Hin').
        inversion Hop; subst. assumption. }
      exists node, op, rest. split; [reflexivity|]. split; [|split; [|split; [|split]]].
      * exact Hmember.
      * unfold bucket_commands. rewrite E.
        destruct (String.eqb_spec code "RESOURCE_ALREADY_EXISTS"); [congruence | reflexivity].
      * intros op' Hop'. rewrite <- E. unfold failed_nodes_of.
        apply dict_of_items_In_keys. unfold keys. rewrite map_map. cbn.
        apply (in_map (fun o => trim_self_link (op_target o))). assumption.
      * apply bucket_reason_contains.
      * intros err Herr.
        assert (Hjoined : joined_code op = code).
        { rewrite Hgroup in Hmember. unfold group_of in Hmember.
          apply filter_In in Hmember as [_ Heq]. apply String.eqb_eq in Heq. exact Heq. }
        rewrite <- Hjoined. unfold joined_code, join. rewrite Herr. cbn [map String.concat].
        apply bucket_reason_contains. rewrite Herr. left. reflexivity.
Qed.

End QuarantineFacts.

(** a failed insert with two errors: its bucket is quarantined, and the reason
    holds both codes but not the bucket's joined code *)
Lemma C4_reason_lacks_joined_code :
  let result := reconcile_inserts Demo.lookup Demo.hostlist Demo.hostlist Demo.quote Demo.trim
                                  "group-1" [Demo.two_errors] None in
  groupby_unsorted (filter has_error [Demo.two_errors]) joined_code
    = [("QUOTA_EXCEEDED+ZONE_RESOURCE_POOL_EXHAUSTED", [Demo.two_errors])] /\
  commands (fst result)
    = [down_command Demo.lookup "c-a-0" (Demo.quote (bucket_reason Demo.two_errors))] /\
  bucket_reason Demo.two_errors
    = "GCP Error: QUOTA_EXCEEDED: Quota exceeded; ZONE_RESOURCE_POOL_EXHAUSTED: no message" /\
  str_contains "QUOTA_EXCEEDED+ZONE_RESOURCE_POOL_EXHAUSTED" (bucket_reason Demo.two_errors)
    = false.
Proof. vm_compute. repeat split. Qed.

(** ** Placement groups of one nodeset *)

Section PlacementFacts.

Variable lookup : Lookup.
Variable provider : Provider.
Variable pre_placement_group_insert : PolicyRequest -> PolicyRequest.
Variable to_hostlist_fast : list string -> string.

Lemma valid_placement_nodes_result l :
  exists t b,
    valid_placement_nodes lookup l = (t, inr b) /\
    policy_requests t = [] /\
    ((exists n, In n l /\ disallowed_family lookup n) -> b = false).
Proof.
  induction l as [|node rest IH]; cbn [valid_placement_nodes].
  - exists [], true. repeat split. intros (n & [] & _).
  - destruct (mem (split_head "-" (node_machine_type lookup node)) invalid_types) eqn:E.
    + eexists _, false. cbn. repeat split.
    + destruct IH as (t & b & Hrun & Hreq & Hb). exists t, b. repeat split; try assumption.
      intros (n & [<- | Hin] & Hbad).
      * apply mem_In in Hbad. unfold disallowed_family in *. congruence.
      * apply Hb. exists n. split; assumption.
Qed.

Lemma execute_requests_run reqs :
  execute_requests provider reqs
    = (map EvInsertPolicy reqs, inr (map (ensure_execute provider) reqs)).
Proof.
  unfold execute_requests. induction reqs as [|req reqs IH]; [reflexivity|].
  cbn [mapM map]. rewrite IH. cbn. rewrite app_nil_r. reflexivity.
Qed.

Lemma policy_requests_insert reqs : policy_requests (map EvInsertPolicy reqs) = reqs.
Proof. induction reqs as [|r reqs IH]; [reflexivity|]. cbn. f_equal. exact IH. Qed.

Lemma grouped_get_In (ops : dict string ExecResult) c g r :
  In (g, r) (grouped_get (groupby_unsorted ops classify_result) c) ->
  In (g, r) ops /\ classify_result (g, r) = c.
Proof.
  unfold grouped_get. destruct (find _ _) as [[k items]|] eqn:Efind; [|intros []].
  apply find_some in Efind as [Hin Ek]. cbn in Ek. apply String.eqb_eq in Ek. subst k.
  intros Hg. apply dict_of_items_In_inv in Hg.
  eapply groupby_unsorted_member; eassumption.
Qed.

Lemma grouped_get_covers (ops : dict string ExecResult) c g r :
  In (g, r) ops -> classify_result (g, r) = c ->
  In g (keys (grouped_get (groupby_unsorted ops classify_result) c)).
Proof.
  intros Hin Hc. destruct (groupby_unsorted_covers classify_result ops _ Hin) as (xs & Hxs & Hx).
  rewrite Hc in Hxs. unfold grouped_get.
  destruct (find _ _) as [[k items]|] eqn:Efind.
  - apply find_some in Efind as [Hin' Ek]. cbn in Ek. apply String.eqb_eq in Ek. subst k.
    assert (items = xs).
    { eapply keys_functional; [ | exact Hin' | exact Hxs]. apply groupby_unsorted_NoDup. }
    subst. apply dict_of_items_In_keys. change g with (fst (g, r)). apply in_map. assumption.
  - apply find_none with (x := (c, xs)) in Efind; [|assumption].
    cbn in Efind. rewrite String.eqb_refl in Efind. discriminate.
Qed.

Lemma grouped_get_none (ops : dict string ExecResult) c :
  (forall item, In item ops -> classify_result item <> c) ->
  grouped_get (groupby_unsorted ops classify_result) c = [].
Proof.
  intros Hnone. destruct (grouped_get _ c) as [|[g r] rest] eqn:E; [reflexivity|].
  assert (Hin : In (g, r) (grouped_get (groupby_unsorted ops classify_result) c))
    by (rewrite E; left; reflexivity).
  apply grouped_get_In in Hin as [Hin Hc]. destruct (Hnone _ Hin Hc).
Qed.

Lemma wait_submitted_total (submitted : dict string ExecResult) :
  (forall g r, In (g, r) submitted -> exists op, r = Started op) ->
  exists t operations,
    mapM (fun '(group, r) =>
            match r with
            | Started op => (emit (EvWait (op_name op)) ;;
                             ret (group, wait_for_operation provider op))%monad
            | Raised _ => raise TypeError
            end) submitted = (t, inr operations) /\
    policy_requests t = [].
Proof.
  induction submitted as [|[g r] rest IH]; intros Hall.
  - exists [], []. split; reflexivity.
  - destruct (Hall g r) as (op & ->); [left; reflexivity|].
    destruct IH as (t & operations & Hrun & Hreq).
    { intros g' r' Hin. apply (Hall g' r'). right. assumption. }
    eexists _, _. cbn [mapM]. rewrite Hrun. unfold bind, emit, ret. cbn [app].
    split; [reflexivity|]. rewrite !app_nil_r. cbn. assumption.
Qed.

Lemma log_errors_total (operations : dict string Operation) :
  exists t,
    forM_ (fun '(group, op) =>
             match op_error op with
             | Some errs =>
                 log ERROR ("placement group failed to create: '" ++ group ++ "' ("
                              ++ op_name op ++ "): " ++ error_text errs)%string
             | None => ret tt
             end) operations = (t, inr tt) /\
    policy_requests t = [].
Proof.
  induction operations as [|[g op] rest (t & Hrun & Hreq)].
  - exists []. split; reflexivity.
  - cbn [forM_]. rewrite Hrun. destruct (op_error op); eexists; cbn; (split; [reflexivity|]);
      assumption.
Qed.

Lemma placement_applies_true node_list :
  placement_applies lookup node_list = true ->
  Nat.ltb (List.length node_list) 2 = false /\
  enable_placement (node_nodeset lookup (hd "" node_list)) = true /\
  exists t, valid_placement_nodes lookup node_list = (t, inr true) /\ policy_requests t = [].
Proof.
  unfold placement_applies. intros Happ.
  apply andb_prop in Happ as [Happ Hvalid]. apply andb_prop in Happ as [Hlen Hen].
  apply negb_true_iff in Hlen. repeat split; try assumption.
  destruct (valid_placement_nodes_result node_list) as (t & b & Hrun & Hreq & _).
  rewrite Hrun in Hvalid. subst b. exists t. auto.
Qed.

Lemma placement_applies_false node_list job :
  placement_applies lookup node_list = false ->
  exists t,
    create_nodeset_placement_groups lookup provider pre_placement_group_insert
                                    to_hostlist_fast node_list job
      = (t, inr [(None, node_list)]) /\
    policy_requests t = [].
Proof.
  unfold placement_applies, create_nodeset_placement_groups. intros Happ.
  destruct (Nat.ltb (List.length node_list) 2); [exists []; split; reflexivity|].
  destruct (enable_placement _); [|exists []; split; reflexivity].
  destruct (valid_placement_nodes_result node_list) as (t & b & Hrun & Hreq & _).
  rewrite Hrun in *. cbn in Happ. subst b.
  exists (t ++ []). cbn. split; [reflexivity|]. rewrite app_nil_r. assumption.
Qed.

(** the run of the nodeset routine once it has decided to create groups *)
Lemma placement_applies_run node_list job :
  placement_applies lookup node_list = true ->
  let ops := placement_ops lookup provider pre_placement_group_insert node_list job in
  let failed := snd (classify_ops ops) in
  (failed = [] ->
   exists t,
     create_nodeset_placement_groups lookup provider pre_placement_group_insert
                                     to_hostlist_fast node_list job
       = (t, inr (map (fun '(group, nodes) => (Some group, nodes))
                      (placement_groups_of lookup node_list job))) /\
     policy_requests t
       = values (placement_requests lookup pre_placement_group_insert node_list job)) /\
  (failed <> [] ->
   exists t,
     create_nodeset_placement_groups lookup provider pre_placement_group_insert
                                     to_hostlist_fast node_list job
       = (t, inl TypeError)).
Proof.
  intros Happ. apply placement_applies_true in Happ as (Hlen & Hen & tv & Hvalid & Hreqv).
  cbn zeta. unfold create_nodeset_placement_groups, placement_ops.
  rewrite Hlen, Hen, Hvalid, execute_requests_run.
  unfold classify_ops. cbn [snd negb]. rewrite !bind_pair. cbv iota beta.
  set (requests := placement_requests lookup pre_placement_group_insert node_list job).
  set (ops := dict_of_items (combine (keys requests)
                                     (map (ensure_execute provider) (values requests)))).
  set (submitted := grouped_get (groupby_unsorted ops classify_result) "submitted").
  set (redundant := grouped_get (groupby_unsorted ops classify_result) "redundant").
  set (failed := grouped_get (groupby_unsorted ops classify_result) "failed").
  assert (Hsub : forall g r, In (g, r) submitted -> exists op, r = Started op).
  { intros g r Hin. apply grouped_get_In in Hin as [_ Hc]. unfold classify_result in Hc.
    cbn in Hc. destruct r as [op|ds]; [eauto|]. destruct (forallb _ _); discriminate. }
  destruct (wait_submitted_total submitted Hsub) as (tw & operations & Hwait & Hreqw).
  destruct (log_errors_total operations) as (te & Herr & Hreqe).
  split; intros Hfailed.
  - rewrite Hfailed. cbn [List.length Nat.eqb negb].
    destruct (negb (Nat.eqb (List.length redundant) 0));
      unfold when; mstep; rewrite (bind_run _ Hwait); rewrite (bind_run _ Herr); mstep;
      unfold log, emit, ret; rewrite !prepend_prepend, prepend_pair;
      (eexists; split; [reflexivity|]);
      rewrite ?app_nil_r, !policy_requests_app, Hreqv, policy_requests_insert, Hreqw, Hreqe;
      cbn; rewrite ?app_nil_r; reflexivity.
  - destruct failed as [|f fs]; [congruence|]. cbn [List.length Nat.eqb negb].
    destruct (negb (Nat.eqb (List.length redundant) 0));
      unfold when; mstep; unfold raise; rewrite ?prepend_prepend, prepend_pair;
      eexists; reflexivity.
Qed.

Lemma placement_groups_of_items node_list job :
  placement_groups_of lookup node_list job
    = map (fun '(i, nodes) =>
             (placement_group_name (slurm_cluster_name lookup)
                (nodeset_name (node_nodeset lookup (hd "" node_list))) job i, nodes))
          (enumerate (chunked PLACEMENT_MAX_CNT node_list)).
Proof.
  unfold placement_groups_of. apply dict_of_items_fresh.
  unfold keys. rewrite map_map.
  rewrite map_ext with (g := fun p => placement_group_name (slurm_cluster_name lookup)
                (nodeset_name (node_nodeset lookup (hd "" node_list))) job (fst p))
    by (intros [i c]; reflexivity).
  rewrite <- map_map. apply NoDup_map_inj; [|apply enumerate_NoDup].
  intros i j _ _. apply placement_group_name_inj.
Qed.

Lemma placement_groups_of_keys node_list job :
  keys (placement_groups_of lookup node_list job)
    = map (placement_group_name (slurm_cluster_name lookup)
             (nodeset_name (node_nodeset lookup (hd "" node_list))) job)
          (seq 0 (List.length (chunked PLACEMENT_MAX_CNT node_list))).
Proof.
  rewrite placement_groups_of_items. unfold keys. rewrite map_map.
  rewrite map_ext with (g := fun p => placement_group_name (slurm_cluster_name lookup)
                (nodeset_name (node_nodeset lookup (hd "" node_list))) job (fst p))
    by (intros [i c]; reflexivity).
  rewrite <- map_map, enumerate_fst. reflexivity.
Qed.

(** what the nodeset routine returns, when it returns *)
Lemma create_nodeset_placement_groups_result node_list job t groups :
  create_nodeset_placement_groups lookup provider pre_placement_group_insert
                                  to_hostlist_fast node_list job = (t, inr groups) ->
  groups = if placement_applies lookup node_list
           then map (fun '(group, nodes) => (Some group, nodes))
                    (placement_groups_of lookup node_list job)
           else [(None, node_list)].
Proof.
  intros Hrun. destruct (placement_applies lookup node_list) eqn:Happ.
  - destruct (placement_applies_run node_list job Happ) as [Hok Hfail].
    destruct (snd (classify_ops
                (placement_ops lookup provider pre_placement_group_insert node_list job)))
      as [|f fs] eqn:Ef.
    + destruct (Hok eq_refl) as (t' & Hrun' & _). congruence.
    + destruct Hfail as (t' & Hrun'); [discriminate | congruence].
  - destruct (placement_applies_false node_list job Happ) as (t' & Hrun' & _). congruence.
Qed.

(** how the provider's answer for one group is classified *)
Lemma classify_already_exists node_list job group ds :
  In (group, Raised ds)
     (placement_ops lookup provider pre_placement_group_insert node_list job) ->
  only_already_exists ds ->
  let '(submitted, redundant, failed) :=
    classify_ops (placement_ops lookup provider pre_placement_group_insert node_list job) in
  In group (keys redundant) /\ ~ In group (keys failed) /\ ~ In group (keys submitted).
Proof.
  intros Hin Honly. unfold classify_ops.
  set (ops := placement_ops lookup provider pre_placement_group_insert node_list job) in *.
  assert (Hclass : classify_result (group, Raised ds) = "redundant").
  { unfold classify_result. cbn [snd].
    replace (forallb _ ds) with true; [reflexivity|]. symmetry. apply forallb_forall.
    intros e He. rewrite (Honly e He). reflexivity. }
  assert (Hnd : NoDup (keys ops)) by apply dict_of_items_NoDup.
  assert (Hother : forall c, c <> "redundant" ->
            ~ In group (keys (grouped_get (groupby_unsorted ops classify_result) c))).
  { intros c Hc Hk. apply in_map_iff in Hk as ([g r] & Hg & Hgr). cbn in Hg. subst g.
    apply grouped_get_In in Hgr as [Hgr Hcr].
    assert (r = Raised ds) by (eapply keys_functional; eassumption).
    subst r. congruence. }
  split; [|split].
  - eapply grouped_get_covers; eassumption.
  - apply Hother. discriminate.
  - apply Hother. discriminate.
Qed.

(** C6. A node list of fewer than two nodes, or of a nodeset with placement
    disabled, or holding a node of a disallowed machine family, comes back as
    the single bucket "no placement group -> the whole list", and the trace of
    the call holds no placement-policy creation request. *)
Theorem C6_no_policy_bucket node_list job :
  List.length node_list < 2 \/
  enable_placement (node_nodeset lookup (hd "" node_list)) = false \/
  (exists n, In n node_list /\ disallowed_family lookup n) ->
  exists t,
    create_nodeset_placement_groups lookup provider pre_placement_group_insert
                                    to_hostlist_fast node_list job
      = (t, inr [(None, node_list)]) /\
    policy_requests t = [].
Proof.
  intros H. unfold create_nodeset_placement_groups.
  destruct (Nat.ltb_spec (List.length node_list) 2) as [Hlt | Hge].
  { exists []. split; reflexivity. }
  destruct (enable_placement (node_nodeset lookup (hd "" node_list))) eqn:Een.
  - destruct (valid_placement_nodes_result node_list) as (t & b & Hrun & Hreq & Hb).
    rewrite Hrun. destruct b.
    + exfalso. destruct H as [H | [H | H]]; [lia | discriminate | ].
      specialize (Hb H). discriminate.
    + exists (t ++ []). cbn. split; [reflexivity|].
      rewrite app_nil_r. assumption.
  - exists []. split; reflexivity.
Qed.

End PlacementFacts.

(** the routine on three nodes of the nodeset with placement disabled *)
Lemma C6_no_policy_bucket_witness :
  exists t,
    create_nodeset_placement_groups Demo.lookup Demo.fresh Demo.no_plugin Demo.hostlist
                                    ["c-b-0"; "c-b-1"; "c-b-2"] 4%Z
      = (t, inr [(None, ["c-b-0"; "c-b-1"; "c-b-2"])]) /\
    policy_requests t = [].
Proof.
  apply C6_no_policy_bucket. right. left. reflexivity.
Defined.

(** C5. Take a call of the nodeset placement routine that returned. Its group
    names are either the single "no placement group" key or the names built
    from cluster name, nodeset name, job id and slice index, in order. A
    second call with the same node list and job id, against whatever provider
    state, returns the same groups whenever it returns. In that second call a
    group for which the provider reports "alreadyExists" as the only error
    reason is classified as redundant and not as failed, and when that is the
    answer for every group the call does return. *)
Theorem C5_placement_groups_idempotent
    lookup hook hostlist (first second : Provider) node_list job t1 groups1 :
  create_nodeset_placement_groups lookup first hook hostlist node_list job
    = (t1, inr groups1) ->
  let call2 := create_nodeset_placement_groups lookup second hook hostlist node_list job in
  let ops2 := placement_ops lookup second hook node_list job in
  (keys groups1 = [None] \/
   keys groups1 =
     map (fun i => Some (placement_group_name (slurm_cluster_name lookup)
                           (nodeset_name (node_nodeset lookup (hd "" node_list))) job i))
         (seq 0 (List.length (chunked PLACEMENT_MAX_CNT node_list)))) /\
  (forall t2 groups2, call2 = (t2, inr groups2) -> groups2 = groups1) /\
  (forall group ds,
     In (group, Raised ds) ops2 -> only_already_exists ds ->
     let '(_, redundant, failed) := classify_ops ops2 in
     In group (keys redundant) /\ ~ In group (keys failed)) /\
  ((forall req, In req (values (placement_requests lookup hook node_list job)) ->
      exists ds, ensure_execute second req = Raised ds /\ only_already_exists ds) ->
   exists t2, call2 = (t2, inr groups1)).
Proof.
  intros Hfirst call2 ops2. subst call2 ops2.
  apply create_nodeset_placement_groups_result in Hfirst.
  split; [|split; [|split]].
  - subst groups1. destruct (placement_applies lookup node_list); [right | left; reflexivity].
    unfold keys. rewrite map_map.
    rewrite map_ext with (g := fun p => Some (fst p)) by (intros [g ns]; reflexivity).
    rewrite <- map_map with (g := Some). fold (keys (placement_groups_of lookup node_list job)).
    rewrite placement_groups_of_keys, map_map. reflexivity.
  - intros t2 groups2 Hsecond.
    apply create_nodeset_placement_groups_result in Hsecond. congruence.
  - intros group ds Hin Honly.
    pose proof (classify_already_exists lookup second hook node_list job group Hin Honly) as Hc.
    destruct (classify_ops _) as [[submitted redundant] failed]. tauto.
  - intros Hall. subst groups1. destruct (placement_applies lookup node_list) eqn:Happ.
    + destruct (placement_applies_run lookup second hook hostlist node_list job Happ)
        as [Hok _].
      destruct Hok as (t2 & Hrun & _); [|exists t2; exact Hrun].
      unfold classify_ops. cbn [snd]. apply grouped_get_none.
      intros [g r] Hin. apply dict_of_items_In_inv in Hin. apply in_combine_r in Hin.
      apply in_map_iff in Hin as (req & <- & Hreq).
      destruct (Hall req Hreq) as (ds & -> & Honly).
      unfold classify_result. cbn [snd].
      replace (forallb _ ds) with true; [discriminate|]. symmetry. apply forallb_forall.
      intros e He. rewrite (Honly e He). reflexivity.
    + destruct (placement_applies_false lookup second hook hostlist node_list job Happ)
        as (t2 & Hrun & _).
      exists t2. exact Hrun.
Qed.

(** a first call on a fresh provider, a second one when the policy exists *)
Lemma C5_placement_groups_idempotent_witness :
  let node_list := ["c-a-0"; "c-a-1"; "c-a-2"] in
  let groups1 := [(Some "c-slurmgcp-managed-a-4-0", node_list)] in
  let call2 := create_nodeset_placement_groups Demo.lookup Demo.existing Demo.no_plugin
                 Demo.hostlist node_list 4%Z in
  let ops2 := placement_ops Demo.lookup Demo.existing Demo.no_plugin node_list 4%Z in
  (keys groups1 = [None] \/
   keys groups1 =
     map (fun i => Some (placement_group_name (slurm_cluster_name Demo.lookup)
                           (nodeset_name (node_nodeset Demo.lookup (hd "" node_list))) 4%Z i))
         (seq 0 (List.length (chunked PLACEMENT_MAX_CNT node_list)))) /\
  (forall t2 groups2, call2 = (t2, inr groups2) -> groups2 = groups1) /\
  (forall group ds,
     In (group, Raised ds) ops2 -> only_already_exists ds ->
     let '(_, redundant, failed) := classify_ops ops2 in
     In group (keys redundant) /\ ~ In group (keys failed)) /\
  ((forall req, In req (values (placement_requests Demo.lookup Demo.no_plugin node_list 4%Z)) ->
      exists ds, ensure_execute Demo.existing req = Raised ds /\ only_already_exists ds) ->
   exists t2, call2 = (t2, inr groups1)).
Proof.
  intros node_list groups1.
  eapply (C5_placement_groups_idempotent Demo.lookup Demo.no_plugin Demo.hostlist
            Demo.fresh Demo.existing node_list 4%Z).
  vm_compute. reflexivity.
Defined.

(** ** Sorting *)

Lemma insert_sorted_Permutation x l : Permutation (insert_sorted x l) (x :: l).
Proof.
  induction l as [|y l IH]; cbn; [reflexivity|].
  destruct (str_leb x y); [reflexivity|].
  rewrite IH. apply perm_swap.
Qed.

Lemma sorted_Permutation l : Permutation (sorted l) l.
Proof.
  induction l as [|x l IH]; cbn; [reflexivity|].
  rewrite insert_sorted_Permutation. constructor. assumption.
Qed.

Lemma sorted_In x l : In x (sorted l) <-> In x l.
Proof.
  split; apply Permutation_in; [|symmetry]; apply sorted_Permutation.
Qed.

Lemma sorted_length l : List.length (sorted l) = List.length l.
Proof. apply Permutation_length, sorted_Permutation. Qed.

Lemma set_of_length l : List.length (set_of l) <= List.length l.
Proof.
  unfold set_of. induction l as [|x l IH]; cbn; [lia|].
  destruct (in_dec string_dec x l); cbn; lia.
Qed.

Lemma set_inter_length a b : List.length (set_inter a b) <= List.length a.
Proof. apply filter_length_le. Qed.

Lemma str_leb_spec a b : str_leb a b = true <-> ~ String_as_OT.lt b a.
Proof.
  unfold str_leb. destruct (String_as_OT.compare_spec a b) as [E|Hlt|Hgt].
  - rewrite E. split; [|reflexivity]. intros _ Hlt.
    apply (StrictOrder_Irreflexive (R := String_as_OT.lt) b Hlt).
  - split; [|reflexivity]. intros _ Hba.
    apply (StrictOrder_Irreflexive (R := String_as_OT.lt) a).
    apply (StrictOrder_Transitive (R := String_as_OT.lt) a b a); assumption.
  - split; [discriminate | tauto].
Qed.

Lemma str_le_total a b : str_le a b \/ str_le b a.
Proof.
  unfold str_le. rewrite !str_leb_spec.
  destruct (String_as_OT.compare_spec a b) as [E|Hlt|Hgt].
  - left. rewrite E. apply (StrictOrder_Irreflexive (R := String_as_OT.lt)).
  - left. intros Hba. apply (StrictOrder_Irreflexive (R := String_as_OT.lt) a).
    apply (StrictOrder_Transitive (R := String_as_OT.lt) a b a); assumption.
  - right. intros Hab. apply (StrictOrder_Irreflexive (R := String_as_OT.lt) a).
    apply (StrictOrder_Transitive (R := String_as_OT.lt) a b a); assumption.
Qed.

Lemma str_le_trans a b c : str_le a b -> str_le b c -> str_le a c.
Proof.
  unfold str_le. rewrite !str_leb_spec. intros Hab Hbc Hca.
  destruct (String_as_OT.compare_spec a b) as [E|Hlt|Hgt].
  - unfold String_as_OT.eq in E. subst. tauto.
  - apply Hbc. apply (StrictOrder_Transitive (R := String_as_OT.lt) c a b); assumption.
  - tauto.
Qed.

Lemma str_le_antisym a b : str_le a b -> str_le b a -> a = b.
Proof.
  unfold str_le. rewrite !str_leb_spec. intros Hab Hba.
  destruct (String_as_OT.compare_spec a b) as [E|Hlt|Hgt]; [exact E | tauto | tauto].
Qed.

Lemma insert_sorted_sorted x l :
  StronglySorted str_le l -> StronglySorted str_le (insert_sorted x l).
Proof.
  induction l as [|y l IH]; intros Hs; cbn.
  - repeat constructor.
  - inversion Hs as [|? ? Hl Hy]; subst.
    destruct (str_leb x y) eqn:E.
    + constructor; [assumption|]. constructor; [exact E|].
      eapply Forall_impl; [|exact Hy]. intros z Hz. eapply str_le_trans; [exact E | exact Hz].
    + constructor; [apply IH; assumption|].
      apply Forall_forall. intros z Hz.
      apply (Permutation_in _ (insert_sorted_Permutation x l)) in Hz as [<-|Hz].
      * destruct (str_le_total x y) as [H|H]; [unfold str_le in H; congruence | exact H].
      * rewrite Forall_forall in Hy. apply Hy. assumption.
Qed.

Lemma sorted_sorted l : StronglySorted str_le (sorted l).
Proof.
  induction l as [|x l IH]; cbn; [constructor | apply insert_sorted_sorted; assumption].
Qed.

Lemma StronglySorted_unique l1 : forall l2,
  StronglySorted str_le l1 -> StronglySorted str_le l2 -> Permutation l1 l2 -> l1 = l2.
Proof.
  induction l1 as [|x l1 IH]; intros l2 H1 H2 Hperm.
  - apply Permutation_nil in Hperm. congruence.
  - destruct l2 as [|y l2]; [apply Permutation_sym, Permutation_nil in Hperm; discriminate|].
    inversion H1 as [|? ? Hs1 Hx]; inversion H2 as [|? ? Hs2 Hy]; subst.
    rewrite Forall_forall in Hx, Hy.
    assert (E : x = y).
    { assert (Hxy : In x (y :: l2)) by (eapply Permutation_in; [exact Hperm | left; reflexivity]).
      assert (Hyx : In y (x :: l1))
        by (eapply Permutation_in; [symmetry; exact Hperm | left; reflexivity]).
      destruct Hxy as [->|Hxy]; [reflexivity|]. destruct Hyx as [->|Hyx]; [reflexivity|].
      apply str_le_antisym; auto. }
    subst y. f_equal. apply IH; try assumption.
    eapply Permutation_cons_inv. exact Hperm.
Qed.

Lemma same_set_sorted l1 l2 : same_set l1 l2 -> sorted l1 = sorted l2.
Proof.
  intros (Hn1 & Hn2 & Hsame). apply StronglySorted_unique; try apply sorted_sorted.
  rewrite !sorted_Permutation. apply NoDup_Permutation; assumption.
Qed.

Lemma same_set_filter f l1 l2 : same_set l1 l2 -> same_set (filter f l1) (filter f l2).
Proof.
  intros (Hn1 & Hn2 & Hsame). repeat split; try (apply NoDup_filter; assumption);
    rewrite !filter_In, Hsame; tauto.
Qed.

Lemma same_set_mem l1 l2 x : same_set l1 l2 -> mem x l1 = mem x l2.
Proof.
  intros (_ & _ & Hsame). destruct (mem x l2) eqn:E.
  - apply mem_In. apply Hsame. apply mem_In. assumption.
  - destruct (mem x l1) eqn:E1; [|reflexivity].
    apply mem_In, Hsame, mem_In in E1. congruence.
Qed.

Lemma same_set_of l1 l2 :
  (forall x, In x l1 <-> In x l2) -> same_set (set_of l1) (set_of l2).
Proof.
  intros Hsame. unfold set_of. repeat split; try apply NoDup_nodup;
    rewrite !nodup_In; apply Hsame.
Qed.

Lemma bind_ext {A B} (m : M A) (k1 k2 : A -> M B) :
  (forall a, k1 a = k2 a) -> bind m k1 = bind m k2.
Proof. intros Hk. unfold bind. destruct m as [t [e|a]]; [reflexivity|]. rewrite Hk. reflexivity. Qed.

Lemma foldM_ext {A B} (f g : A -> B -> M A) l :
  (forall a x, In x l -> f a x = g a x) -> forall a, foldM f l a = foldM g l a.
Proof.
  induction l as [|x l IH]; intros Hfg a; cbn; [reflexivity|].
  rewrite Hfg by (left; reflexivity). apply bind_ext. intros a'. apply IH.
  intros a'' y Hy. apply Hfg. right. assumption.
Qed.

(** ** Placement groups of a node list *)

Section PlacementListFacts.

Variable lookup : Lookup.
Variable provider : Provider.
Variable pre_placement_group_insert : PolicyRequest -> PolicyRequest.
Variable to_hostlist_fast : list string -> string.

Lemma create_nodeset_placement_groups_entries node_list job t groups pg ns :
  create_nodeset_placement_groups lookup provider pre_placement_group_insert
                                  to_hostlist_fast node_list job = (t, inr groups) ->
  In (pg, ns) groups ->
  placement_entry_ok lookup node_list job pg ns.
Proof.
  intros Hrun Hin. apply create_nodeset_placement_groups_result in Hrun. subst groups.
  destruct (placement_applies lookup node_list).
  - apply in_map_iff in Hin as ([name chunk] & E & Hin). inversion E; subst.
    rewrite placement_groups_of_items in Hin.
    apply in_map_iff in Hin as ([i c] & E' & Hin). inversion E'; subst.
    apply enumerate_In, chunked_In in Hin as (_ & Hlen & _ & Hsub).
    split; [assumption|]. split; [assumption|]. eauto.
  - destruct Hin as [E|[]]. inversion E; subst. split; [auto | exact I].
Qed.

Lemma create_placement_groups_entries node_list job t pgs :
  create_placement_groups lookup provider pre_placement_group_insert
                          to_hostlist_fast node_list job = (t, inr pgs) ->
  NoDup (keys pgs) /\
  forall pg ns, In (pg, ns) pgs -> placement_entry_ok lookup node_list job pg ns.
Proof.
  unfold create_placement_groups, nodeset_map. intros Hrun.
  eapply (foldM_ok_inv
            (fun pgs : dict (option string) (list string) =>
               NoDup (keys pgs) /\
               forall pg ns, In (pg, ns) pgs -> placement_entry_ok lookup node_list job pg ns));
    [ | | exact Hrun].
  - intros pgs0 [name nodes] t' pgs' Hentry [Hnd Hok] Hstep.
    apply bind_ok in Hstep as (t1 & new_pgs & t2 & Hnew & Hret & _).
    inversion Hret; subst. split; [apply dict_update_NoDup; assumption|].
    intros pg ns Hin. apply dict_update_In_inv in Hin as [Hin|Hin]; [auto|].
    eapply create_nodeset_placement_groups_entries in Hin as [Hsub Hpg]; [|exact Hnew].
    split; [|exact Hpg].
    intros n Hn.
    apply (proj1 (@groupby_unsorted_member string string _ (node_nodeset_name lookup)
                    node_list name nodes n Hentry (Hsub n Hn))).
  - split; [constructor | intros pg ns []].
Qed.

End PlacementListFacts.

(** ** The bulk-insert request *)

Section RequestFacts.

Variable Props : Type.
Variable lookup : Lookup.
Variable instance_properties :
  Nodeset -> string -> option string -> option Z -> option Z -> M Props.
Variable pre_instance_bulk_insert :
  list string -> option string -> BulkBody Props -> BulkBody Props.

(** the builder stops at an assertion before anything else happens *)
Lemma create_instances_request_refused nodes partition_name placement_group job :
  ~ (0 < List.length nodes <= BULK_INSERT_LIMIT /\
     (truthy placement_group = true -> List.length nodes <= PLACEMENT_MAX_CNT)) ->
  create_instances_request lookup instance_properties pre_instance_bulk_insert
    nodes partition_name placement_group job = ([], inl AssertionError).
Proof.
  intros Hnot. unfold create_instances_request.
  destruct (Nat.ltb_spec 0 (List.length nodes)) as [Hpos|Hzero]; [|reflexivity].
  destruct (Nat.leb_spec (List.length nodes) BULK_INSERT_LIMIT) as [Hmax|Hbig];
    [|reflexivity].
  cbn [andb negb]. destruct (truthy placement_group).
  - destruct (Nat.leb_spec (List.length nodes) PLACEMENT_MAX_CNT) as [Hpg|Hpg];
      [|reflexivity].
    exfalso. apply Hnot. auto.
  - exfalso. apply Hnot. split; [auto | discriminate].
Qed.

(** past its two assertions the builder calls [instance_properties] and
    wraps what it gets: its events and its failure are those of that call,
    and the request is built around the properties *)
Lemma create_instances_request_run nodes partition_name placement_group job :
  0 < List.length nodes <= BULK_INSERT_LIMIT ->
  (truthy placement_group = true -> List.length nodes <= PLACEMENT_MAX_CNT) ->
  let model := hd "" nodes in
  let nodeset := node_nodeset lookup model in
  exists build : Props -> BulkInsertRequest Props,
    create_instances_request lookup instance_properties pre_instance_bulk_insert
      nodes partition_name placement_group job
    = bind (instance_properties nodeset model placement_group
              (job_labels lookup partition_name job) job)
           (fun props => ret (build props)) /\
    forall props,
      req_project (build props) = project lookup /\
      req_method (build props)
        = match zone_policy_allow nodeset with
          | [z] => ZonalBulkInsert z
          | _ => RegionalBulkInsert (node_region lookup model)
          end /\
      exists body,
        req_body (build props)
          = (if enable_slurm_gcp_plugins lookup
             then pre_instance_bulk_insert nodes placement_group body
             else body) /\
        count body = List.length nodes /\
        minCount body = (if truthy placement_group then None else Some 1) /\
        sourceInstanceTemplate body = node_template lookup model /\
        instanceProperties body = props /\
        perInstanceProperties body = keys (dict_of_items (map (fun k => (k, tt)) nodes)) /\
        locationPolicy body
          = match zone_policy_allow nodeset with
            | [z] => None
            | _ =>
                Some {| locations :=
                          dict_of_items
                            (map (fun z => (("zones/" ++ z)%string, "ALLOW"))
                                 (zone_policy_allow nodeset) ++
                             map (fun z => (("zones/" ++ z)%string, "DENY"))
                                 (zone_policy_deny nodeset));
                        targetShape := zone_target_shape nodeset |}
            end.
Proof.
  intros [Hpos Hmax] Hpg. cbn zeta. unfold create_instances_request, job_labels.
  destruct (Nat.ltb_spec 0 (List.length nodes)) as [_|]; [|lia].
  destruct (Nat.leb_spec (List.length nodes) BULK_INSERT_LIMIT) as [_|]; [|lia].
  cbn [andb negb].
  assert (Hmin : (if truthy placement_group
                  then if negb (Nat.leb (List.length nodes) PLACEMENT_MAX_CNT)
                       then raise AssertionError else ret None
                  else ret (Some 1))
                 = ret (if truthy placement_group then None else Some 1)).
  { destruct (truthy placement_group); [|reflexivity].
    destruct (Nat.leb_spec (List.length nodes) PLACEMENT_MAX_CNT) as [_|Hbad];
      [reflexivity | specialize (Hpg eq_refl); lia]. }
  rewrite Hmin, bind_ret_l.
  destruct (zone_policy_allow (node_nodeset lookup (hd "" nodes))) as [|z [|z' zs]] eqn:Eallow;
    (eexists; split; [reflexivity|]; intros props; cbn [req_project req_method req_body];
     split; [reflexivity|]; split; [reflexivity|];
     eexists; split; [reflexivity|]; cbn; repeat split; reflexivity).
Qed.

Lemma create_instances_request_asserted_dec (nodes : list string) placement_group :
  (0 < List.length nodes <= BULK_INSERT_LIMIT /\
   (truthy placement_group = true -> List.length nodes <= PLACEMENT_MAX_CNT)) \/
  ~ (0 < List.length nodes <= BULK_INSERT_LIMIT /\
     (truthy placement_group = true -> List.length nodes <= PLACEMENT_MAX_CNT)).
Proof.
  destruct (Nat.ltb_spec 0 (List.length nodes)) as [Hpos|Hzero]; [|right; lia].
  destruct (Nat.leb_spec (List.length nodes) BULK_INSERT_LIMIT) as [Hmax|Hbig];
    [|right; lia].
  destruct (truthy placement_group); [|left; split; [lia | discriminate]].
  destruct (Nat.leb_spec (List.length nodes) PLACEMENT_MAX_CNT) as [Hpg|Hpg];
    [left; auto|].
  right. intros [_ Hle]. specialize (Hle eq_refl). lia.
Qed.

(** a returned request: the assertions held, [instance_properties] returned
    with the same events, and the request is built around its result *)
Lemma create_instances_request_inv nodes partition_name placement_group job t req :
  create_instances_request lookup instance_properties pre_instance_bulk_insert
    nodes partition_name placement_group job = (t, inr req) ->
  let model := hd "" nodes in
  let nodeset := node_nodeset lookup model in
  0 < List.length nodes <= BULK_INSERT_LIMIT /\
  (truthy placement_group = true -> List.length nodes <= PLACEMENT_MAX_CNT) /\
  exists props body,
    instance_properties nodeset model placement_group
      (job_labels lookup partition_name job) job = (t, inr props) /\
    req_project req = project lookup /\
    req_method req
      = match zone_policy_allow nodeset with
        | [z] => ZonalBulkInsert z
        | _ => RegionalBulkInsert (node_region lookup model)
        end /\
    req_body req
      = (if enable_slurm_gcp_plugins lookup
         then pre_instance_bulk_insert nodes placement_group body
         else body) /\
    count body = List.length nodes /\
    minCount body = (if truthy placement_group then None else Some 1) /\
    sourceInstanceTemplate body = node_template lookup model /\
    instanceProperties body = props /\
    perInstanceProperties body = keys (dict_of_items (map (fun k => (k, tt)) nodes)) /\
    locationPolicy body
      = match zone_policy_allow nodeset with
        | [z] => None
        | _ =>
            Some {| locations :=
                      dict_of_items
                        (map (fun z => (("zones/" ++ z)%string, "ALLOW"))
                             (zone_policy_allow nodeset) ++
                         map (fun z => (("zones/" ++ z)%string, "DENY"))
                             (zone_policy_deny nodeset));
                    targetShape := zone_target_shape nodeset |}
        end.
Proof.
  intros Hrun. cbn zeta.
  destruct (create_instances_request_asserted_dec nodes placement_group) as [[Hlen Hpg]|Hnot].
  2:{ rewrite (@create_instances_request_refused nodes partition_name placement_group job
                 Hnot) in Hrun. discriminate. }
  split; [exact Hlen|]. split; [exact Hpg|].
  destruct (@create_instances_request_run nodes partition_name placement_group job Hlen Hpg)
    as (build & Heq & Hbuild).
  rewrite Heq in Hrun. apply bind_ok in Hrun as (t1 & props & t2 & Hprops & Hret & ->).
  inversion Hret; subst. rewrite app_nil_r.
  destruct (Hbuild props) as (Hproj & Hmeth & body & Hbody).
  exists props, body. auto.
Qed.

(** the builder returns a request whenever its two assertions hold and
    [instance_properties] returns, with the events of that call *)
Lemma create_instances_request_returns nodes partition_name placement_group job t props :
  0 < List.length nodes <= BULK_INSERT_LIMIT ->
  (truthy placement_group = true -> List.length nodes <= PLACEMENT_MAX_CNT) ->
  instance_properties (node_nodeset lookup (hd "" nodes)) (hd "" nodes) placement_group
    (job_labels lookup partition_name job) job = (t, inr props) ->
  exists req,
    create_instances_request lookup instance_properties pre_instance_bulk_insert
      nodes partition_name placement_group job = (t, inr req).
Proof.
  intros Hlen Hpg Hprops.
  destruct (@create_instances_request_run nodes partition_name placement_group job Hlen Hpg)
    as (build & Heq & _).
  rewrite Heq, Hprops, bind_pair. unfold ret, prepend. cbn. rewrite app_nil_r. eauto.
Qed.


(** C7 (amended). With plugins disabled, or a plugin hook that leaves [count] and
    [minCount] as the builder set them, every request that the builder
    returns for a chunk has a [count] that is the number of nodes of the
    chunk, and a [minCount] that is absent exactly when a placement group is
    attached (the chunk's placement group is a non-empty name) and is 1
    otherwise. *)
Theorem C7_request_count_and_minCount (chunk : BulkChunk) t req :
  (enable_slurm_gcp_plugins lookup = true ->
   forall ns pg body,
     count (pre_instance_bulk_insert ns pg body) = count body /\
     minCount (pre_instance_bulk_insert ns pg body) = minCount body) ->
  create_instances_request lookup instance_properties pre_instance_bulk_insert
    (nodes chunk) (partition chunk) (placement_group chunk) (job_id chunk) = (t, inr req) ->
  count (req_body req) = List.length (nodes chunk) /\
  (minCount (req_body req) = None <-> placement_attached chunk = true) /\
  (placement_attached chunk = false -> minCount (req_body req) = Some 1).
Proof.
  intros Hhook Hrun. apply create_instances_request_inv in Hrun.
  destruct Hrun as (_ & _ & props & body & _ & _ & _ & Hbody & Hcount & Hmin & _).
  assert (Hfields : count (req_body req) = count body /\
                    minCount (req_body req) = minCount body).
  { rewrite Hbody. destruct (enable_slurm_gcp_plugins lookup); [|auto].
    apply Hhook. reflexivity. }
  destruct Hfields as [-> ->]. rewrite Hcount, Hmin. unfold placement_attached.
  destruct (truthy (placement_group chunk)).
  - split; [reflexivity|]. split; [tauto | discriminate].
  - split; [reflexivity|]. split; [split; discriminate | reflexivity].
Qed.

End RequestFacts.

(** the request for a chunk of two nodes under a placement group: the
    only event is the line that [instance_properties] logs *)
Lemma C7_request_count_and_minCount_witness :
  exists t req,
    create_instances_request Demo.lookup DemoRequest.instance_properties DemoRequest.no_plugin
      (nodes DemoRequest.placed_chunk) (partition DemoRequest.placed_chunk)
      (placement_group DemoRequest.placed_chunk) (job_id DemoRequest.placed_chunk)
      = (t, inr req) /\
    t <> [] /\
    count (req_body req) = List.length (nodes DemoRequest.placed_chunk) /\
    (minCount (req_body req) = None <-> placement_attached DemoRequest.placed_chunk = true) /\
    (placement_attached DemoRequest.placed_chunk = false -> minCount (req_body req) = Some 1).
Proof.
  eexists. eexists. split; [vm_compute; reflexivity|]. split; [discriminate|].
  eapply (@C7_request_count_and_minCount unit Demo.lookup DemoRequest.instance_properties
            DemoRequest.no_plugin DemoRequest.placed_chunk).
  - intros _ ns pg body. split; reflexivity.
  - vm_compute. reflexivity.
Defined.

(** a plugin that asks for one instance whatever the chunk: the request for
    a chunk of two nodes has a [count] of 1 *)
Lemma C7_plugin_rewrites_count :
  exists t req,
    create_instances_request DemoPlugin.lookup DemoRequest.instance_properties
      DemoPlugin.one_instance
      (nodes DemoRequest.placed_chunk) (partition DemoRequest.placed_chunk)
      (placement_group DemoRequest.placed_chunk) (job_id DemoRequest.placed_chunk)
      = (t, inr req) /\
    List.length (nodes DemoRequest.placed_chunk) = 2 /\
    count (req_body req) = 1 /\
    count (req_body req) <> List.length (nodes DemoRequest.placed_chunk).
Proof.
  eexists. eexists. split; [vm_compute; reflexivity|]. cbn. repeat split. discriminate.
Qed.

(** ** Grouping: what the code does on three small inputs *)

(** C1. Two jobless nodes of two different nodesets, none of which gets a
    placement group: the node of the first nodeset is in no chunk. The second
    "no placement group" bucket replaced the first one in
    [create_placement_groups]. *)
Theorem C1_group_nodes_bulk_drops_node :
  Demo.group_nodes Demo.fresh ["c-a-0"; "c-b-0"] None
    = ([], inr [("c-b:0", {| nodes := ["c-b-0"]; prefix := "c-b"; chunk_idx := 0;
                             job_id := None; partition := None;
                             placement_group := None |})]) /\
  create_placement_groups Demo.lookup Demo.fresh Demo.no_plugin Demo.hostlist
                          ["c-a-0"; "c-b-0"] 0%Z
    = ([], inr [(None, ["c-b-0"])]).
Proof. vm_compute. split; reflexivity. Qed.


(** C3. Two nodes of a nodeset with placement, resumed without a job, make one
    chunk with a placement group and no job id. The specified identifier of
    such a chunk is [{prefix}:{placement_group}:{chunk_index}], as the
    branches of [group_name] that test the job id word it; the placement
    branch formats the job id without that test, and the chunk stands under
    an identifier with the job part "jobNone". *)
Lemma C3_jobless_placement_name_has_job_part :
  let chunk := {| nodes := ["c-a-0"; "c-a-1"]; prefix := "c-a"; chunk_idx := 0;
                  job_id := None; partition := None;
                  placement_group := Some "c-slurmgcp-managed-a-0-0" |} in
  snd (Demo.group_nodes Demo.fresh ["c-a-0"; "c-a-1"] None)
    = inr [("c-a:jobNone:c-slurmgcp-managed-a-0-0:0", chunk)] /\
  spec_group_name chunk = "c-a:c-slurmgcp-managed-a-0-0:0" /\
  group_name chunk <> spec_group_name chunk.
Proof. vm_compute. repeat split. discriminate. Qed.

(** ** The job groups *)

Section GroupingFacts.

Variable lookup : Lookup.
Variable provider : Provider.
Variable pre_placement_group_insert : PolicyRequest -> PolicyRequest.
Variable to_hostlist_fast : list string -> string.
Variable lkp : Lookup.

Lemma job_groups_ok_set key group job_groups :
  job_groups_ok lookup lkp job_groups -> job_group_ok lookup lkp key group ->
  job_groups_ok lookup lkp (dict_set key group job_groups).
Proof.
  intros [Hnd Hall] Hok. split; [apply dict_set_NoDup; assumption|].
  intros k g Hin. apply dict_set_In_inv in Hin as [[-> ->]|Hin]; auto.
Qed.

Lemma restricted_entries (pgs : dict (option string) (list string)) nodes_resume node_list job :
  NoDup (keys pgs) ->
  (forall pg ns, In (pg, ns) pgs -> placement_entry_ok lookup node_list job pg ns) ->
  let restricted :=
    map (fun '(pg, pg_nodes) => (pg, sorted (set_inter (set_of pg_nodes) nodes_resume))) pgs in
  NoDup (keys restricted) /\
  forall pg ns, In (pg, ns) restricted ->
    match pg with
    | None => True
    | Some name =>
        List.length ns <= PLACEMENT_MAX_CNT /\
        exists model job i,
          name = placement_group_name (slurm_cluster_name lookup)
                   (nodeset_name (node_nodeset lookup model)) job i
    end.
Proof.
  intros Hnd Hok restricted. subst restricted. split.
  - unfold keys in *. rewrite map_map.
    rewrite map_ext with (g := fst) by (intros [pg ns]; reflexivity). assumption.
  - intros pg ns Hin. apply in_map_iff in Hin as ([pg0 ns0] & E & Hin). inversion E; subst.
    destruct (Hok _ _ Hin) as [_ Hpg]. destruct pg; [|exact I].
    destruct Hpg as (Hlen & model & i & Hname). split.
    + rewrite sorted_length.
      pose proof (set_inter_length (set_of ns0) nodes_resume).
      pose proof (set_of_length ns0). lia.
    + eauto.
Qed.

Lemma job_groups_of_jobs_ok nodes resume_data t job_groups :
  job_groups_of_jobs lookup provider pre_placement_group_insert to_hostlist_fast
                     lkp nodes resume_data = (t, inr job_groups) ->
  job_groups_ok lookup lkp job_groups.
Proof.
  unfold job_groups_of_jobs. intros Hrun.
  eapply (foldM_ok_inv (job_groups_ok lookup lkp)); [ | | exact Hrun].
  - intros acc job t' acc' _ Hacc Hstep.
    apply bind_ok in Hstep as (t1 & pgs & t2 & Hpgs & Hret & _).
    inversion Hret; subst. apply job_groups_ok_set; [assumption|].
    unfold job_group_ok. cbn [jg_placement_groups jg_job_id].
    destruct (partition_is_tpu lkp (rj_partition job)).
    + inversion Hpgs; subst. repeat split.
      * repeat constructor. intros [].
      * intros pg ns [E|[]]. inversion E. exact I.
    + apply bind_ok in Hpgs as (t3 & pgs0 & t4 & Hcall & Hret' & _).
      inversion Hret'; subst.
      apply create_placement_groups_entries in Hcall as [Hnd Hok].
      destruct (@restricted_entries pgs0 (set_inter nodes (set_of (rj_nodes_alloc job)))
                  _ _ Hnd Hok) as [Hnd' Hok'].
      repeat split; assumption.
  - split; [constructor | intros k g []].
Qed.

Lemma job_groups_of_ok nodes resume_data t job_groups :
  job_groups_of lookup provider pre_placement_group_insert to_hostlist_fast
                nodes resume_data lkp = (t, inr job_groups) ->
  job_groups_ok lookup lkp job_groups.
Proof.
  unfold job_groups_of, separate. intros Hrun.
  apply bind_ok in Hrun as (t1 & jgs & t2 & Hjobs & Hrest & _).
  apply bind_ok in Hrest as (t3 & normal & t4 & Hnormal & Hret & _).
  inversion Hret; subst. apply job_groups_of_jobs_ok in Hjobs.
  apply create_placement_groups_entries in Hnormal as [Hnd Hok].
  apply job_groups_ok_set; [apply job_groups_ok_set; [assumption|] |].
  - unfold job_group_ok. cbn [jg_placement_groups jg_job_id]. repeat split.
    + assumption.
    + intros pg ns Hin. destruct (Hok _ _ Hin) as [_ Hpg]. destruct pg; [|exact I].
      destruct Hpg as (Hlen & model & i & Hname). eauto.
    + exists false. split; [reflexivity|]. intros pg ns n Hin Hn.
      destruct (Hok _ _ Hin) as [Hsub _]. apply Hsub, sorted_In, filter_In in Hn as [_ Hn].
      apply negb_true_iff in Hn. assumption.
  - unfold job_group_ok. cbn [jg_placement_groups jg_job_id]. repeat split.
    + repeat constructor. intros [].
    + intros pg ns [E|[]]. inversion E. exact I.
    + exists true. split; [reflexivity|]. intros pg ns n [E|[]] Hn. inversion E; subst.
      apply sorted_In, filter_In in Hn as [_ Hn]. assumption.
Qed.

(** where a chunk of [grouped_nodes] comes from *)
Lemma grouped_nodes_In job_groups c :
  In c (grouped_nodes lkp job_groups) ->
  exists key group pg pg_nodes pfx bucket i chunk,
    In (key, group) job_groups /\
    In (pg, pg_nodes) (jg_placement_groups group) /\
    In (pfx, bucket) (groupby_unsorted pg_nodes (node_prefix lkp)) /\
    In (i, chunk) (enumerate (chunk_nodes lkp bucket)) /\
    c = {| nodes := chunk; prefix := pfx; chunk_idx := i; job_id := jg_job_id group;
           partition := jg_partition group; placement_group := pg |}.
Proof.
  unfold grouped_nodes, chunks_of_job. intros Hin.
  apply in_flat_map in Hin as (group & Hgroup & Hin).
  apply in_map_iff in Hgroup as ([key group'] & E & Hgroup). cbn in E. subst group'.
  apply in_flat_map in Hin as ([pg pg_nodes] & Hpg & Hin).
  apply in_flat_map in Hin as ([pfx bucket] & Hbucket & Hin).
  apply in_map_iff in Hin as ([i chunk] & <- & Hchunk).
  exists key, group, pg, pg_nodes, pfx, bucket, i, chunk. auto 6.
Qed.

(** what a chunk of a prefix bucket looks like *)
Lemma chunk_of_bucket pg_nodes pfx bucket i chunk :
  In (pfx, bucket) (groupby_unsorted pg_nodes (node_prefix lkp)) ->
  In (i, chunk) (enumerate (chunk_nodes lkp bucket)) ->
  chunk <> [] /\
  List.length chunk <= List.length pg_nodes /\
  (forall n, In n chunk -> In n pg_nodes /\ node_prefix lkp n = pfx) /\
  exists first,
    In first bucket /\
    List.length chunk <=
      if node_is_tpu lkp first then tpu_vmcount lkp (node_nodeset lkp first)
      else BULK_INSERT_LIMIT.
Proof.
  intros Hbucket Hchunk. apply enumerate_In in Hchunk. unfold chunk_nodes in Hchunk.
  apply chunked_In in Hchunk as (Hne & Hsize & Hlen & Hsub).
  pose proof (groupby_unsorted_length _ _ _ _ Hbucket) as Hblen.
  split; [assumption|]. split; [lia|]. split.
  - intros n Hn.
    apply (@groupby_unsorted_member string string _ (node_prefix lkp) pg_nodes pfx bucket n
             Hbucket (Hsub n Hn)).
  - destruct bucket as [|first rest].
    + destruct chunk; [congruence | cbn in Hlen; lia].
    + exists first. split; [left; reflexivity | exact Hsize].
Qed.

Lemma group_nodes_bulk_inv node_list resume_data t m :
  group_nodes_bulk lookup provider pre_placement_group_insert to_hostlist_fast
                   node_list resume_data lkp = (t, inr m) ->
  exists job_groups,
    job_groups_of lookup provider pre_placement_group_insert to_hostlist_fast
                  node_list resume_data lkp = (t, inr job_groups) /\
    m = dict_of_items (map (fun chunk => (group_name chunk, chunk))
                           (grouped_nodes lkp job_groups)).
Proof.
  unfold group_nodes_bulk. intros Hrun.
  apply bind_ok in Hrun as (t1 & job_groups & t2 & Hjobs & Hret & ->).
  inversion Hret; subst. rewrite app_nil_r. eauto.
Qed.

(** where a chunk of the returned mapping comes from *)
Lemma group_nodes_bulk_chunk node_list resume_data t m g c :
  group_nodes_bulk lookup provider pre_placement_group_insert to_hostlist_fast
                   node_list resume_data lkp = (t, inr m) ->
  In (g, c) m ->
  g = group_name c /\
  exists key group pg_nodes pfx bucket,
    job_group_ok lookup lkp key group /\
    In (placement_group c, pg_nodes) (jg_placement_groups group) /\
    In (pfx, bucket) (groupby_unsorted pg_nodes (node_prefix lkp)) /\
    In (chunk_idx c, nodes c) (enumerate (chunk_nodes lkp bucket)) /\
    prefix c = pfx /\ job_id c = jg_job_id group.
Proof.
  intros Hrun Hin. apply group_nodes_bulk_inv in Hrun as (job_groups & Hjobs & ->).
  apply dict_of_items_In_inv, in_map_iff in Hin as (c' & E & Hin). inversion E; subst.
  split; [reflexivity|].
  apply job_groups_of_ok in Hjobs as [_ Hok].
  apply grouped_nodes_In in Hin
    as (key & group & pg & pg_nodes & pfx & bucket & i & chunk & Hg & Hpg & Hb & Hc & ->).
  exists key, group, pg_nodes, pfx, bucket. cbn. auto 7.
Qed.



(** *** The input as a set *)

Lemma job_groups_of_jobs_same_set s1 s2 resume_data :
  same_set s1 s2 ->
  job_groups_of_jobs lookup provider pre_placement_group_insert to_hostlist_fast
                     lkp s1 resume_data
  = job_groups_of_jobs lookup provider pre_placement_group_insert to_hostlist_fast
                       lkp s2 resume_data.
Proof.
  intros Hsame. unfold job_groups_of_jobs. apply foldM_ext. intros acc job _.
  pose proof (same_set_filter (fun x => mem x (set_of (rj_nodes_alloc job))) Hsame) as Hres.
  fold (set_inter s1 (set_of (rj_nodes_alloc job))) in Hres.
  fold (set_inter s2 (set_of (rj_nodes_alloc job))) in Hres.
  destruct (partition_is_tpu lkp (rj_partition job)).
  - rewrite (same_set_sorted Hres). reflexivity.
  - f_equal. apply bind_ext. intros pgs. f_equal. apply map_ext. intros [pg pg_nodes].
    f_equal. f_equal. unfold set_inter at 1 3. apply filter_ext. intros x.
    apply same_set_mem. assumption.
Qed.

(** C10. Two input lists with the same node names, in whatever order and with
    whatever repetitions, give the same result: the same events, and the same
    mapping from group identifier to chunk (or the same exception). *)
Theorem C10_input_order_and_duplicates_irrelevant nodes1 nodes2 resume_data :
  (forall n, In n nodes1 <-> In n nodes2) ->
  group_nodes_bulk lookup provider pre_placement_group_insert to_hostlist_fast
                   nodes1 resume_data lkp
  = group_nodes_bulk lookup provider pre_placement_group_insert to_hostlist_fast
                     nodes2 resume_data lkp.
Proof.
  intros Hsame. apply same_set_of in Hsame.
  unfold group_nodes_bulk, job_groups_of, separate.
  rewrite (job_groups_of_jobs_same_set _ Hsame).
  set (taken := concat (map rj_nodes_alloc
                          (jobs match resume_data with
                                | Some r => r
                                | None => {| jobs := [] |}
                                end))).
  pose proof (same_set_filter (fun x => negb (mem x taken)) Hsame) as Hjobless.
  fold (set_diff (set_of nodes1) taken) in Hjobless.
  fold (set_diff (set_of nodes2) taken) in Hjobless.
  rewrite (same_set_sorted (same_set_filter (fun x => negb (node_is_tpu lkp x)) Hjobless)).
  rewrite (same_set_sorted (same_set_filter (node_is_tpu lkp) Hjobless)).
  reflexivity.
Qed.

(** *** Identifiers are not shared *)

Section Names.

Hypothesis cluster_no_colon : has_char ":" (slurm_cluster_name lookup) = false.
Hypothesis nodeset_no_colon :
  forall n, has_char ":" (nodeset_name (node_nodeset lookup n)) = false.
Hypothesis prefix_no_colon : forall n, has_char ":" (node_prefix lkp n) = false.
Hypothesis prefix_kind :
  forall a b, node_prefix lkp a = node_prefix lkp b -> node_is_tpu lkp a = node_is_tpu lkp b.

Lemma chunk_context key group pg pg_nodes pfx bucket b :
  job_group_ok lookup lkp key group ->
  In (pg, pg_nodes) (jg_placement_groups group) ->
  In (pfx, bucket) (groupby_unsorted pg_nodes (node_prefix lkp)) ->
  In b (chunks_of_prefix lkp group pg (pfx, bucket)) ->
  well_named b /\ prefix b = pfx /\ placement_group b = pg /\
  job_id b = jg_job_id group /\
  (exists chunk, In (chunk_idx b, chunk) (enumerate (chunk_nodes lkp bucket))) /\
  exists n, In n pg_nodes /\ node_prefix lkp n = pfx.
Proof.
  intros (_ & Hentries & _) Hpg Hbucket Hb. unfold chunks_of_prefix in Hb.
  apply in_map_iff in Hb as ([i chunk] & <- & Hchunk). cbn.
  destruct (@chunk_of_bucket pg_nodes pfx bucket i chunk Hbucket Hchunk)
    as (Hne & _ & Hmem & _).
  assert (Hn : exists n, In n pg_nodes /\ node_prefix lkp n = pfx).
  { destruct chunk as [|n rest]; [congruence|]. exists n. apply Hmem. left. reflexivity. }
  repeat split; try reflexivity; [ | | eauto | exact Hn].
  - destruct Hn as (n & _ & <-). apply prefix_no_colon.
  - intros name Hname. cbn in Hname. subst pg. specialize (Hentries _ _ Hpg). cbn in Hentries.
    destruct Hentries as (_ & model & job & i' & ->).
    apply placement_group_name_no_colon; [apply cluster_no_colon | apply nodeset_no_colon].
Qed.

Lemma chunks_of_prefix_NoDup key group pg pg_nodes pfx bucket :
  job_group_ok lookup lkp key group ->
  In (pg, pg_nodes) (jg_placement_groups group) ->
  In (pfx, bucket) (groupby_unsorted pg_nodes (node_prefix lkp)) ->
  NoDup (map group_name (chunks_of_prefix lkp group pg (pfx, bucket))).
Proof.
  intros Hok Hpg Hbucket. unfold chunks_of_prefix. rewrite map_map.
  pose proof (enumerate_NoDup (chunk_nodes lkp bucket)) as Hnd.
  apply NoDup_map_inj; [|apply NoDup_map_inv in Hnd; assumption].
  intros [i1 c1] [i2 c2] H1 H2 E.
  assert (Hin : forall i c, In (i, c) (enumerate (chunk_nodes lkp bucket)) ->
            well_named {| nodes := c; prefix := pfx; chunk_idx := i;
                          job_id := jg_job_id group; partition := jg_partition group;
                          placement_group := pg |}).
  { intros i c Hic. eapply chunk_context; try eassumption.
    unfold chunks_of_prefix. apply in_map_iff. exists (i, c). auto. }
  apply group_name_inj in E as (_ & _ & _ & Hidx); [|auto..]. cbn in Hidx. subst i2.
  f_equal. eapply keys_functional; eassumption.
Qed.

Lemma chunks_of_placement_NoDup key group pg pg_nodes :
  job_group_ok lookup lkp key group ->
  In (pg, pg_nodes) (jg_placement_groups group) ->
  NoDup (map group_name (chunks_of_placement lkp group (pg, pg_nodes))).
Proof.
  intros Hok Hpg. unfold chunks_of_placement. apply NoDup_flat_map_names.
  - intros [pfx bucket] Hbucket. eapply chunks_of_prefix_NoDup; eassumption.
  - apply ForallOrdPairs_by_key with (key := fst).
    + apply (groupby_unsorted_NoDup (node_prefix lkp) pg_nodes).
    + intros [pfx1 b1] [pfx2 b2] H1 H2 Hne c1 c2 Hc1 Hc2 E. cbn in Hne.
      destruct (@chunk_context key group pg pg_nodes pfx1 b1 c1 Hok Hpg H1 Hc1) as (Hw1 & P1 & _).
      destruct (@chunk_context key group pg pg_nodes pfx2 b2 c2 Hok Hpg H2 Hc2) as (Hw2 & P2 & _).
      apply group_name_inj in E as (Hpfx & _); [|assumption..]. congruence.
Qed.

Lemma chunks_of_job_In group b :
  In b (chunks_of_job lkp group) ->
  exists pg pg_nodes pfx bucket,
    In (pg, pg_nodes) (jg_placement_groups group) /\
    In (pfx, bucket) (groupby_unsorted pg_nodes (node_prefix lkp)) /\
    In b (chunks_of_prefix lkp group pg (pfx, bucket)).
Proof.
  unfold chunks_of_job. intros Hb.
  apply in_flat_map in Hb as ([pg pg_nodes] & Hpg & Hb).
  apply in_flat_map in Hb as ([pfx bucket] & Hbucket & Hb).
  exists pg, pg_nodes, pfx, bucket. auto.
Qed.

Lemma chunks_of_job_NoDup key group :
  job_group_ok lookup lkp key group ->
  NoDup (map group_name (chunks_of_job lkp group)).
Proof.
  intros Hok. unfold chunks_of_job. apply NoDup_flat_map_names.
  - intros [pg pg_nodes] Hpg. eapply chunks_of_placement_NoDup; eassumption.
  - apply ForallOrdPairs_by_key with (key := fst).
    + apply Hok.
    + intros [pg1 ns1] [pg2 ns2] H1 H2 Hne c1 c2 Hc1 Hc2 E. cbn in Hne.
      apply in_flat_map in Hc1 as ([pfx1 b1] & Hb1 & Hc1).
      apply in_flat_map in Hc2 as ([pfx2 b2] & Hb2 & Hc2).
      destruct (@chunk_context key group pg1 ns1 pfx1 b1 c1 Hok H1 Hb1 Hc1) as (Hw1 & _ & P1 & _).
      destruct (@chunk_context key group pg2 ns2 pfx2 b2 c2 Hok H2 Hb2 Hc2) as (Hw2 & _ & P2 & _).
      apply group_name_inj in E as (_ & _ & Hpg & _); [|assumption..]. congruence.
Qed.

Lemma grouped_nodes_NoDup job_groups :
  job_groups_ok lookup lkp job_groups ->
  NoDup (map group_name (grouped_nodes lkp job_groups)).
Proof.
  intros [Hnd Hall]. unfold grouped_nodes, values. rewrite flat_map_map.
  apply NoDup_flat_map_names.
  - intros [key group] Hin. eapply chunks_of_job_NoDup. apply Hall. exact Hin.
  - apply ForallOrdPairs_by_key with (key := fst); [exact Hnd|].
    intros [k1 g1] [k2 g2] H1 H2 Hne c1 c2 Hc1 Hc2 E. cbn in Hne, Hc1, Hc2.
    pose proof (Hall _ _ H1) as Hok1. pose proof (Hall _ _ H2) as Hok2.
    apply chunks_of_job_In in Hc1 as (pg1 & ns1 & pfx1 & b1 & Hpg1 & Hb1 & Hc1).
    apply chunks_of_job_In in Hc2 as (pg2 & ns2 & pfx2 & b2 & Hpg2 & Hb2 & Hc2).
    destruct (@chunk_context k1 g1 pg1 ns1 pfx1 b1 c1 Hok1 Hpg1 Hb1 Hc1)
      as (Hw1 & P1 & _ & J1 & _ & n1 & Hn1 & Hp1).
    destruct (@chunk_context k2 g2 pg2 ns2 pfx2 b2 c2 Hok2 Hpg2 Hb2 Hc2)
      as (Hw2 & P2 & _ & J2 & _ & n2 & Hn2 & Hp2).
    apply group_name_inj in E as (Hpfx & Hjob & _); [|assumption..].
    destruct Hok1 as (_ & _ & Hk1), Hok2 as (_ & _ & Hk2).
    destruct k1 as [j1|s1], k2 as [j2|s2].
    + apply Hne. congruence.
    + destruct Hk2 as [Hk2 _]. congruence.
    + destruct Hk1 as [Hk1 _]. congruence.
    + destruct Hk1 as (_ & tpu1 & -> & Ht1), Hk2 as (_ & tpu2 & -> & Ht2).
      assert (Etpu : tpu1 = tpu2).
      { rewrite <- (Ht1 _ _ _ Hpg1 Hn1), <- (Ht2 _ _ _ Hpg2 Hn2).
        apply prefix_kind. congruence. }
      apply Hne. subst. reflexivity.
Qed.

(** X21. The identifiers of one grouping. Assume that cluster name, nodeset names
    and node prefixes hold no ":" and that nodes with the same prefix are of
    the same kind. In the returned mapping every chunk stands under its
    identifier. The identifier is the one the specification words whenever
    the chunk has a job id or has no placement group; for a chunk with a
    placement group and no job id the placement branch of [group_name]
    formats the missing job id. No two chunks built by the grouping share an
    identifier, so the mapping holds all of them. *)
Theorem X21_group_identifiers_distinct node_list resume_data t m :
  group_nodes_bulk lookup provider pre_placement_group_insert to_hostlist_fast
                   node_list resume_data lkp = (t, inr m) ->
  (forall g c, In (g, c) m ->
     (job_id c <> None \/ placement_group c = None -> g = spec_group_name c) /\
     (forall pg, job_id c = None -> placement_group c = Some pg ->
                 g = (prefix c ++ ":jobNone:" ++ pg ++ ":" ++ str_of_nat (chunk_idx c))%string)) /\
  exists job_groups,
    job_groups_of lookup provider pre_placement_group_insert to_hostlist_fast
                  node_list resume_data lkp = (t, inr job_groups) /\
    NoDup (map group_name (grouped_nodes lkp job_groups)) /\
    m = map (fun chunk => (group_name chunk, chunk)) (grouped_nodes lkp job_groups).
Proof.
  intros Hrun. split.
  - intros g c Hin.
    destruct (@group_nodes_bulk_chunk node_list resume_data t m g c Hrun Hin) as [-> _].
    split; [apply group_name_spec_agree|].
    intros pg Hjob Hpg. unfold group_name. rewrite Hpg, Hjob. reflexivity.
  - apply group_nodes_bulk_inv in Hrun as (job_groups & Hjobs & ->).
    exists job_groups. split; [assumption|].
    pose proof (@grouped_nodes_NoDup job_groups (@job_groups_of_ok node_list resume_data t job_groups Hjobs)) as Hnd.
    split; [assumption|]. apply dict_of_items_fresh.
    unfold keys. rewrite map_map. cbn. assumption.
Qed.

End Names.

End GroupingFacts.

(** ** The small cluster meets the assumptions *)

Lemma demo_nodeset_name_cases node :
  Demo.nodeset_name_of node = "a" \/ Demo.nodeset_name_of node = "t" \/
  Demo.nodeset_name_of node = "b".
Proof.
  unfold Demo.nodeset_name_of.
  destruct (String.prefix "c-a-" node); [auto|]. destruct (String.prefix "c-t-" node); auto.
Qed.

Lemma demo_prefix_kind a b :
  node_prefix Demo.lookup a = node_prefix Demo.lookup b ->
  node_is_tpu Demo.lookup a = node_is_tpu Demo.lookup b /\
  node_nodeset Demo.lookup a = node_nodeset Demo.lookup b.
Proof.
  cbn. intros E. injection E as E. unfold Demo.nodeset_of. rewrite E. split; reflexivity.
Qed.

Lemma demo_prefix_no_colon node : has_char ":" (node_prefix Demo.lookup node) = false.
Proof.
  cbn [node_prefix Demo.lookup].
  destruct (demo_nodeset_name_cases node) as [-> | [-> | ->]]; reflexivity.
Qed.

Lemma demo_nodeset_no_colon node :
  has_char ":" (nodeset_name (node_nodeset Demo.lookup node)) = false.
Proof.
  cbn [node_nodeset Demo.lookup Demo.nodeset_of nodeset_name].
  destruct (demo_nodeset_name_cases node) as [-> | [-> | ->]]; reflexivity.
Qed.



(** the mapping for two jobless nodes under a placement group *)
Lemma X21_group_identifiers_distinct_witness :
  let node_list := ["c-a-0"; "c-a-1"] in
  let t := fst (Demo.group_nodes Demo.fresh node_list None) in
  let chunk := {| nodes := node_list; prefix := "c-a"; chunk_idx := 0; job_id := None;
                  partition := None; placement_group := Some "c-slurmgcp-managed-a-0-0" |} in
  let m := [("c-a:jobNone:c-slurmgcp-managed-a-0-0:0", chunk)] in
  (forall g c, In (g, c) m ->
     (job_id c <> None \/ placement_group c = None -> g = spec_group_name c) /\
     (forall pg, job_id c = None -> placement_group c = Some pg ->
                 g = (prefix c ++ ":jobNone:" ++ pg ++ ":" ++ str_of_nat (chunk_idx c))%string)) /\
  exists job_groups,
    job_groups_of Demo.lookup Demo.fresh Demo.no_plugin Demo.hostlist node_list None Demo.lookup
      = (t, inr job_groups) /\
    NoDup (map group_name (grouped_nodes Demo.lookup job_groups)) /\
    m = map (fun chunk => (group_name chunk, chunk)) (grouped_nodes Demo.lookup job_groups).
Proof.
  intros node_list t chunk m.
  apply X21_group_identifiers_distinct
    with (lookup := Demo.lookup) (provider := Demo.fresh)
         (pre_placement_group_insert := Demo.no_plugin) (to_hostlist_fast := Demo.hostlist)
         (lkp := Demo.lookup) (node_list := node_list) (resume_data := None).
  - reflexivity.
  - apply demo_nodeset_no_colon.
  - apply demo_prefix_no_colon.
  - intros a b E. apply demo_prefix_kind. exact E.
  - vm_compute. reflexivity.
Defined.

(** the same three nodes, shuffled and with one of them repeated *)
Lemma C10_input_order_and_duplicates_irrelevant_witness :
  let resume_data :=
    Some {| jobs := [ {| rj_job_id := 7; rj_partition := "p";
                         rj_nodes_alloc := ["c-a-0"; "c-a-1"; "c-a-2"] |} ] |} in
  Demo.group_nodes Demo.existing ["c-a-1"; "c-b-0"; "c-a-0"; "c-a-1"] resume_data
  = Demo.group_nodes Demo.existing ["c-a-0"; "c-a-1"; "c-b-0"] resume_data.
Proof.
  intros resume_data. unfold Demo.group_nodes.
  apply C10_input_order_and_duplicates_irrelevant.
  intros n. cbn. tauto.
Defined.

(** * Further properties of resume.py *)

(** ** valid_placement_nodes *)

Section ValidPlacement.

Variable lookup : Lookup.

(** X1. [valid_placement_nodes] answers True, and logs nothing, when no node of
    the list has a machine type of a disallowed family. Otherwise it answers
    False and its only events are the two warnings about the first such node:
    one with its machine type, one with the disallowed families, joined with
    "," in the order in which their set yields them. The nodes after it are
    not looked at. *)
Theorem X1_valid_placement_nodes_first_offender nodelist :
  ((forall n, In n nodelist -> ~ disallowed_family lookup n) ->
   valid_placement_nodes lookup nodelist = ([], inr true)) /\
  (forall before node rest,
     nodelist = before ++ node :: rest ->
     (forall n, In n before -> ~ disallowed_family lookup n) ->
     disallowed_family lookup node ->
     valid_placement_nodes lookup nodelist
       = ([EvLog WARNING ("Unsupported machine type for placement policy: "
                            ++ node_machine_type lookup node ++ ".")%string;
           EvLogSet WARNING
             "Please do not use any the following machine types with placement policy: ("
             "," invalid_types ")"],
          inr false)).
Proof.
  split.
  - induction nodelist as [|n l IH]; intros Hok; cbn [valid_placement_nodes]; [reflexivity|].
    destruct (mem _ invalid_types) eqn:E.
    + apply mem_In in E. destruct (Hok n (or_introl eq_refl) E).
    + apply IH. intros x Hx. apply Hok. right. assumption.
  - intros before. revert nodelist.
    induction before as [|b before IH]; intros nodelist node rest -> Hbefore Hbad.
    + cbn [app valid_placement_nodes]. apply mem_In in Hbad. rewrite Hbad. reflexivity.
    + cbn [app valid_placement_nodes]. destruct (mem _ invalid_types) eqn:E.
      * apply mem_In in E. destruct (Hbefore b (or_introl eq_refl) E).
      * apply (IH _ node rest eq_refl); [|assumption].
        intros x Hx. apply Hbefore. right. assumption.
Qed.

(** the events of [valid_placement_nodes] are none, or two warnings *)
Lemma valid_placement_nodes_events nodelist :
  fst (valid_placement_nodes lookup nodelist) = [] \/
  exists w1 before sep items after,
    fst (valid_placement_nodes lookup nodelist)
      = [EvLog WARNING w1; EvLogSet WARNING before sep items after].
Proof.
  induction nodelist as [|n l IH]; cbn [valid_placement_nodes]; [left; reflexivity|].
  destruct (mem _ invalid_types); [|assumption]. right. eexists _, _, _, _, _. reflexivity.
Qed.

End ValidPlacement.

(** ** Later bindings win *)

Section DictLast.

Context {K : Type} `{Hashable K} {V : Type}.

Lemma dict_update_app (d : dict K V) items1 items2 :
  dict_update d (items1 ++ items2) = dict_update (dict_update d items1) items2.
Proof. unfold dict_update. apply fold_left_app. Qed.

Lemma dict_update_In_old (d : dict K V) items k v :
  ~ In k (keys items) -> In (k, v) d -> In (k, v) (dict_update d items).
Proof.
  unfold dict_update. revert d.
  induction items as [|[k0 v0] items IH]; cbn [fold_left fst snd]; intros d Hnin Hin;
    [assumption|].
  apply IH.
  - intros Hk. apply Hnin. right. assumption.
  - apply dict_set_In_old; [|assumption]. intros ->. apply Hnin. left. reflexivity.
Qed.

Lemma In_keys_dec (k : K) (items : list (K * V)) : In k (keys items) \/ ~ In k (keys items).
Proof.
  destruct (existsb (key_eqb k) (keys items)) eqn:E.
  - left. apply existsb_key_In. assumption.
  - right. intros Hin. apply existsb_key_In in Hin. congruence.
Qed.

(** a key bound to one value throughout [items] is bound to it afterwards *)
Lemma dict_update_In_agree (d : dict K V) items k v :
  In (k, v) items -> (forall v', In (k, v') items -> v' = v) ->
  In (k, v) (dict_update d items).
Proof.
  revert d. induction items as [|[k0 v0] items IH]; intros d Hin Hagree; [destruct Hin|].
  change (dict_update d ((k0, v0) :: items)) with (dict_update (dict_set k0 v0 d) items).
  destruct (In_keys_dec k items) as [Hk|Hk].
  - apply in_map_iff in Hk as ([k' v'] & E & Hin'). cbn in E. subst k'.
    assert (v' = v) by (apply Hagree; right; assumption). subst v'.
    apply IH; [assumption|]. intros w Hw. apply Hagree. right. assumption.
  - destruct Hin as [E|Hin].
    + inversion E; subst. apply dict_update_In_old; [assumption | apply dict_set_In_new].
    + exfalso. apply Hk. change k with (fst (k, v)). apply in_map. assumption.
Qed.

End DictLast.

(** ** create_instances_request *)

Section RequestMore.

Variable Props : Type.
Variable lookup : Lookup.
Variable instance_properties :
  Nodeset -> string -> option string -> option Z -> option Z -> M Props.
Variable pre_instance_bulk_insert :
  list string -> option string -> BulkBody Props -> BulkBody Props.

(** X2. The request builder checks its two assertions first: the node list is
    non-empty and of at most 5000 nodes, and of at most 150 nodes when a
    placement group is given. When one of them fails it ends in an
    AssertionError before [instance_properties] is called, with no recorded
    event. When both hold it calls [instance_properties] for the first node:
    if that call returns, the builder returns a request around its result,
    with the recorded events of the call and no other; if that call fails,
    the builder fails with the same exception and the same events. So a
    request is returned only when both assertions hold. *)
Theorem X2_create_instances_request_assertions node_list partition_name placement_group job :
  let run := create_instances_request lookup instance_properties pre_instance_bulk_insert
               node_list partition_name placement_group job in
  let properties :=
    instance_properties (node_nodeset lookup (hd "" node_list)) (hd "" node_list)
                        placement_group (job_labels lookup partition_name job) job in
  let asserted :=
    0 < List.length node_list <= BULK_INSERT_LIMIT /\
    (truthy placement_group = true -> List.length node_list <= PLACEMENT_MAX_CNT) in
  (~ asserted -> run = ([], inl AssertionError)) /\
  (asserted ->
   (forall t props, properties = (t, inr props) ->
      exists req, run = (t, inr req) /\
                  (enable_slurm_gcp_plugins lookup = false ->
                   instanceProperties (req_body req) = props)) /\
   (forall t e, properties = (t, inl e) -> run = (t, inl e))) /\
  (forall t req, run = (t, inr req) ->
     asserted /\ exists props, properties = (t, inr props)).
Proof.
  cbn zeta. split; [|split].
  - intros Hnot.
    apply (@create_instances_request_refused Props lookup instance_properties
             pre_instance_bulk_insert node_list partition_name placement_group job Hnot).
  - intros [Hlen Hpg].
    destruct (@create_instances_request_run Props lookup instance_properties
                pre_instance_bulk_insert node_list partition_name placement_group job
                Hlen Hpg) as (build & Heq & Hbuild).
    split.
    + intros t props Hprops. exists (build props). split.
      * rewrite Heq, Hprops. unfold bind, ret. cbn. rewrite app_nil_r. reflexivity.
      * intros Hplug. destruct (Hbuild props) as (_ & _ & body & Hbody & _ & _ & _ & Hip & _).
        rewrite Hbody, Hplug. exact Hip.
    + intros t e Hprops. rewrite Heq, Hprops. reflexivity.
  - intros t req Hrun.
    apply create_instances_request_inv in Hrun.
    destruct Hrun as (Hlen & Hpg & props & body & Hprops & _).
    split; [split; assumption|]. exists props. exact Hprops.
Qed.

(** the [locations] of a regional request *)
Lemma zone_locations allow deny :
  let locations :=
    dict_of_items (map (fun z => (("zones/" ++ z)%string, "ALLOW")) allow ++
                   map (fun z => (("zones/" ++ z)%string, "DENY")) deny) in
  NoDup (keys locations) /\
  (forall z, In z deny -> In (("zones/" ++ z)%string, "DENY") locations) /\
  (forall z, In z allow -> ~ In z deny -> In (("zones/" ++ z)%string, "ALLOW") locations) /\
  (forall k v, In (k, v) locations ->
     exists z, k = ("zones/" ++ z)%string /\
               ((v = "DENY" /\ In z deny) \/ (v = "ALLOW" /\ In z allow /\ ~ In z deny))).
Proof.
  intros locations.
  assert (Hnd : NoDup (keys locations)) by apply dict_of_items_NoDup.
  assert (Hdeny : forall z, In z deny -> In (("zones/" ++ z)%string, "DENY") locations).
  { intros z Hz. unfold locations, dict_of_items. rewrite dict_update_app.
    apply dict_update_In_agree.
    - apply in_map_iff. exists z. auto.
    - intros v' Hv'. apply in_map_iff in Hv' as (z' & E & _). inversion E. reflexivity. }
  split; [assumption|]. split; [assumption|]. split.
  - intros z Hallow Hnot. unfold locations, dict_of_items. rewrite dict_update_app.
    apply dict_update_In_old.
    + intros Hk. apply in_map_iff in Hk as ([k v] & E & Hin). cbn in E. subst k.
      apply in_map_iff in Hin as (z' & E & Hz'). inversion E; subst. tauto.
    + apply dict_update_In_agree.
      * apply in_map_iff. exists z. auto.
      * intros v' Hv'. apply in_map_iff in Hv' as (z' & E & _). inversion E. reflexivity.
  - intros k v Hin. pose proof Hin as Hin'. apply dict_of_items_In_inv, in_app_or in Hin'.
    destruct Hin' as [Ha|Hd].
    + apply in_map_iff in Ha as (z & E & Hz). inversion E; subst. exists z.
      split; [reflexivity|]. right. repeat split; try assumption.
      intros Hzd. specialize (Hdeny z Hzd).
      assert (Habs : "ALLOW" = "DENY") by (eapply keys_functional; eassumption).
      discriminate.
    + apply in_map_iff in Hd as (z & E & Hz). inversion E; subst. exists z. auto.
Qed.

(** X3. With plugins disabled, a returned request targets zones as the
    nodeset of the first node says. With exactly one allowed zone it is a
    zonal bulk insert in that zone, without location policy. Otherwise it is
    a regional one in the first node's region, with the nodeset's target
    shape and one preference per listed zone: DENY for every denied zone,
    ALLOW for every allowed zone that is not denied, and nothing else. *)
Theorem X3_create_instances_request_zones node_list partition_name placement_group job
    t req :
  enable_slurm_gcp_plugins lookup = false ->
  create_instances_request lookup instance_properties pre_instance_bulk_insert
    node_list partition_name placement_group job = (t, inr req) ->
  let nodeset := node_nodeset lookup (hd "" node_list) in
  let allow := zone_policy_allow nodeset in
  let deny := zone_policy_deny nodeset in
  (forall z, allow = [z] ->
     req_method req = ZonalBulkInsert z /\ locationPolicy (req_body req) = None) /\
  (List.length allow <> 1 ->
     req_method req = RegionalBulkInsert (node_region lookup (hd "" node_list)) /\
     exists policy,
       locationPolicy (req_body req) = Some policy /\
       targetShape policy = zone_target_shape nodeset /\
       NoDup (keys (locations policy)) /\
       (forall z, In z deny -> In (("zones/" ++ z)%string, "DENY") (locations policy)) /\
       (forall z, In z allow -> ~ In z deny ->
                  In (("zones/" ++ z)%string, "ALLOW") (locations policy)) /\
       (forall k v, In (k, v) (locations policy) ->
          exists z, k = ("zones/" ++ z)%string /\
                    ((v = "DENY" /\ In z deny) \/
                     (v = "ALLOW" /\ In z allow /\ ~ In z deny)))).
Proof.
  intros Hplug Hrun. cbn zeta.
  apply create_instances_request_inv in Hrun.
  destruct Hrun as (_ & _ & props & body & _ & _ & Hmethod & Hbody & _ & _ & _ & _ & _ & Hloc).
  rewrite Hplug in Hbody. rewrite Hbody, Hmethod, Hloc.
  set (allow := zone_policy_allow (node_nodeset lookup (hd "" node_list))) in *.
  set (deny := zone_policy_deny (node_nodeset lookup (hd "" node_list))) in *.
  destruct (zone_locations allow deny) as (Hnd & Hd & Ha & Hinv).
  destruct allow as [|z [|z' zs]] eqn:Eallow; cbn.
  - split; [intros z E; discriminate|]. intros _. split; [reflexivity|].
    eexists. split; [reflexivity|]. cbn. auto.
  - split; [intros z0 E; inversion E; auto | intros Hn; congruence].
  - split; [intros z0 E; discriminate|]. intros _. split; [reflexivity|].
    eexists. split; [reflexivity|]. cbn. auto.
Qed.

(** X4. With plugins disabled, a returned request carries the template of the
    first node and names every node once: its per-instance entries have no
    duplicates and are the nodes of the list. For a list without duplicates
    they are the list itself, so that [count] is their number. *)
Theorem X4_create_instances_request_instances node_list partition_name placement_group job
    t req :
  enable_slurm_gcp_plugins lookup = false ->
  create_instances_request lookup instance_properties pre_instance_bulk_insert
    node_list partition_name placement_group job = (t, inr req) ->
  let per_instance := perInstanceProperties (req_body req) in
  req_project req = project lookup /\
  sourceInstanceTemplate (req_body req) = node_template lookup (hd "" node_list) /\
  NoDup per_instance /\
  (forall n, In n per_instance <-> In n node_list) /\
  (NoDup node_list ->
   per_instance = node_list /\ count (req_body req) = List.length per_instance).
Proof.
  intros Hplug Hrun. cbn zeta.
  apply create_instances_request_inv in Hrun.
  destruct Hrun as (_ & _ & props & body & _ & Hproj & _ & Hbody & Hcount & _ & Htpl & _
                    & Hper & _).
  rewrite Hplug in Hbody. rewrite Hbody, Hper, Htpl, Hcount.
  assert (Hkeys : map fst (map (fun k : string => (k, tt)) node_list) = node_list).
  { rewrite map_map. cbn. apply map_id. }
  split; [assumption|]. split; [reflexivity|]. split; [apply dict_of_items_NoDup|]. split.
  - intros n. rewrite dict_of_items_In_keys. unfold keys. rewrite Hkeys. tauto.
  - intros Hnd. rewrite dict_of_items_fresh by (unfold keys; rewrite Hkeys; assumption).
    unfold keys. rewrite Hkeys. auto.
Qed.

End RequestMore.

(** a request for the two placed nodes of the small cluster, whose nodesets
    allow one zone *)
Lemma X3_create_instances_request_zones_witness :
  exists t req,
    create_instances_request Demo.lookup DemoRequest.instance_properties DemoRequest.no_plugin
      ["c-a-0"; "c-a-1"] (Some "p") (Some "c-slurmgcp-managed-a-7-0") (Some 7%Z)
      = (t, inr req) /\
    t <> [] /\
    (forall z, zone_policy_allow (node_nodeset Demo.lookup "c-a-0") = [z] ->
       req_method req = ZonalBulkInsert z /\ locationPolicy (req_body req) = None).
Proof.
  eexists _, _. split; [vm_compute; reflexivity|]. split; [discriminate|].
  eapply (@X3_create_instances_request_zones unit Demo.lookup
            DemoRequest.instance_properties DemoRequest.no_plugin
            ["c-a-0"; "c-a-1"] (Some "p") (Some "c-slurmgcp-managed-a-7-0") (Some 7%Z)).
  - reflexivity.
  - vm_compute. reflexivity.
Defined.

Lemma X4_create_instances_request_instances_witness :
  exists t req,
    create_instances_request Demo.lookup DemoRequest.instance_properties DemoRequest.no_plugin
      ["c-a-0"; "c-a-1"] (Some "p") (Some "c-slurmgcp-managed-a-7-0") (Some 7%Z)
      = (t, inr req) /\
    t <> [] /\
    perInstanceProperties (req_body req) = ["c-a-0"; "c-a-1"] /\
    count (req_body req) = 2.
Proof.
  eexists _, _. split; [vm_compute; reflexivity|]. split; [discriminate|].
  eapply (@X4_create_instances_request_instances unit Demo.lookup
            DemoRequest.instance_properties DemoRequest.no_plugin
            ["c-a-0"; "c-a-1"] (Some "p") (Some "c-slurmgcp-managed-a-7-0") (Some 7%Z)).
  - reflexivity.
  - vm_compute. reflexivity.
  - repeat constructor; cbn; intuition discriminate.
Defined.

(** ** Reconciliation without failures *)

Section ReconcileMore.

Variable lookup : Lookup.
Variable to_hostlist_fast : list string -> string.
Variable to_hostlist : list string -> string.
Variable shlex_quote : string -> string.
Variable trim_self_link : string -> string.

Lemma filter_all {A} (f : A -> bool) l : (forall x, In x l -> f x = true) -> filter f l = l.
Proof.
  induction l as [|x l IH]; intros Hf; cbn; [reflexivity|].
  rewrite (Hf x) by (left; reflexivity). f_equal. apply IH.
  intros y Hy. apply Hf. right. assumption.
Qed.

(** X5. When none of the per-instance inserts of a bulk operation carries an
    error, their reconciliation (the loop body of [resume_nodes] from the
    split of the per-instance inserts on, after the warning about the bulk
    operation's own error) issues no scheduler command and marks no node
    down: it returns all the inserts and logs one line with the number of
    distinct created instances and their host-range, or nothing when there
    is no insert at all. *)
Theorem X5_reconcile_inserts_all_successful group_id insert_operations resume_data :
  (forall op, In op insert_operations -> has_error op = false) ->
  let ready := set_of (map (fun op => trim_self_link (op_target op)) insert_operations) in
  reconcile_inserts lookup to_hostlist_fast to_hostlist shlex_quote trim_self_link
                    group_id insert_operations resume_data
  = (match insert_operations with
     | [] => []
     | _ => [EvLog INFO ("created " ++ str_of_nat (List.length ready) ++ " instances: nodes="
                           ++ to_hostlist_fast ready)%string]
     end,
     inr insert_operations).
Proof.
  intros Hok. cbn zeta. unfold reconcile_inserts, separate.
  rewrite (filter_none has_error insert_operations Hok).
  rewrite filter_all by (intros op Hop; rewrite (Hok op Hop); reflexivity).
  cbn [groupby_unsorted fold_left forM_]. rewrite bind_ret_l.
  destruct insert_operations as [|op rest]; [reflexivity|].
  set (ready := set_of (map (fun op => trim_self_link (op_target op)) (op :: rest))).
  assert (Hpos : Nat.ltb 0 (List.length ready) = true).
  { apply Nat.ltb_lt. assert (Hin : In (trim_self_link (op_target op)) ready).
    { apply set_of_In. left. reflexivity. }
    destruct ready; [destruct Hin | cbn; lia]. }
  rewrite Hpos. reflexivity.
Qed.

End ReconcileMore.

(** two inserts that succeeded *)
Lemma X5_reconcile_inserts_all_successful_witness :
  let ok name := {| op_name := name; op_target := ("zones/z/instances/" ++ name)%string;
                    op_error := None |} in
  commands (fst (reconcile_inserts Demo.lookup Demo.hostlist Demo.hostlist Demo.quote Demo.trim
                                   "group-1" [ok "c-a-0"; ok "c-a-1"] None)) = [].
Proof.
  intros ok.
  rewrite (@X5_reconcile_inserts_all_successful Demo.lookup Demo.hostlist Demo.hostlist
             Demo.quote Demo.trim "group-1" [ok "c-a-0"; ok "c-a-1"] None).
  - reflexivity.
  - intros op [<-|[<-|[]]]; reflexivity.
Defined.

(** ** Slices *)





(** ** The placement groups of one nodeset, again *)

Section PlacementMore.

Variable lookup : Lookup.
Variable provider : Provider.
Variable pre_placement_group_insert : PolicyRequest -> PolicyRequest.
Variable to_hostlist_fast : list string -> string.

Lemma placement_groups_of_values node_list job :
  values (placement_groups_of lookup node_list job) = chunked PLACEMENT_MAX_CNT node_list.
Proof.
  rewrite placement_groups_of_items. unfold values. rewrite map_map.
  rewrite map_ext with (g := snd) by (intros [i c]; reflexivity).
  apply enumerate_snd.
Qed.


Lemma placement_requests_keys node_list job :
  keys (placement_requests lookup pre_placement_group_insert node_list job)
    = keys (placement_groups_of lookup node_list job).
Proof.
  unfold placement_requests, keys. rewrite map_map. cbn. apply map_id.
Qed.

(** the provider's answers, group by group *)
Lemma placement_ops_items node_list job :
  placement_ops lookup provider pre_placement_group_insert node_list job
    = map (fun entry => (fst entry, ensure_execute provider (snd entry)))
          (placement_requests lookup pre_placement_group_insert node_list job).
Proof.
  unfold placement_ops.
  set (requests := placement_requests lookup pre_placement_group_insert node_list job).
  assert (Hcombine : combine (keys requests) (map (ensure_execute provider) (values requests))
                     = map (fun entry => (fst entry, ensure_execute provider (snd entry)))
                           requests).
  { unfold keys, values. induction requests as [|[g r] rest IH]; [reflexivity|].
    cbn. f_equal. exact IH. }
  rewrite Hcombine. apply dict_of_items_fresh.
  unfold keys. rewrite map_map. cbn.
  change (map (fun x => fst x) requests) with (keys requests).
  unfold requests. rewrite placement_requests_keys. apply dict_of_items_NoDup.
Qed.

(** X7. When the nodeset routine creates placement groups and the provider
    refuses one of them with an error detail whose reason is not
    "alreadyExists", the routine does not return: after all the requests have
    been sent it ends in a TypeError, raised where the failures are put into
    a log line, and it waits for no operation. *)
Theorem X7_failed_placement_group_raises node_list job req error_details detail :
  placement_applies lookup node_list = true ->
  In req (values (placement_requests lookup pre_placement_group_insert node_list job)) ->
  ensure_execute provider req = Raised error_details ->
  In detail error_details -> reason detail <> Some "alreadyExists" ->
  exists t,
    create_nodeset_placement_groups lookup provider pre_placement_group_insert
                                    to_hostlist_fast node_list job = (t, inl TypeError) /\
    policy_requests t
      = values (placement_requests lookup pre_placement_group_insert node_list job) /\
    forallb (fun e => negb (is_wait e)) t = true.
Proof.
  intros Happ Hreq Hexec Hdetail Hreason.
  apply placement_applies_true in Happ as (Hlen & Hen & tv & Hvalid & Hreqv).
  assert (Htv : forallb (fun e => negb (is_wait e)) tv = true).
  { destruct (valid_placement_nodes_events lookup node_list)
      as [E|(w1 & sb & ss & si & sa & E)];
      rewrite Hvalid in E; cbn in E; subst tv; reflexivity. }
  unfold create_nodeset_placement_groups.
  rewrite Hlen, Hen, Hvalid, execute_requests_run.
  cbn [negb]. rewrite !bind_pair. cbv iota beta.
  fold (placement_ops lookup provider pre_placement_group_insert node_list job).
  set (ops := placement_ops lookup provider pre_placement_group_insert node_list job).
  unfold classify_ops.
  set (redundant := grouped_get (groupby_unsorted ops classify_result) "redundant").
  set (failed := grouped_get (groupby_unsorted ops classify_result) "failed").
  assert (Hfailed : failed <> []).
  { apply in_map_iff in Hreq as ([g r] & Er & Hentry). cbn in Er. subst r.
    assert (Hin : In (g, Raised error_details) ops).
    { unfold ops. rewrite placement_ops_items. apply in_map_iff.
      exists (g, req). cbn. rewrite Hexec. auto. }
    assert (Hclass : classify_result (g, Raised error_details) = "failed").
    { unfold classify_result. cbn [snd].
      replace (forallb _ error_details) with false; [reflexivity|]. symmetry.
      apply not_true_is_false. intros Hall. rewrite forallb_forall in Hall.
      specialize (Hall detail Hdetail).
      destruct (key_eqb_spec (reason detail) (Some "alreadyExists")); congruence. }
    pose proof (@grouped_get_covers ops "failed" g (Raised error_details) Hin Hclass) as Hk.
    fold failed in Hk. destruct failed; [destruct Hk | discriminate]. }
  destruct failed as [|f fs]; [congruence|]. cbn [List.length Nat.eqb negb].
  destruct (negb (Nat.eqb (List.length redundant) 0));
    unfold when; mstep; unfold raise, log, emit; rewrite ?prepend_prepend, ?prepend_pair;
    (eexists; split; [reflexivity|]; split;
     [ rewrite !policy_requests_app, Hreqv, policy_requests_insert; cbn;
       rewrite ?app_nil_r; reflexivity
     | rewrite !forallb_app, Htv; cbn; rewrite ?andb_true_r;
       apply forallb_forall; intros e He; apply in_map_iff in He as (r & <- & _);
       reflexivity ]).
Qed.

End PlacementMore.


(** two nodes, one placement policy, refused for lack of quota *)
Lemma X7_failed_placement_group_raises_witness :
  let node_list := ["c-a-0"; "c-a-1"] in
  exists t,
    create_nodeset_placement_groups Demo.lookup DemoFailure.refusing Demo.no_plugin
                                    Demo.hostlist node_list 7 = (t, inl TypeError) /\
    policy_requests t
      = values (placement_requests Demo.lookup Demo.no_plugin node_list 7) /\
    forallb (fun e => negb (is_wait e)) t = true.
Proof.
  intros node_list.
  apply (@X7_failed_placement_group_raises Demo.lookup DemoFailure.refusing Demo.no_plugin
           Demo.hostlist node_list 7%Z
           {| pr_name := "c-slurmgcp-managed-a-7-0"; pr_region := "us-central1";
              pr_collocation := "COLLOCATED" |}
           [{| reason := Some "quotaExceeded" |}] {| reason := Some "quotaExceeded" |}).
  - vm_compute. reflexivity.
  - vm_compute. left. reflexivity.
  - reflexivity.
  - left. reflexivity.
  - discriminate.
Defined.

(** ** What the chunks hold *)

Lemma chunked_from_NoDup {A} fuel n (l c : list A) :
  NoDup l -> In c (chunked_from fuel n l) -> NoDup c.
Proof.
  revert l. induction fuel as [|fuel IH]; intros l Hnd; cbn; [intros []|].
  destruct (firstn n l) as [|x chunk] eqn:E; [intros []|].
  rewrite <- (firstn_skipn n l) in Hnd. intros [<- | Hin].
  - rewrite <- E. eapply NoDup_app_remove_r. exact Hnd.
  - apply (IH (skipn n l)); [|assumption]. eapply NoDup_app_remove_l. exact Hnd.
Qed.

Lemma sorted_NoDup l : NoDup l -> NoDup (sorted l).
Proof.
  intros Hnd. eapply Permutation_NoDup; [|exact Hnd]. symmetry. apply sorted_Permutation.
Qed.

Lemma set_of_NoDup l : NoDup (set_of l).
Proof. apply NoDup_nodup. Qed.

Section SoundnessFacts.

Variable lookup : Lookup.
Variable provider : Provider.
Variable pre_placement_group_insert : PolicyRequest -> PolicyRequest.
Variable to_hostlist_fast : list string -> string.
Variable lkp : Lookup.

Lemma create_nodeset_placement_groups_NoDup node_list job t groups pg ns :
  NoDup node_list ->
  create_nodeset_placement_groups lookup provider pre_placement_group_insert
                                  to_hostlist_fast node_list job = (t, inr groups) ->
  In (pg, ns) groups -> NoDup ns.
Proof.
  intros Hnd Hrun Hin. apply create_nodeset_placement_groups_result in Hrun. subst groups.
  destruct (placement_applies lookup node_list).
  - apply in_map_iff in Hin as ([name chunk] & E & Hin). inversion E; subst.
    rewrite placement_groups_of_items in Hin.
    apply in_map_iff in Hin as ([i c] & E' & Hin). inversion E'; subst.
    apply enumerate_In in Hin. eapply chunked_from_NoDup; eassumption.
  - destruct Hin as [E|[]]. inversion E; subst. assumption.
Qed.

Lemma create_placement_groups_NoDup node_list job t pgs :
  NoDup node_list ->
  create_placement_groups lookup provider pre_placement_group_insert
                          to_hostlist_fast node_list job = (t, inr pgs) ->
  forall pg ns, In (pg, ns) pgs -> NoDup ns.
Proof.
  unfold create_placement_groups, nodeset_map. intros Hnd Hrun.
  eapply (foldM_ok_inv
            (fun pgs : dict (option string) (list string) =>
               forall pg ns, In (pg, ns) pgs -> NoDup ns));
    [ | | exact Hrun].
  - intros pgs0 [name nodes] t' pgs' Hentry Hok Hstep.
    apply bind_ok in Hstep as (t1 & new_pgs & t2 & Hnew & Hret & _).
    inversion Hret; subst.
    intros pg ns Hin. apply dict_update_In_inv in Hin as [Hin|Hin]; [eauto|].
    eapply create_nodeset_placement_groups_NoDup; [ | exact Hnew | exact Hin].
    pose proof (@groupby_unsorted_group string string _ (node_nodeset_name lookup)
                  node_list name nodes Hentry) as [-> _].
    apply NoDup_filter. assumption.
  - intros pg ns [].
Qed.

Lemma job_groups_sound_set input job_list key group job_groups :
  job_groups_sound lkp input job_list job_groups ->
  job_group_sound lkp input job_list key group ->
  job_groups_sound lkp input job_list (dict_set key group job_groups).
Proof.
  intros Hall Hok k g Hin. apply dict_set_In_inv in Hin as [[-> ->]|Hin]; auto.
Qed.

Lemma job_groups_of_jobs_sound input resume_data t job_groups :
  job_groups_of_jobs lookup provider pre_placement_group_insert to_hostlist_fast
                     lkp (set_of input) resume_data = (t, inr job_groups) ->
  job_groups_sound lkp input (jobs resume_data) job_groups.
Proof.
  unfold job_groups_of_jobs. intros Hrun.
  eapply (foldM_ok_inv (job_groups_sound lkp input (jobs resume_data))); [ | | exact Hrun].
  - intros acc job t' acc' Hjob Hacc Hstep.
    apply bind_ok in Hstep as (t1 & pgs & t2 & Hpgs & Hret & _).
    inversion Hret; subst. apply job_groups_sound_set; [assumption|].
    remember (set_inter (set_of input) (set_of (rj_nodes_alloc job))) as nodes_resume
      eqn:Eres.
    assert (Hres : NoDup nodes_resume /\
                   forall n, In n nodes_resume -> In n input /\ In n (rj_nodes_alloc job)).
    { rewrite Eres. split; [apply NoDup_filter, set_of_NoDup|].
      intros n Hn. apply set_inter_In in Hn. rewrite !set_of_In in Hn. exact Hn. }
    destruct Hres as [Hres_nd Hres_in]. clear Eres.
    unfold job_group_sound. cbn [jg_placement_groups jg_job_id jg_partition].
    destruct (partition_is_tpu lkp (rj_partition job)) eqn:Etpu.
    + inversion Hpgs; subst. split.
      * intros pg ns [E|[]]. inversion E; subst. split; [apply sorted_NoDup; assumption|].
        intros n Hn. rewrite sorted_In in Hn. exact (proj1 (Hres_in n Hn)).
      * exists job. repeat split; try assumption; try reflexivity.
        -- intros pg ns n [E|[]] Hn. inversion E; subst. rewrite sorted_In in Hn.
           exact (proj2 (Hres_in n Hn)).
        -- intros _ pg ns [E|[]]. inversion E. reflexivity.
    + apply bind_ok in Hpgs as (t3 & pgs0 & t4 & Hcall & Hret' & _).
      inversion Hret'; subst.
      assert (Hentry : forall pg ns,
                In (pg, ns)
                   (map (fun '(pg, pg_nodes) =>
                           (pg, sorted (set_inter (set_of pg_nodes) nodes_resume))) pgs0) ->
                NoDup ns /\ forall n, In n ns -> In n nodes_resume).
      { intros pg ns Hin. apply in_map_iff in Hin as ([pg0 ns0] & E & _). inversion E; subst.
        split; [apply sorted_NoDup, NoDup_filter, set_of_NoDup|].
        intros n Hn. rewrite sorted_In, set_inter_In in Hn. tauto. }
      split.
      * intros pg ns Hin. destruct (Hentry pg ns Hin) as [Hnd Hsub]. split; [assumption|].
        intros n Hn. exact (proj1 (Hres_in n (Hsub n Hn))).
      * exists job. repeat split; try assumption; try reflexivity.
        -- intros pg ns n Hin Hn. destruct (Hentry pg ns Hin) as [_ Hsub].
           exact (proj2 (Hres_in n (Hsub n Hn))).
        -- intros Htpu. congruence.
  - intros k g [].
Qed.

Lemma job_groups_of_sound node_list resume_data t job_groups :
  job_groups_of lookup provider pre_placement_group_insert to_hostlist_fast
                node_list resume_data lkp = (t, inr job_groups) ->
  job_groups_sound lkp node_list (jobs_of resume_data) job_groups.
Proof.
  unfold job_groups_of, separate. intros Hrun.
  apply bind_ok in Hrun as (t1 & jgs & t2 & Hjobs & Hrest & _).
  apply bind_ok in Hrest as (t3 & normal & t4 & Hnormal & Hret & _).
  inversion Hret; subst. apply job_groups_of_jobs_sound in Hjobs.
  replace (jobs match resume_data with Some r => r | None => {| jobs := [] |} end)
    with (jobs_of resume_data) in * by (destruct resume_data; reflexivity).
  remember (set_diff (set_of node_list) (concat (map rj_nodes_alloc (jobs_of resume_data))))
    as jobless eqn:Ejobless.
  assert (Hjobless : NoDup jobless /\
            forall n, In n jobless ->
              In n node_list /\
              forall job, In job (jobs_of resume_data) -> ~ In n (rj_nodes_alloc job)).
  { rewrite Ejobless. split; [apply NoDup_filter, set_of_NoDup|].
    intros n Hn. apply set_diff_In in Hn as [Hn Hnot]. rewrite set_of_In in Hn.
    split; [assumption|]. intros job Hjob Halloc. apply Hnot.
    apply in_concat. exists (rj_nodes_alloc job). split; [apply in_map; assumption|assumption]. }
  destruct Hjobless as [Hnd Hfree]. clear Ejobless.
  apply job_groups_sound_set; [apply job_groups_sound_set; [assumption|] |].
  - unfold job_group_sound. cbn [jg_placement_groups jg_job_id jg_partition].
    assert (Hsorted : NoDup (sorted (filter (fun x => negb (node_is_tpu lkp x))
                                            jobless))).
    { apply sorted_NoDup, NoDup_filter. assumption. }
    pose proof (@create_placement_groups_NoDup _ _ _ _ Hsorted Hnormal) as Hvals.
    apply create_placement_groups_entries in Hnormal as [_ Hok].
    assert (Hmem : forall pg ns n, In (pg, ns) normal -> In n ns ->
              In n jobless /\ node_is_tpu lkp n = false).
    { intros pg ns n Hin Hn. destruct (Hok _ _ Hin) as [Hsub _].
      apply Hsub in Hn. rewrite sorted_In, filter_In in Hn. destruct Hn as [Hn Htpu].
      apply negb_true_iff in Htpu. auto. }
    split.
    + intros pg ns Hin. split; [eapply Hvals; eassumption|].
      intros n Hn. apply Hfree. eapply Hmem; eassumption.
    + repeat split.
      * apply Hfree. eapply Hmem; eassumption.
      * intros Htpu. destruct (Hmem _ _ _ H H0) as [_ Hno]. congruence.
  - unfold job_group_sound. cbn [jg_placement_groups jg_job_id jg_partition]. split.
    + intros pg ns [E|[]]. inversion E; subst.
      split; [apply sorted_NoDup, NoDup_filter; assumption|].
      intros n Hn. rewrite sorted_In, filter_In in Hn. exact (proj1 (Hfree n (proj1 Hn))).
    + repeat split.
      * destruct H as [E|[]]. inversion E; subst.
        rewrite sorted_In, filter_In in H0. exact (proj2 (Hfree _ (proj1 H0))).
      * intros _. destruct H as [E|[]]. inversion E. reflexivity.
Qed.

End SoundnessFacts.

Section ChunkSoundness.

Variable lookup : Lookup.
Variable provider : Provider.
Variable pre_placement_group_insert : PolicyRequest -> PolicyRequest.
Variable to_hostlist_fast : list string -> string.
Variable lkp : Lookup.

(** where a chunk of the returned mapping comes from, with what its entry of
    [job_groups] holds *)
Lemma group_nodes_bulk_chunk_sound node_list resume_data t m g c :
  group_nodes_bulk lookup provider pre_placement_group_insert to_hostlist_fast
                   node_list resume_data lkp = (t, inr m) ->
  In (g, c) m ->
  exists key group pg_nodes,
    job_group_sound lkp node_list (jobs_of resume_data) key group /\
    In (placement_group c, pg_nodes) (jg_placement_groups group) /\
    nodes c <> [] /\ NoDup (nodes c) /\
    (forall n, In n (nodes c) -> In n pg_nodes /\ node_prefix lkp n = prefix c) /\
    job_id c = jg_job_id group /\ partition c = jg_partition group.
Proof.
  intros Hrun Hin. apply group_nodes_bulk_inv in Hrun as (job_groups & Hjobs & ->).
  apply dict_of_items_In_inv, in_map_iff in Hin as (c' & E & Hin). inversion E; subst.
  apply job_groups_of_sound in Hjobs.
  apply grouped_nodes_In in Hin
    as (key & group & pg & pg_nodes & pfx & bucket & i & chunk & Hgroup & Hpg & Hbucket &
        Hchunk & ->).
  cbn [nodes prefix job_id partition placement_group].
  pose proof (Hjobs _ _ Hgroup) as Hsound.
  destruct (@chunk_of_bucket lkp pg_nodes pfx bucket i chunk Hbucket Hchunk)
    as (Hne & _ & Hmem & _).
  exists key, group, pg_nodes.
  split; [exact Hsound|]. split; [exact Hpg|]. split; [exact Hne|].
  split; [|split; [exact Hmem | split; reflexivity]].
  destruct Hsound as [Hlists _]. destruct (Hlists _ _ Hpg) as [Hnd _].
  pose proof (@groupby_unsorted_group string string _ (node_prefix lkp)
                pg_nodes pfx bucket Hbucket) as [Hb _].
  apply enumerate_In in Hchunk. unfold chunk_nodes, chunked in Hchunk.
  eapply chunked_from_NoDup; [|exact Hchunk]. rewrite Hb. apply NoDup_filter. assumption.
Qed.

(** X8. Every chunk of the returned mapping holds at least one node, holds no
    node twice, and holds only nodes of the input, all with the chunk's own
    name prefix. *)
Theorem X8_chunks_hold_distinct_input_nodes node_list resume_data t m g c :
  group_nodes_bulk lookup provider pre_placement_group_insert to_hostlist_fast
                   node_list resume_data lkp = (t, inr m) ->
  In (g, c) m ->
  nodes c <> [] /\ NoDup (nodes c) /\
  forall n, In n (nodes c) -> In n node_list /\ node_prefix lkp n = prefix c.
Proof.
  intros Hrun Hin.
  destruct (@group_nodes_bulk_chunk_sound _ _ _ _ _ _ Hrun Hin)
    as (key & group & pg_nodes & [Hlists _] & Hpg & Hne & Hnd & Hmem & _).
  repeat split; try assumption; try (apply Hmem; assumption).
  destruct (Hlists _ _ Hpg) as [_ Hsub]. apply Hsub, Hmem. assumption.
Qed.

(** X9. A chunk that carries a job id holds only nodes allocated to a job of
    the resume data with that id, and carries that job's partition; a chunk
    without job id carries no partition and holds only nodes that no job of
    the resume data has allocated. *)
Theorem X9_chunks_follow_allocations node_list resume_data t m g c :
  group_nodes_bulk lookup provider pre_placement_group_insert to_hostlist_fast
                   node_list resume_data lkp = (t, inr m) ->
  In (g, c) m ->
  match job_id c with
  | Some j =>
      exists job,
        In job (jobs_of resume_data) /\ rj_job_id job = j /\
        partition c = Some (rj_partition job) /\
        forall n, In n (nodes c) -> In n (rj_nodes_alloc job)
  | None =>
      partition c = None /\
      forall n job, In n (nodes c) -> In job (jobs_of resume_data) ->
                    ~ In n (rj_nodes_alloc job)
  end.
Proof.
  intros Hrun Hin.
  destruct (@group_nodes_bulk_chunk_sound _ _ _ _ _ _ Hrun Hin)
    as (key & group & pg_nodes & [_ Hkey] & Hpg & _ & _ & Hmem & Hjob & Hpart).
  rewrite Hjob, Hpart. destruct key as [j|name].
  - destruct Hkey as (job & Hin_job & Hid & -> & -> & Halloc & _).
    exists job. repeat split; try assumption.
    intros n Hn. eapply Halloc; [exact Hpg|]. apply Hmem. assumption.
  - destruct Hkey as (-> & -> & Hfree). split; [reflexivity|].
    intros n job Hn Hjob'. destruct (Hfree _ _ n Hpg (proj1 (Hmem n Hn))) as [Hno _].
    apply Hno. assumption.
Qed.

(** X10. No placement group is attached to a chunk of a job whose partition
    is an accelerator partition, nor to a chunk without job that holds an
    accelerator node. *)
Theorem X10_accelerator_chunks_without_placement node_list resume_data t m g c :
  group_nodes_bulk lookup provider pre_placement_group_insert to_hostlist_fast
                   node_list resume_data lkp = (t, inr m) ->
  In (g, c) m ->
  (forall p, partition c = Some p -> partition_is_tpu lkp p = true ->
             placement_group c = None) /\
  (forall n, job_id c = None -> In n (nodes c) -> node_is_tpu lkp n = true ->
             placement_group c = None).
Proof.
  intros Hrun Hin.
  destruct (@group_nodes_bulk_chunk_sound _ _ _ _ _ _ Hrun Hin)
    as (key & group & pg_nodes & [_ Hkey] & Hpg & _ & _ & Hmem & Hjob & Hpart).
  rewrite Hjob, Hpart. destruct key as [j|name].
  - destruct Hkey as (job & _ & _ & -> & -> & _ & Htpu). split.
    + intros p E Hp. inversion E; subst. eapply Htpu; eassumption.
    + discriminate.
  - destruct Hkey as (_ & -> & Hfree). split; [discriminate|].
    intros n _ Hn Htpu. destruct (Hfree _ _ n Hpg (proj1 (Hmem n Hn))) as [_ Hnone].
    apply Hnone. assumption.
Qed.

End ChunkSoundness.

(** one job on an accelerator partition, one job with placement, and a node
    without job *)
Lemma X8_chunks_hold_distinct_input_nodes_witness :
  let node_list := ["c-a-1"; "c-a-0"; "c-b-1"; "c-a-1"] in
  let c := {| nodes := ["c-a-0"; "c-a-1"]; prefix := "c-a"; chunk_idx := 0;
              job_id := Some 7%Z; partition := Some "p";
              placement_group := Some "c-slurmgcp-managed-a-7-0" |} in
  nodes c <> [] /\ NoDup (nodes c) /\
  forall n, In n (nodes c) -> In n node_list /\ node_prefix Demo.lookup n = prefix c.
Proof.
  intros node_list c.
  eapply X8_chunks_hold_distinct_input_nodes
    with (lookup := Demo.lookup) (provider := Demo.existing)
         (pre_placement_group_insert := Demo.no_plugin) (to_hostlist_fast := Demo.hostlist)
         (lkp := Demo.lookup) (node_list := node_list)
         (resume_data := Some {| jobs := [ {| rj_job_id := 7; rj_partition := "p";
                                              rj_nodes_alloc := ["c-a-0"; "c-a-1"; "c-a-2"] |} ] |})
         (g := "c-a:job7:c-slurmgcp-managed-a-7-0:0").
  - vm_compute. reflexivity.
  - left. reflexivity.
Defined.

Lemma X9_chunks_follow_allocations_witness :
  let job := {| rj_job_id := 7; rj_partition := "p";
                rj_nodes_alloc := ["c-a-0"; "c-a-1"; "c-a-2"] |} in
  let resume_data := Some {| jobs := [job] |} in
  let c := {| nodes := ["c-b-1"]; prefix := "c-b"; chunk_idx := 0;
              job_id := None; partition := None; placement_group := None |} in
  partition c = None /\
  forall n job, In n (nodes c) -> In job (jobs_of resume_data) -> ~ In n (rj_nodes_alloc job).
Proof.
  intros job resume_data c.
  eapply (@X9_chunks_follow_allocations Demo.lookup Demo.existing Demo.no_plugin
            Demo.hostlist Demo.lookup ["c-a-1"; "c-a-0"; "c-b-1"; "c-a-1"] resume_data
            _ _ "c-b:0" c).
  - vm_compute. reflexivity.
  - right. left. reflexivity.
Defined.

Lemma X10_accelerator_chunks_without_placement_witness :
  let c := {| nodes := ["c-a-0"; "c-a-1"]; prefix := "c-a"; chunk_idx := 0;
              job_id := Some 9%Z; partition := Some "tpu"; placement_group := None |} in
  (forall p, partition c = Some p -> partition_is_tpu Demo.lookup p = true ->
             placement_group c = None) /\
  (forall n, job_id c = None -> In n (nodes c) -> node_is_tpu Demo.lookup n = true ->
             placement_group c = None).
Proof.
  intros c.
  eapply (@X10_accelerator_chunks_without_placement Demo.lookup Demo.fresh Demo.no_plugin
            Demo.hostlist Demo.lookup ["c-a-0"; "c-a-1"]
            (Some {| jobs := [ {| rj_job_id := 9; rj_partition := "tpu";
                                  rj_nodes_alloc := ["c-a-0"; "c-a-1"] |} ] |})
            _ _ "c-a:job9:0" c).
  - vm_compute. reflexivity.
  - left. reflexivity.
Defined.

(** ** Nothing is dropped when the placement code sees one nodeset at a time *)

Lemma groupby_unsorted_fold_single {A K} `{Hashable K} (key : A -> K) k seq : forall p,
  (forall x, In x seq -> key x = k) ->
  fold_left (fun indices el => dict_append (key el) el indices) seq [(k, p)] = [(k, p ++ seq)].
Proof.
  induction seq as [|x seq IH]; intros p Hk; cbn [fold_left].
  - rewrite app_nil_r. reflexivity.
  - rewrite (Hk x) by (left; reflexivity). cbn [dict_append].
    destruct (key_eqb_spec k k) as [_|Hne]; [|congruence].
    rewrite IH by (intros y Hy; apply Hk; right; assumption).
    rewrite <- app_assoc. reflexivity.
Qed.

Lemma groupby_unsorted_single {A K} `{Hashable K} (key : A -> K) x seq :
  (forall y, In y seq -> key y = key x) ->
  groupby_unsorted (x :: seq) key = [(key x, x :: seq)].
Proof.
  intros Hk. unfold groupby_unsorted. cbn [fold_left dict_append].
  apply groupby_unsorted_fold_single with (p := [x]). assumption.
Qed.

Lemma foldM_ok_prefix {A B} (P : list B -> A -> Prop) (f : A -> B -> M A) l :
  (forall pre x suf a t a',
     l = pre ++ x :: suf -> P pre a -> f a x = (t, inr a') -> P (pre ++ [x]) a') ->
  forall a t r, P [] a -> foldM f l a = (t, inr r) -> P l r.
Proof.
  intros Hstep.
  assert (Hgen : forall suf pre a t r,
             l = pre ++ suf -> P pre a -> foldM f suf a = (t, inr r) -> P l r).
  { induction suf as [|x suf IH]; intros pre a t r El Ha Hrun; cbn in Hrun.
    - inversion Hrun; subst. rewrite app_nil_r. assumption.
    - apply bind_ok in Hrun as (t1 & a' & t2 & Hf & Hrest & _).
      apply (IH (pre ++ [x]) a' t2 r); [rewrite <- app_assoc; exact El | | exact Hrest].
      eapply Hstep; eassumption. }
  intros a t r Ha Hrun. apply (Hgen l [] a t r); [reflexivity | exact Ha | exact Hrun].
Qed.

Lemma enumerate_covers {A} (l : list A) x : In x l -> exists i, In (i, x) (enumerate l).
Proof.
  intros Hin. rewrite <- (enumerate_snd l) in Hin.
  apply in_map_iff in Hin as ([i y] & E & Hin). cbn in E. subst y. eauto.
Qed.

Section Coverage.

Variable lookup : Lookup.
Variable provider : Provider.
Variable pre_placement_group_insert : PolicyRequest -> PolicyRequest.
Variable to_hostlist_fast : list string -> string.
Variable lkp : Lookup.

Lemma create_placement_groups_covers node_list job t pgs :
  one_nodeset lookup node_list ->
  create_placement_groups lookup provider pre_placement_group_insert
                          to_hostlist_fast node_list job = (t, inr pgs) ->
  forall n, In n node_list -> exists pg ns, In (pg, ns) pgs /\ In n ns.
Proof.
  intros Hone Hrun n Hn. unfold create_placement_groups, nodeset_map in Hrun.
  destruct node_list as [|x rest]; [destruct Hn|].
  rewrite (groupby_unsorted_single (node_nodeset_name lookup) x rest) in Hrun
    by (intros y Hy; apply Hone; [right; assumption | left; reflexivity]).
  cbn [foldM] in Hrun.
  apply bind_ok in Hrun as (t1 & a & t2 & Hstep & Hret & _).
  apply bind_ok in Hstep as (t3 & new_pgs & t4 & Hnew & Hret' & _).
  inversion Hret; inversion Hret'; subst.
  apply create_nodeset_placement_groups_result in Hnew.
  change (dict_update [] new_pgs) with (dict_of_items new_pgs).
  destruct (placement_applies lookup (x :: rest)).
  - assert (Hchunk : exists chunk,
              In chunk (chunked PLACEMENT_MAX_CNT (x :: rest)) /\ In n chunk).
    { apply in_concat. rewrite chunked_concat; [assumption|]. unfold PLACEMENT_MAX_CNT. lia. }
    destruct Hchunk as (chunk & Hchunk & Hnc).
    rewrite <- placement_groups_of_values with (lookup := lookup) (job := job) in Hchunk.
    apply in_map_iff in Hchunk as ([name c] & E & Hentry). cbn in E. subst c.
    exists (Some name), chunk. split; [|assumption].
    rewrite dict_of_items_fresh.
    + subst new_pgs. apply in_map_iff. exists (name, chunk). auto.
    + subst new_pgs. unfold keys. rewrite map_map.
      rewrite map_ext with (g := fun e => Some (fst e)) by (intros [g ns]; reflexivity).
      rewrite <- map_map. apply Finite.Injective_map_NoDup; [intros a b E; congruence|].
      apply dict_of_items_NoDup.
  - subst new_pgs. exists None, (x :: rest). split; [left; reflexivity | assumption].
Qed.

Lemma job_groups_of_jobs_covers input resume_data t job_groups :
  NoDup (map rj_job_id (jobs resume_data)) ->
  (forall job, In job (jobs resume_data) ->
     partition_is_tpu lkp (rj_partition job) = false ->
     one_nodeset lookup (rj_nodes_alloc job)) ->
  job_groups_of_jobs lookup provider pre_placement_group_insert to_hostlist_fast
                     lkp (set_of input) resume_data = (t, inr job_groups) ->
  forall job, In job (jobs resume_data) ->
    exists group,
      In (JobId (rj_job_id job), group) job_groups /\ covers_allocation input job group.
Proof.
  unfold job_groups_of_jobs. intros Hids Hone Hrun.
  eapply (foldM_ok_prefix
            (fun pre (acc : dict JobKey JobGroup) =>
               forall job, In job pre ->
                 exists group,
                   In (JobId (rj_job_id job), group) acc /\
                   covers_allocation input job group));
    [ | | exact Hrun].
  - intros pre x suf acc t' acc' El Hacc Hstep job Hjob.
    apply bind_ok in Hstep as (t1 & pgs & t2 & Hpgs & Hret & _).
    inversion Hret; subst acc'. apply in_app_or in Hjob as [Hjob|[<-|[]]].
    + destruct (Hacc job Hjob) as (group & Hgroup & Hcov). exists group.
      split; [|assumption]. apply dict_set_In_old; [|assumption].
      intros E. inversion E as [Eid]. rewrite El, map_app in Hids. cbn in Hids.
      apply NoDup_remove_2 in Hids. apply Hids, in_or_app. left.
      rewrite <- Eid. apply in_map. assumption.
    + eexists. split; [apply dict_set_In_new|].
      intros n Hin Halloc. cbn [jg_placement_groups].
      assert (Hres : In n (set_inter (set_of input) (set_of (rj_nodes_alloc x)))).
      { apply set_inter_In. rewrite !set_of_In. auto. }
      destruct (partition_is_tpu lkp (rj_partition x)) eqn:Etpu.
      * inversion Hpgs; subst. eexists _, _. split; [left; reflexivity|].
        rewrite sorted_In. assumption.
      * apply bind_ok in Hpgs as (t3 & pgs0 & t4 & Hcall & Hret' & _).
        inversion Hret'; subst.
        assert (Hx : In x (jobs resume_data)) by (rewrite El; apply in_elt).
        destruct (@create_placement_groups_covers _ _ _ _ (Hone x Hx Etpu) Hcall n Halloc)
          as (pg & ns & Hentry & Hns).
        exists pg, (sorted (set_inter (set_of ns)
                              (set_inter (set_of input) (set_of (rj_nodes_alloc x))))).
        split.
        -- apply in_map_iff. exists (pg, ns). auto.
        -- rewrite sorted_In, set_inter_In, set_of_In. auto.
  - intros job [].
Qed.

Lemma job_groups_of_covers node_list resume_data t job_groups :
  NoDup (map rj_job_id (jobs_of resume_data)) ->
  (forall job, In job (jobs_of resume_data) ->
     partition_is_tpu lkp (rj_partition job) = false ->
     one_nodeset lookup (rj_nodes_alloc job)) ->
  (forall a b, In a node_list -> In b node_list ->
     unallocated (jobs_of resume_data) a -> unallocated (jobs_of resume_data) b ->
     node_is_tpu lkp a = false -> node_is_tpu lkp b = false ->
     node_nodeset_name lookup a = node_nodeset_name lookup b) ->
  job_groups_of lookup provider pre_placement_group_insert to_hostlist_fast
                node_list resume_data lkp = (t, inr job_groups) ->
  forall n, In n node_list ->
    exists key group pg pg_nodes,
      In (key, group) job_groups /\
      In (pg, pg_nodes) (jg_placement_groups group) /\ In n pg_nodes.
Proof.
  unfold job_groups_of, separate. intros Hids Hone Hjobless Hrun n Hn.
  apply bind_ok in Hrun as (t1 & jgs & t2 & Hjobs & Hrest & _).
  apply bind_ok in Hrest as (t3 & normal & t4 & Hnormal & Hret & _).
  inversion Hret; subst.
  replace (jobs match resume_data with Some r => r | None => {| jobs := [] |} end)
    with (jobs_of resume_data) in * by (destruct resume_data; reflexivity).
  remember (set_diff (set_of node_list) (concat (map rj_nodes_alloc (jobs_of resume_data))))
    as jobless eqn:Ejobless.
  assert (Hfree : forall x, In x jobless <->
                    In x node_list /\ unallocated (jobs_of resume_data) x).
  { intros x. rewrite Ejobless, set_diff_In, set_of_In. unfold unallocated. split.
    - intros [Hx Hnot]. split; [assumption|]. intros job Hjob Halloc. apply Hnot.
      apply in_concat. exists (rj_nodes_alloc job). split; [apply in_map|]; assumption.
    - intros [Hx Hun]. split; [assumption|]. intros Hc.
      apply in_concat in Hc as (alloc & Halloc & Hx').
      apply in_map_iff in Halloc as (job & <- & Hjob). exact (Hun job Hjob Hx'). }
  clear Ejobless.
  destruct (in_dec string_dec n (concat (map rj_nodes_alloc (jobs_of resume_data))))
    as [Halloc|Hnot].
  - apply in_concat in Halloc as (alloc & Halloc & Hx).
    apply in_map_iff in Halloc as (job & <- & Hjob).
    pose (rd := match resume_data with Some r => r | None => {| jobs := [] |} end).
    assert (Ejobs : jobs rd = jobs_of resume_data) by (destruct resume_data; reflexivity).
    assert (Hcovers : exists group,
              In (JobId (rj_job_id job), group) jgs /\ covers_allocation node_list job group).
    { apply (@job_groups_of_jobs_covers node_list rd t1 jgs).
      - rewrite Ejobs. assumption.
      - rewrite Ejobs. assumption.
      - exact Hjobs.
      - rewrite Ejobs. assumption. }
    destruct Hcovers as (group & Hgroup & Hcov).
    destruct (Hcov n Hn Hx) as (pg & ns & Hentry & Hns).
    exists (JobId (rj_job_id job)), group, pg, ns. repeat split; try assumption.
    apply dict_set_In_old; [discriminate|]. apply dict_set_In_old; [discriminate|]. assumption.
  - assert (Hj : In n jobless).
    { apply Hfree. split; [assumption|]. intros job Hjob Hx. apply Hnot.
      apply in_concat. exists (rj_nodes_alloc job). split; [apply in_map|]; assumption. }
    destruct (node_is_tpu lkp n) eqn:Etpu.
    + eexists (JobName "TPU_None"), _, None, _.
      split; [apply dict_set_In_new|]. cbn [jg_placement_groups].
      split; [left; reflexivity|]. rewrite sorted_In, filter_In. auto.
    + destruct (@create_placement_groups_covers
                  (sorted (filter (fun x => negb (node_is_tpu lkp x)) jobless)) 0%Z t3 normal)
        with (n := n) as (pg & ns & Hentry & Hns).
      * intros a b Ha Hb. rewrite sorted_In, filter_In, negb_true_iff, Hfree in Ha, Hb.
        apply Hjobless; tauto.
      * exact Hnormal.
      * rewrite sorted_In, filter_In, Etpu. auto.
      * eexists (JobName "Normal_None"), _, pg, ns.
        split; [apply dict_set_In_old; [discriminate|]; apply dict_set_In_new|].
        cbn [jg_placement_groups]. auto.
Qed.

Lemma grouped_nodes_covers job_groups key group pg pg_nodes n :
  In (key, group) job_groups ->
  In (pg, pg_nodes) (jg_placement_groups group) -> In n pg_nodes ->
  (forall x, In x pg_nodes -> node_is_tpu lkp x = true ->
             0 < tpu_vmcount lkp (node_nodeset lkp x)) ->
  exists c, In c (grouped_nodes lkp job_groups) /\ In n (nodes c).
Proof.
  intros Hgroup Hpg Hn Hvm.
  destruct (groupby_unsorted_covers (node_prefix lkp) pg_nodes n Hn) as (bucket & Hb & Hnb).
  assert (Hchunk : exists chunk, In chunk (chunk_nodes lkp bucket) /\ In n chunk).
  { apply in_concat. unfold chunk_nodes. rewrite chunked_concat; [assumption|].
    destruct bucket as [|first rest]; [destruct Hnb|].
    destruct (node_is_tpu lkp first) eqn:E; [|unfold BULK_INSERT_LIMIT; lia].
    apply Hvm; [|assumption].
    eapply (groupby_unsorted_member (node_prefix lkp)); [exact Hb | left; reflexivity]. }
  destruct Hchunk as (chunk & Hchunk & Hnc).
  apply enumerate_covers in Hchunk as (i & Hchunk).
  exists {| nodes := chunk; prefix := node_prefix lkp n; chunk_idx := i;
            job_id := jg_job_id group; partition := jg_partition group;
            placement_group := pg |}.
  split; [|assumption].
  unfold grouped_nodes. apply in_flat_map. exists group.
  split; [unfold values; apply in_map_iff; exists (key, group); auto|].
  unfold chunks_of_job. apply in_flat_map. exists (pg, pg_nodes). split; [assumption|].
  unfold chunks_of_placement. apply in_flat_map. exists (node_prefix lkp n, bucket).
  split; [assumption|]. unfold chunks_of_prefix. apply in_map_iff. exists (i, chunk). auto.
Qed.

(** X11. No node is dropped when the placement code never sees two nodesets
    in one list. Assume the jobs of the resume data have distinct ids, the
    allocation of every job of a conventional partition lies in one nodeset,
    the conventional input nodes that no job has allocated lie in one
    nodeset, every accelerator nodeset has a positive VM count, and names
    hold no ":" with nodes of one prefix being of one kind. Then every input
    node is in a chunk of the returned mapping. *)
Theorem X11_every_node_in_a_chunk node_list resume_data t m :
  has_char ":" (slurm_cluster_name lookup) = false ->
  (forall n, has_char ":" (nodeset_name (node_nodeset lookup n)) = false) ->
  (forall n, has_char ":" (node_prefix lkp n) = false) ->
  (forall a b, node_prefix lkp a = node_prefix lkp b ->
               node_is_tpu lkp a = node_is_tpu lkp b) ->
  (forall n, In n node_list -> node_is_tpu lkp n = true ->
             0 < tpu_vmcount lkp (node_nodeset lkp n)) ->
  NoDup (map rj_job_id (jobs_of resume_data)) ->
  (forall job, In job (jobs_of resume_data) ->
     partition_is_tpu lkp (rj_partition job) = false ->
     one_nodeset lookup (rj_nodes_alloc job)) ->
  (forall a b, In a node_list -> In b node_list ->
     unallocated (jobs_of resume_data) a -> unallocated (jobs_of resume_data) b ->
     node_is_tpu lkp a = false -> node_is_tpu lkp b = false ->
     node_nodeset_name lookup a = node_nodeset_name lookup b) ->
  group_nodes_bulk lookup provider pre_placement_group_insert to_hostlist_fast
                   node_list resume_data lkp = (t, inr m) ->
  forall n, In n node_list -> exists g c, In (g, c) m /\ In n (nodes c).
Proof.
  intros Hcluster Hnodeset Hprefix Hkind Hvm Hids Hone Hjobless Hrun n Hn.
  apply group_nodes_bulk_inv in Hrun as (job_groups & Hjobs & ->).
  pose proof (@job_groups_of_ok lookup provider pre_placement_group_insert
                to_hostlist_fast lkp _ _ _ _ Hjobs) as Hok.
  pose proof (@job_groups_of_sound lookup provider pre_placement_group_insert
                to_hostlist_fast lkp _ _ _ _ Hjobs) as Hsound.
  destruct (@job_groups_of_covers _ _ _ _ Hids Hone Hjobless Hjobs n Hn)
    as (key & group & pg & pg_nodes & Hgroup & Hpg & Hnpg).
  destruct (@grouped_nodes_covers job_groups key group pg pg_nodes n Hgroup Hpg Hnpg)
    as (c & Hc & Hnc).
  { intros x Hx. apply Hvm. destruct (Hsound _ _ Hgroup) as [Hlists _].
    destruct (Hlists _ _ Hpg) as [_ Hsub]. auto. }
  exists (group_name c), c. split; [|assumption].
  rewrite dict_of_items_fresh.
  - apply in_map_iff. exists c. auto.
  - unfold keys. rewrite map_map. cbn.
    apply grouped_nodes_NoDup with (lookup := lookup); assumption.
Qed.

End Coverage.

(** a job with placement, a node without job, and an accelerator node *)
Lemma X11_every_node_in_a_chunk_witness :
  let node_list := ["c-a-0"; "c-a-1"; "c-b-0"; "c-t-0"] in
  let resume_data := Some {| jobs := [ {| rj_job_id := 7; rj_partition := "p";
                                          rj_nodes_alloc := ["c-a-0"; "c-a-1"] |} ] |} in
  exists t m,
    Demo.group_nodes Demo.fresh node_list resume_data = (t, inr m) /\
    forall n, In n node_list -> exists g c, In (g, c) m /\ In n (nodes c).
Proof.
  intros node_list resume_data. eexists. eexists. split; [vm_compute; reflexivity|].
  apply (@X11_every_node_in_a_chunk Demo.lookup Demo.fresh Demo.no_plugin Demo.hostlist
           Demo.lookup node_list resume_data
           (fst (Demo.group_nodes Demo.fresh node_list resume_data))).
  - reflexivity.
  - apply demo_nodeset_no_colon.
  - apply demo_prefix_no_colon.
  - apply demo_prefix_kind.
  - intros n _ _. cbn. lia.
  - cbn. constructor; [intros []|constructor].
  - intros job [<-|[]] _ a b [<-|[<-|[]]] [<-|[<-|[]]]; reflexivity.
  - intros a b Ha Hb Hua Hub Hta Htb.
    destruct Ha as [<-|[<-|[<-|[<-|[]]]]]; destruct Hb as [<-|[<-|[<-|[<-|[]]]]];
      try reflexivity;
      try solve [exfalso; apply (Hua _ (or_introl eq_refl)); cbn; auto];
      try solve [exfalso; apply (Hub _ (or_introl eq_refl)); cbn; auto];
      try solve [vm_compute in Hta; discriminate];
      try solve [vm_compute in Htb; discriminate].
  - vm_compute. reflexivity.
Defined.

(** ** No node in two chunks *)

Lemma NoDup_app_disjoint {A} (l1 l2 : list A) : NoDup (l1 ++ l2) -> disjoint l1 l2.
Proof.
  induction l1 as [|a l1 IH]; cbn; intros Hnd x; [intros []|].
  inversion Hnd as [|? ? Hnin Hnd']; subst. intros [->|Hx] Hx2.
  - apply Hnin, in_or_app. right. assumption.
  - exact (IH Hnd' x Hx Hx2).
Qed.

Lemma NoDup_concat_In {A} (ls : list (list A)) l : NoDup (concat ls) -> In l ls -> NoDup l.
Proof.
  induction ls as [|l0 ls IH]; cbn; intros Hnd; [intros []|]. intros [->|Hin].
  - eapply NoDup_app_remove_r. exact Hnd.
  - apply IH; [|assumption]. eapply NoDup_app_remove_l. exact Hnd.
Qed.

Lemma NoDup_concat_map_inj {A B} (f : A -> list B) l a b x :
  NoDup (concat (map f l)) -> In a l -> In b l -> In x (f a) -> In x (f b) -> a = b.
Proof.
  induction l as [|c l IH]; cbn; intros Hnd; [intros []|].
  pose proof (NoDup_app_disjoint _ _ Hnd) as Hdis.
  assert (Hrest : forall y, In y l -> In x (f y) -> In x (concat (map f l))).
  { intros y Hy Hx. apply in_concat. exists (f y). split; [apply in_map|]; assumption. }
  intros [->|Ha] [->|Hb] Hxa Hxb.
  - reflexivity.
  - exfalso. exact (Hdis x Hxa (Hrest _ Hb Hxb)).
  - exfalso. exact (Hdis x Hxb (Hrest _ Ha Hxa)).
  - apply IH; try assumption. eapply NoDup_app_remove_l. exact Hnd.
Qed.

Lemma combine_seq_disjoint {A} (ls : list (list A)) : forall start i j c1 c2,
  NoDup (concat ls) ->
  In (i, c1) (combine (seq start (List.length ls)) ls) ->
  In (j, c2) (combine (seq start (List.length ls)) ls) ->
  i <> j -> disjoint c1 c2.
Proof.
  induction ls as [|c ls IH]; cbn; intros start i j c1 c2 Hnd; [intros []|].
  pose proof (NoDup_app_disjoint _ _ Hnd) as Hdis.
  assert (Htail : forall k c', In (k, c') (combine (seq (S start) (List.length ls)) ls) ->
                    forall x, In x c' -> In x (concat ls)).
  { intros k c' Hin x Hx. apply in_combine_r in Hin. apply in_concat. eauto. }
  intros [E1|H1] [E2|H2] Hne x Hx1 Hx2.
  - inversion E1; inversion E2; subst. congruence.
  - inversion E1; subst. exact (Hdis x Hx1 (Htail _ _ H2 x Hx2)).
  - inversion E2; subst. exact (Hdis x Hx2 (Htail _ _ H1 x Hx1)).
  - apply NoDup_app_remove_l in Hnd. exact (IH _ _ _ _ _ Hnd H1 H2 Hne x Hx1 Hx2).
Qed.

(** the slices put end to end are the beginning of the list *)
Lemma chunked_from_prefix {A} fuel n : forall l : list A,
  exists rest, l = concat (chunked_from fuel n l) ++ rest.
Proof.
  induction fuel as [|fuel IH]; intros l; cbn; [exists l; reflexivity|].
  destruct (firstn n l) as [|x chunk] eqn:E; [exists l; reflexivity|].
  destruct (IH (skipn n l)) as (rest & Hrest). exists rest.
  cbn [concat]. rewrite <- app_assoc, <- Hrest, <- E. symmetry. apply firstn_skipn.
Qed.

Lemma chunked_disjoint {A} n (l : list A) i j c1 c2 :
  NoDup l ->
  In (i, c1) (enumerate (chunked n l)) -> In (j, c2) (enumerate (chunked n l)) ->
  i <> j -> disjoint c1 c2.
Proof.
  intros Hnd. apply combine_seq_disjoint.
  destruct (chunked_from_prefix (List.length l) n l) as (rest & Hrest).
  rewrite Hrest in Hnd. eapply NoDup_app_remove_r. exact Hnd.
Qed.

Lemma enumerate_functional {A} (l : list A) i x y :
  In (i, x) (enumerate l) -> In (i, y) (enumerate l) -> x = y.
Proof.
  intros H1 H2. eapply keys_functional; [apply enumerate_NoDup | exact H1 | exact H2].
Qed.

Section Disjointness.

Variable lookup : Lookup.
Variable provider : Provider.
Variable pre_placement_group_insert : PolicyRequest -> PolicyRequest.
Variable to_hostlist_fast : list string -> string.
Variable lkp : Lookup.

Lemma create_nodeset_placement_groups_disjoint node_list job t groups :
  NoDup node_list ->
  create_nodeset_placement_groups lookup provider pre_placement_group_insert
                                  to_hostlist_fast node_list job = (t, inr groups) ->
  values_disjoint groups.
Proof.
  intros Hnd Hrun. apply create_nodeset_placement_groups_result in Hrun. subst groups.
  intros pg1 ns1 pg2 ns2 H1 H2 Hne. destruct (placement_applies lookup node_list).
  - apply in_map_iff in H1 as ([name1 c1] & E1 & H1). inversion E1; subst.
    apply in_map_iff in H2 as ([name2 c2] & E2 & H2). inversion E2; subst.
    rewrite placement_groups_of_items in H1, H2.
    apply in_map_iff in H1 as ([i c1] & E1' & H1). inversion E1'; subst.
    apply in_map_iff in H2 as ([j c2] & E2' & H2). inversion E2'; subst.
    eapply chunked_disjoint; [exact Hnd | exact H1 | exact H2 |]. congruence.
  - destruct H1 as [E1|[]]. destruct H2 as [E2|[]]. congruence.
Qed.

Lemma create_placement_groups_disjoint node_list job t pgs :
  NoDup node_list ->
  create_placement_groups lookup provider pre_placement_group_insert
                          to_hostlist_fast node_list job = (t, inr pgs) ->
  values_disjoint pgs.
Proof.
  unfold create_placement_groups, nodeset_map. intros Hnd Hrun.
  assert (Hsrc : forall pg ns, In (pg, ns) pgs ->
            exists name group_nodes t' groups,
              In (name, group_nodes) (groupby_unsorted node_list (node_nodeset_name lookup)) /\
              create_nodeset_placement_groups lookup provider pre_placement_group_insert
                to_hostlist_fast group_nodes job = (t', inr groups) /\
              In (pg, ns) groups).
  { eapply (foldM_ok_inv
              (fun acc : dict (option string) (list string) =>
                 forall pg ns, In (pg, ns) acc ->
                   exists name group_nodes t' groups,
                     In (name, group_nodes)
                        (groupby_unsorted node_list (node_nodeset_name lookup)) /\
                     create_nodeset_placement_groups lookup provider
                       pre_placement_group_insert to_hostlist_fast group_nodes job
                       = (t', inr groups) /\
                     In (pg, ns) groups));
      [ | | exact Hrun].
    - intros acc [name group_nodes] t' acc' Hentry Hacc Hstep.
      apply bind_ok in Hstep as (t1 & new_pgs & t2 & Hnew & Hret & _).
      inversion Hret; subst. intros pg ns Hin.
      apply dict_update_In_inv in Hin as [Hin|Hin]; [eauto|].
      exists name, group_nodes, t1, new_pgs. auto.
    - intros pg ns []. }
  intros pg1 ns1 pg2 ns2 H1 H2 Hne x Hx1 Hx2.
  destruct (Hsrc _ _ H1) as (name1 & nodes1 & t1 & groups1 & Hg1 & Hrun1 & Hin1).
  destruct (Hsrc _ _ H2) as (name2 & nodes2 & t2 & groups2 & Hg2 & Hrun2 & Hin2).
  assert (Hmem : forall name group_nodes t' groups pg ns,
            In (name, group_nodes) (groupby_unsorted node_list (node_nodeset_name lookup)) ->
            create_nodeset_placement_groups lookup provider pre_placement_group_insert
              to_hostlist_fast group_nodes job = (t', inr groups) ->
            In (pg, ns) groups -> In x ns -> node_nodeset_name lookup x = name).
  { intros name group_nodes t' groups pg ns Hg Hr Hin Hx.
    apply create_nodeset_placement_groups_result in Hr. subst groups.
    assert (Hxg : In x group_nodes).
    { destruct (placement_applies lookup group_nodes).
      - apply in_map_iff in Hin as ([nm c] & E & Hin). inversion E; subst.
        rewrite placement_groups_of_items in Hin.
        apply in_map_iff in Hin as ([i c'] & E' & Hin). inversion E'; subst.
        apply enumerate_In, chunked_In in Hin as (_ & _ & _ & Hsub). auto.
      - destruct Hin as [E|[]]. inversion E; subst. assumption. }
    eapply (groupby_unsorted_member (node_nodeset_name lookup)); eassumption. }
  pose proof (Hmem _ _ _ _ _ _ Hg1 Hrun1 Hin1 Hx1) as E1.
  pose proof (Hmem _ _ _ _ _ _ Hg2 Hrun2 Hin2 Hx2) as E2.
  pose proof (@groupby_unsorted_NoDup string string _ (node_nodeset_name lookup) node_list)
    as Hkeys.
  subst name1 name2.
  assert (En : nodes1 = nodes2)
    by (eapply keys_functional; [exact Hkeys | exact Hg1 | exact Hg2]).
  subst nodes2. rewrite Hrun1 in Hrun2. inversion Hrun2; subst.
  assert (Hndg : NoDup nodes1).
  { pose proof (@groupby_unsorted_group string string _ (node_nodeset_name lookup)
                  node_list _ nodes1 Hg1) as [-> _].
    apply NoDup_filter. assumption. }
  exact (@create_nodeset_placement_groups_disjoint _ _ _ _ Hndg Hrun1 _ _ _ _ Hin1 Hin2 Hne x Hx1 Hx2).
Qed.

Lemma job_groups_of_jobs_disjoint input resume_data t job_groups :
  (forall job, In job (jobs resume_data) -> NoDup (rj_nodes_alloc job)) ->
  job_groups_of_jobs lookup provider pre_placement_group_insert to_hostlist_fast
                     lkp (set_of input) resume_data = (t, inr job_groups) ->
  forall key group, In (key, group) job_groups ->
                    values_disjoint (jg_placement_groups group).
Proof.
  unfold job_groups_of_jobs. intros Halloc Hrun.
  eapply (foldM_ok_inv
            (fun acc : dict JobKey JobGroup =>
               forall key group, In (key, group) acc ->
                                 values_disjoint (jg_placement_groups group)));
    [ | | exact Hrun].
  - intros acc job t' acc' Hjob Hacc Hstep.
    apply bind_ok in Hstep as (t1 & pgs & t2 & Hpgs & Hret & _).
    inversion Hret; subst. intros key group Hin.
    apply dict_set_In_inv in Hin as [[-> ->]|Hin]; [|eauto].
    cbn [jg_placement_groups].
    destruct (partition_is_tpu lkp (rj_partition job)).
    + inversion Hpgs; subst. intros pg1 ns1 pg2 ns2 [E1|[]] [E2|[]]. congruence.
    + apply bind_ok in Hpgs as (t3 & pgs0 & t4 & Hcall & Hret' & _).
      inversion Hret'; subst.
      pose proof (@create_placement_groups_disjoint _ _ _ _ (Halloc job Hjob) Hcall) as Hdis.
      intros pg1 ns1 pg2 ns2 H1 H2 Hne x Hx1 Hx2.
      apply in_map_iff in H1 as ([pg1' ns1'] & E1 & H1). inversion E1; subst.
      apply in_map_iff in H2 as ([pg2' ns2'] & E2 & H2). inversion E2; subst.
      rewrite sorted_In, set_inter_In, set_of_In in Hx1, Hx2.
      exact (Hdis _ _ _ _ H1 H2 Hne x (proj1 Hx1) (proj1 Hx2)).
  - intros key group [].
Qed.

Lemma job_groups_of_disjoint node_list resume_data t job_groups :
  (forall job, In job (jobs_of resume_data) -> NoDup (rj_nodes_alloc job)) ->
  job_groups_of lookup provider pre_placement_group_insert to_hostlist_fast
                node_list resume_data lkp = (t, inr job_groups) ->
  forall key group, In (key, group) job_groups ->
                    values_disjoint (jg_placement_groups group).
Proof.
  unfold job_groups_of, separate. intros Halloc Hrun.
  apply bind_ok in Hrun as (t1 & jgs & t2 & Hjobs & Hrest & _).
  apply bind_ok in Hrest as (t3 & normal & t4 & Hnormal & Hret & _).
  inversion Hret; subst.
  assert (Hjobs_dis : forall key group, In (key, group) jgs ->
                        values_disjoint (jg_placement_groups group)).
  { eapply job_groups_of_jobs_disjoint; [|exact Hjobs].
    destruct resume_data; [exact Halloc | intros job []]. }
  assert (Hnormal_dis : values_disjoint normal).
  { eapply create_placement_groups_disjoint; [|exact Hnormal].
    apply sorted_NoDup, NoDup_filter, NoDup_filter, set_of_NoDup. }
  intros key group Hin.
  apply dict_set_In_inv in Hin as [[-> ->]|Hin].
  - cbn [jg_placement_groups]. intros pg1 ns1 pg2 ns2 [E1|[]] [E2|[]]. congruence.
  - apply dict_set_In_inv in Hin as [[-> ->]|Hin]; [exact Hnormal_dis | eauto].
Qed.

(** X12. When no node occurs twice in the allocations of the resume data
    (neither within one job nor in two jobs), two chunks of the returned
    mapping filed under different identifiers share no node: no instance is
    asked for twice. *)
Theorem X12_chunks_share_no_node node_list resume_data t m g1 c1 g2 c2 :
  NoDup (concat (map rj_nodes_alloc (jobs_of resume_data))) ->
  group_nodes_bulk lookup provider pre_placement_group_insert to_hostlist_fast
                   node_list resume_data lkp = (t, inr m) ->
  In (g1, c1) m -> In (g2, c2) m -> g1 <> g2 ->
  disjoint (nodes c1) (nodes c2).
Proof.
  intros Hallocs Hrun Hin1 Hin2 Hne x Hx1 Hx2.
  apply group_nodes_bulk_inv in Hrun as (job_groups & Hjobs & ->).
  pose proof (@job_groups_of_ok lookup provider pre_placement_group_insert
                to_hostlist_fast lkp _ _ _ _ Hjobs) as [Hkeys Hok].
  pose proof (@job_groups_of_sound lookup provider pre_placement_group_insert
                to_hostlist_fast lkp _ _ _ _ Hjobs) as Hsound.
  assert (Halloc : forall job, In job (jobs_of resume_data) -> NoDup (rj_nodes_alloc job)).
  { intros job Hjob. eapply NoDup_concat_In; [exact Hallocs|]. apply in_map. assumption. }
  pose proof (job_groups_of_disjoint _ _ Halloc Hjobs) as Hdis.
  apply dict_of_items_In_inv, in_map_iff in Hin1 as (c1' & E1 & Hin1). inversion E1; subst.
  apply dict_of_items_In_inv, in_map_iff in Hin2 as (c2' & E2 & Hin2). inversion E2; subst.
  apply grouped_nodes_In in Hin1
    as (key1 & group1 & pg1 & pg_nodes1 & pfx1 & bucket1 & i1 & chunk1 &
        Hgroup1 & Hpg1 & Hbucket1 & Hchunk1 & ->).
  apply grouped_nodes_In in Hin2
    as (key2 & group2 & pg2 & pg_nodes2 & pfx2 & bucket2 & i2 & chunk2 &
        Hgroup2 & Hpg2 & Hbucket2 & Hchunk2 & ->).
  cbn [nodes] in Hx1, Hx2.
  destruct (@chunk_of_bucket lkp pg_nodes1 pfx1 bucket1 i1 chunk1 Hbucket1 Hchunk1)
    as (_ & _ & Hmem1 & _).
  destruct (@chunk_of_bucket lkp pg_nodes2 pfx2 bucket2 i2 chunk2 Hbucket2 Hchunk2)
    as (_ & _ & Hmem2 & _).
  destruct (Hmem1 x Hx1) as [Hxp1 Hpfx1]. destruct (Hmem2 x Hx2) as [Hxp2 Hpfx2].
  pose proof (Hsound _ _ Hgroup1) as [Hlists1 Hkey1].
  pose proof (Hsound _ _ Hgroup2) as [_ Hkey2].
  pose proof (Hok _ _ Hgroup1) as (Hpgkeys & _ & Hname1).
  pose proof (Hok _ _ Hgroup2) as (_ & _ & Hname2).
  destruct (key_eqb_spec key1 key2) as [Ekey|Hkey].
  - subst key2.
    assert (group1 = group2)
      by (eapply keys_functional; [exact Hkeys | exact Hgroup1 | exact Hgroup2]).
    subst group2.
    destruct (key_eqb_spec pg1 pg2) as [Epg|Hpg]; [|exact (Hdis _ _ Hgroup1 _ _ _ _ Hpg1 Hpg2 Hpg x Hxp1 Hxp2)].
    subst pg2.
    assert (pg_nodes1 = pg_nodes2)
      by (eapply keys_functional; [exact Hpgkeys | exact Hpg1 | exact Hpg2]).
    subst pg_nodes2. subst pfx1 pfx2.
    pose proof (@groupby_unsorted_NoDup string string _ (node_prefix lkp) pg_nodes1) as Hbk.
    assert (bucket1 = bucket2)
      by (eapply keys_functional; [exact Hbk | exact Hbucket1 | exact Hbucket2]).
    subst bucket2.
    destruct (Nat.eq_dec i1 i2) as [Ei|Hi].
    + subst i2. apply Hne.
      rewrite (enumerate_functional _ _ _ _ Hchunk1 Hchunk2). reflexivity.
    + unfold chunk_nodes in Hchunk1, Hchunk2.
      refine (@chunked_disjoint _ _ _ _ _ _ _ _ Hchunk1 Hchunk2 Hi x Hx1 Hx2).
      pose proof (@groupby_unsorted_group string string _ (node_prefix lkp)
                    pg_nodes1 _ bucket1 Hbucket1) as [-> _].
      apply NoDup_filter. exact (proj1 (Hlists1 _ _ Hpg1)).
  - destruct key1 as [j1|s1], key2 as [j2|s2].
    + destruct Hkey1 as (job1 & Hjob1 & Hid1 & _ & _ & Hall1 & _).
      destruct Hkey2 as (job2 & Hjob2 & Hid2 & _ & _ & Hall2 & _).
      apply Hkey. f_equal. rewrite <- Hid1, <- Hid2. f_equal.
      eapply (NoDup_concat_map_inj rj_nodes_alloc); [exact Hallocs | exact Hjob1 | exact Hjob2 | |].
      * eapply Hall1; eassumption.
      * eapply Hall2; eassumption.
    + destruct Hkey1 as (job1 & Hjob1 & _ & _ & _ & Hall1 & _).
      destruct Hkey2 as (_ & _ & Hfree).
      destruct (Hfree _ _ x Hpg2 Hxp2) as [Hun _].
      exact (Hun job1 Hjob1 (Hall1 _ _ x Hpg1 Hxp1)).
    + destruct Hkey2 as (job2 & Hjob2 & _ & _ & _ & Hall2 & _).
      destruct Hkey1 as (_ & _ & Hfree).
      destruct (Hfree _ _ x Hpg1 Hxp1) as [Hun _].
      exact (Hun job2 Hjob2 (Hall2 _ _ x Hpg2 Hxp2)).
    + destruct Hname1 as (_ & tpu1 & -> & Htpu1). destruct Hname2 as (_ & tpu2 & -> & Htpu2).
      apply Hkey. rewrite <- (Htpu1 _ _ x Hpg1 Hxp1), <- (Htpu2 _ _ x Hpg2 Hxp2). reflexivity.
Qed.

End Disjointness.

(** the chunk of a job and the chunk of a node without job *)
Lemma X12_chunks_share_no_node_witness :
  let c1 := {| nodes := ["c-a-0"; "c-a-1"]; prefix := "c-a"; chunk_idx := 0;
               job_id := Some 7%Z; partition := Some "p";
               placement_group := Some "c-slurmgcp-managed-a-7-0" |} in
  let c2 := {| nodes := ["c-b-0"]; prefix := "c-b"; chunk_idx := 0;
               job_id := None; partition := None; placement_group := None |} in
  disjoint (nodes c1) (nodes c2).
Proof.
  intros c1 c2.
  pose (resume_data := Some {| jobs := [ {| rj_job_id := 7; rj_partition := "p";
                                            rj_nodes_alloc := ["c-a-0"; "c-a-1"] |} ] |}).
  pose (node_list := ["c-a-0"; "c-a-1"; "c-b-0"; "c-t-0"]).
  apply (@X12_chunks_share_no_node Demo.lookup Demo.fresh Demo.no_plugin Demo.hostlist
           Demo.lookup node_list resume_data
           (fst (Demo.group_nodes Demo.fresh node_list resume_data))
           (match snd (Demo.group_nodes Demo.fresh node_list resume_data) with
            | inr m => m
            | inl _ => []
            end)
           "c-a:job7:c-slurmgcp-managed-a-7-0:0" c1 "c-b:0" c2).
  - cbn. repeat constructor; cbn; intuition discriminate.
  - vm_compute. reflexivity.
  - vm_compute. left. reflexivity.
  - vm_compute. right. left. reflexivity.
  - discriminate.
Defined.

(** ** Instance properties *)

Section InstancePropertiesFacts.

Variable Label : Type.
Variable Override : Type.
Variable lookup : Lookup.
Variable template_info : string -> TemplateInfo Label.
Variable nodeset_reservation : NodesetProps Override -> option Reservation.
Variable job_of : Z -> option Job.
Variable universe_domain : string.
Variable str_of_list : list string -> string.
Variable props_update : InstanceProps Label -> Override -> InstanceProps Label.

Lemma int_total_seconds_bounds d :
  (timedelta_of_seconds 30 <= d <= timedelta_of_weeks 2)%Z ->
  (30 <= int_total_seconds d <= 1209600)%Z.
Proof.
  unfold timedelta_of_seconds, timedelta_of_weeks, int_total_seconds. intros [Hlo Hhi].
  rewrite Z.quot_div_nonneg by lia. split.
  - apply Z.div_le_lower_bound; lia.
  - apply Z.div_le_upper_bound; lia.
Qed.

(** X13. The run duration granted to a flexible-capacity instance is always
    computed. When the nodeset asks for the job's duration, a job id is
    given, the job is known and its duration is set and not zero, then: a
    duration between 30 seconds and two weeks gives its whole seconds (the
    microseconds divided by a million, rounded down), a number between 30 and
    1209600, in silence; a duration outside these bounds gives the configured
    default and one line of log. In every other case (the nodeset does not
    ask for the job's duration, no job id, an unknown job, a job without
    duration or with a duration of zero) the configured default comes out in
    silence. *)
Theorem X13_dws_flex_duration_bounds (flex : DwsFlex) (job_id : option Z) :
  exists t d,
    dws_flex_duration job_of flex job_id = (t, inr d) /\
    (d = max_run_duration flex \/ (30 <= d <= 1209600)%Z) /\
    (forall j job us,
       use_job_duration flex = true -> job_id = Some j -> job_of j = Some job ->
       job_duration job = Some us -> us <> 0%Z ->
       ((timedelta_of_seconds 30 <= us <= timedelta_of_weeks 2)%Z ->
        t = [] /\ d = int_total_seconds us /\
        (d * 1000000 <= us < (d + 1) * 1000000)%Z /\ (30 <= d <= 1209600)%Z) /\
       (~ (timedelta_of_seconds 30 <= us <= timedelta_of_weeks 2)%Z ->
        t = [EvLog INFO "Job TimeLimit cannot be less than 30 seconds or exceed 2 weeks"] /\
        d = max_run_duration flex)) /\
    (use_job_duration flex = false \/ job_id = None \/
     (exists j, job_id = Some j /\ job_of j = None) \/
     (exists j job, job_id = Some j /\ job_of j = Some job /\
                    (job_duration job = None \/ job_duration job = Some 0%Z)) ->
     t = [] /\ d = max_run_duration flex).
Proof.
  unfold dws_flex_duration.
  destruct (use_job_duration flex) eqn:Euse.
  2:{ eexists _, _. split; [reflexivity|]. split; [auto|]. split; [|auto].
      intros j job us Hu. discriminate. }
  destruct job_id as [j|].
  2:{ eexists _, _. split; [reflexivity|]. split; [auto|]. split; [|auto].
      intros j job us _ Hj. discriminate. }
  destruct (job_of j) as [job|] eqn:Ejob.
  2:{ eexists _, _. split; [reflexivity|]. split; [auto|]. split; [|auto].
      intros j' job us _ Hj Hjob. inversion Hj; subst. congruence. }
  destruct (job_duration job) as [us|] eqn:Edur.
  2:{ eexists _, _. split; [reflexivity|]. split; [auto|]. split; [|auto].
      intros j' job' us _ Hj Hjob Hdur. inversion Hj; subst.
      rewrite Ejob in Hjob. inversion Hjob; subst. congruence. }
  assert (Hsame : forall j' job' us',
            Some j = Some j' -> job_of j' = Some job' -> job_duration job' = Some us' ->
            us' = us).
  { intros j' job' us' Hj Hjob Hdur. inversion Hj; subst.
    rewrite Ejob in Hjob. inversion Hjob; subst. congruence. }
  destruct (Z.eqb_spec us 0) as [Hzero|Hnz].
  { eexists _, _. split; [reflexivity|]. split; [auto|]. split; [|auto].
    intros j' job' us' _ Hj Hjob Hdur Hnz.
    rewrite (Hsame _ _ _ Hj Hjob Hdur) in Hnz. congruence. }
  assert (Hother :
            true = false \/ Some j = None \/
            (exists j', Some j = Some j' /\ job_of j' = None) \/
            (exists j' job', Some j = Some j' /\ job_of j' = Some job' /\
                             (job_duration job' = None \/ job_duration job' = Some 0%Z)) ->
            False).
  { intros [Hu|[Hj|[(j' & Hj & Hjob)|(j' & job' & Hj & Hjob & Hdur)]]].
    - discriminate.
    - discriminate.
    - inversion Hj; subst. congruence.
    - inversion Hj; subst. rewrite Ejob in Hjob. inversion Hjob; subst.
      destruct Hdur as [Hdur|Hdur]; congruence. }
  destruct (Z.leb_spec (timedelta_of_seconds 30) us) as [Hlo|Hlo];
    [destruct (Z.leb_spec us (timedelta_of_weeks 2)) as [Hhi|Hhi]|]; cbn [andb].
  - pose proof (int_total_seconds_bounds (conj Hlo Hhi)) as Hbounds.
    eexists _, _. split; [reflexivity|]. split; [auto|]. split.
    + intros j' job' us' _ Hj Hjob Hdur _. rewrite (Hsame _ _ _ Hj Hjob Hdur).
      split; [|intros Hout; exfalso; apply Hout; split; assumption].
      intros _. split; [reflexivity|]. split; [reflexivity|]. split; [|exact Hbounds].
      unfold int_total_seconds. unfold timedelta_of_seconds in Hlo.
      rewrite Z.quot_div_nonneg by lia.
      pose proof (Z.div_mod us 1000000 ltac:(lia)) as Hdiv.
      pose proof (Z.mod_pos_bound us 1000000 ltac:(lia)) as Hmod. lia.
    + intros H. destruct (Hother H).
  - mstep. eexists _, _. split; [reflexivity|]. split; [auto|]. split.
    + intros j' job' us' _ Hj Hjob Hdur _. rewrite (Hsame _ _ _ Hj Hjob Hdur).
      split; [intros [_ Hin]; lia | auto].
    + intros H. destruct (Hother H).
  - mstep. eexists _, _. split; [reflexivity|]. split; [auto|]. split.
    + intros j' job' us' _ Hj Hjob Hdur _. rewrite (Hsame _ _ _ Hj Hjob Hdur).
      split; [intros [Hin _]; lia | auto].
    + intros H. destruct (Hother H).
Qed.

Lemma dws_flex_duration_returns (flex : DwsFlex) (job_id : option Z) :
  exists t d,
    dws_flex_duration job_of flex job_id = (t, inr d) /\
    (d = max_run_duration flex \/ (30 <= d <= 1209600)%Z).
Proof.
  unfold dws_flex_duration.
  destruct (if use_job_duration flex then _ else _) as [us|];
    [|eexists _, _; split; [reflexivity | auto]].
  destruct (Z.leb_spec (timedelta_of_seconds 30) us) as [Hlo|Hlo];
    destruct (Z.leb_spec us (timedelta_of_weeks 2)) as [Hhi|Hhi]; cbn [andb]; mstep;
    eexists _, _; (split; [reflexivity|]); auto.
  right. apply int_total_seconds_bounds. lia.
Qed.

Lemma update_props_dws_run (props : InstanceProps Label) flex job_id :
  exists t d,
    update_props_dws job_of props flex job_id
      = (t, inr {| props_labels := props_labels props;
                   props_disks := props_disks props;
                   props_scheduling :=
                     {| onHostMaintenance := Some "TERMINATE";
                        provisioning_model := provisioning_model (props_scheduling props);
                        maintenanceInterval := maintenanceInterval (props_scheduling props);
                        instanceTerminationAction := Some "DELETE";
                        maxRunDuration_seconds := Some d |};
                   resourcePolicies := resourcePolicies props;
                   reservationAffinity :=
                     {| consumeReservationType := Some "NO_RESERVATION";
                        affinity_key := affinity_key (reservationAffinity props);
                        affinity_values := affinity_values (reservationAffinity props) |} |}) /\
    dws_flex_duration job_of flex job_id = (t, inr d) /\
    (d = max_run_duration flex \/ (30 <= d <= 1209600)%Z).
Proof.
  destruct (dws_flex_duration_returns flex job_id) as (t & d & Hrun & Hd).
  exists t, d. split; [|split; [exact Hrun | exact Hd]]. unfold update_props_dws. rewrite Hrun.
  rewrite bind_pair. unfold ret, prepend. rewrite app_nil_r. reflexivity.
Qed.

Ltac props_cases nodeset labels placement_group :=
  unfold instance_properties;
  destruct labels as [[|? ?]|];
  (destruct placement_group as [?pg|];
   [match goal with |- context [truthy (Some ?g)] => destruct (truthy (Some g)) end|]);
  (destruct (nodeset_reservation nodeset) as [?r|];
   [match goal with
    | |- context [deployment_type ?r] =>
        destruct (key_eqb (deployment_type r) (Some "DENSE"));
        destruct (reservation_policies r) as [|? ?]
    end|]);
  (destruct (maintenance_interval nodeset) as [?mi|];
   [match goal with |- context [truthy (Some ?g)] => destruct (truthy (Some g)) end|]);
  cbn -[update_props_dws String.append].

Ltac props_dws nodeset job_id :=
  match goal with
  | |- context [update_props_dws _ ?p _ _] =>
      let t := fresh "t" in
      let d := fresh "d" in
      let Hrun := fresh "Hrun" in
      let Hd := fresh "Hd" in
      let Hdur := fresh "Hdur" in
      destruct (update_props_dws_run p (dws_flex nodeset) job_id) as (t & d & Hrun & Hdur & Hd);
      rewrite Hrun; cbn -[String.append]
  end.

(** X14. Without explicit properties of the nodeset, the resource policies
    of the instances are those of the reservation whenever the nodeset has a
    reservation: its own policies, or none at all, and the placement group is
    then left out. Only without reservation is the placement group the one
    resource policy. Host maintenance is set to TERMINATE exactly when a
    placement group is given, the reservation carries policies, or flexible
    capacity is enabled; the provisioning model is set exactly for a dense
    reservation. *)
Theorem X14_reservation_policies_replace_placement_group
    (nodeset : NodesetProps Override) model placement_group labels job_id :
  nodeset_instance_properties nodeset = None ->
  exists t props,
    instance_properties lookup template_info nodeset_reservation job_of universe_domain
                        str_of_list props_update
                        nodeset model placement_group labels job_id = (t, inr props) /\
    resourcePolicies props =
      match nodeset_reservation nodeset with
      | Some reservation => Some (reservation_policies reservation)
      | None =>
          match placement_group with
          | Some pg => if truthy (Some pg) then Some [pg] else None
          | None => None
          end
      end /\
    onHostMaintenance (props_scheduling props) =
      (if truthy placement_group
          || match nodeset_reservation nodeset with
             | Some reservation => negb (Nat.eqb (List.length (reservation_policies reservation)) 0)
             | None => false
             end
          || dws_enabled (dws_flex nodeset)
       then Some "TERMINATE" else None) /\
    provisioning_model (props_scheduling props) =
      match nodeset_reservation nodeset with
      | Some reservation =>
          if key_eqb (deployment_type reservation) (Some "DENSE")
          then Some "RESERVATION_BOUND" else None
      | None => None
      end.
Proof.
  intros Hov. destruct (dws_enabled (dws_flex nodeset)) eqn:Edws.
  - props_cases nodeset labels placement_group; rewrite ?Edws, ?Hov;
      props_dws nodeset job_id; rewrite ?Hov;
      eexists _, _; (split; [reflexivity|]); cbn; auto.
  - props_cases nodeset labels placement_group; rewrite ?Edws, ?Hov;
      cbn -[String.append]; rewrite ?Hov;
      eexists _, _; (split; [reflexivity|]); cbn; auto.
Qed.

(** X15. Without explicit properties of the nodeset: with flexible capacity
    enabled the instances are deleted on termination, run at most the
    duration computed by [dws_flex_duration], and consume no reservation,
    while the name of the nodeset's reservation, when there is one, stays in
    the affinity values. With flexible capacity disabled none of the three
    is set, and a reservation is consumed as a specific one. *)
Theorem X15_flexible_capacity_settings
    (nodeset : NodesetProps Override) model placement_group labels job_id :
  nodeset_instance_properties nodeset = None ->
  exists t props,
    instance_properties lookup template_info nodeset_reservation job_of universe_domain
                        str_of_list props_update
                        nodeset model placement_group labels job_id = (t, inr props) /\
    affinity_values (reservationAffinity props)
      = option_map (fun reservation => [bulk_insert_name reservation])
                   (nodeset_reservation nodeset) /\
    if dws_enabled (dws_flex nodeset)
    then
      instanceTerminationAction (props_scheduling props) = Some "DELETE" /\
      consumeReservationType (reservationAffinity props) = Some "NO_RESERVATION" /\
      exists t' d,
        dws_flex_duration job_of (dws_flex nodeset) job_id = (t', inr d) /\
        maxRunDuration_seconds (props_scheduling props) = Some d /\
        (d = max_run_duration (dws_flex nodeset) \/ (30 <= d <= 1209600)%Z)
    else
      instanceTerminationAction (props_scheduling props) = None /\
      maxRunDuration_seconds (props_scheduling props) = None /\
      consumeReservationType (reservationAffinity props)
        = option_map (fun _ => "SPECIFIC_RESERVATION") (nodeset_reservation nodeset).
Proof.
  intros Hov. destruct (dws_enabled (dws_flex nodeset)) eqn:Edws.
  - props_cases nodeset labels placement_group; rewrite ?Edws, ?Hov;
      props_dws nodeset job_id; rewrite ?Hov;
      eexists _, _; (split; [reflexivity|]); cbn;
      (split; [reflexivity|]); (split; [reflexivity|]); (split; [reflexivity|]); eauto.
  - props_cases nodeset labels placement_group; rewrite ?Edws, ?Hov;
      cbn -[String.append]; rewrite ?Hov;
      eexists _, _; (split; [reflexivity|]); cbn; auto.
Qed.


(** [instance_properties] returns for every nodeset, with or without
    explicit properties *)
Lemma instance_properties_returns
    (nodeset : NodesetProps Override) model placement_group labels job_id :
  exists t props,
    instance_properties lookup template_info nodeset_reservation job_of universe_domain
                        str_of_list props_update
                        nodeset model placement_group labels job_id = (t, inr props).
Proof.
  destruct (dws_enabled (dws_flex nodeset)) eqn:Edws.
  - props_cases nodeset labels placement_group; rewrite ?Edws;
      props_dws nodeset job_id; eexists _, _; reflexivity.
  - props_cases nodeset labels placement_group; rewrite ?Edws;
      cbn -[String.append]; eexists _, _; reflexivity.
Qed.

Lemma request_instance_properties_returns
    (nodeset_props : Nodeset -> NodesetProps Override) (label_of_job : Z -> Label)
    nodeset model placement_group labels job_id :
  exists t props,
    request_instance_properties lookup template_info nodeset_reservation job_of
                                universe_domain str_of_list props_update
                                nodeset_props label_of_job
                                nodeset model placement_group labels job_id
      = (t, inr props).
Proof. unfold request_instance_properties. apply instance_properties_returns. Qed.



End InstancePropertiesFacts.

(** a placement group is given, and the reservation's policy takes its place *)
Lemma X14_reservation_policies_replace_placement_group_witness :
  exists t props,
    DemoProps.instance_properties DemoProps.nodeset "c-a-0"
      (Some "c-slurmgcp-managed-a-7-0") (Some [("slurm_job_id", "7")]) (Some 7%Z)
      = (t, inr props) /\
    resourcePolicies props = Some ["pol-a"] /\
    onHostMaintenance (props_scheduling props) = Some "TERMINATE" /\
    provisioning_model (props_scheduling props) = Some "RESERVATION_BOUND".
Proof.
  apply (@X14_reservation_policies_replace_placement_group
           string unit Demo.lookup DemoProps.template_info DemoProps.nodeset_reservation
           DemoProps.job_of "googleapis.com" DemoProps.str_of_list DemoProps.props_update
           DemoProps.nodeset "c-a-0" (Some "c-slurmgcp-managed-a-7-0")
           (Some [("slurm_job_id", "7")]) (Some 7%Z)).
  reflexivity.
Defined.

(** flexible capacity on a nodeset with a reservation *)
Lemma X15_flexible_capacity_settings_witness :
  exists t props,
    DemoProps.instance_properties DemoProps.nodeset "c-a-0" None None (Some 7%Z)
      = (t, inr props) /\
    affinity_values (reservationAffinity props) = Some ["projects/proj/reservations/res-1"] /\
    instanceTerminationAction (props_scheduling props) = Some "DELETE" /\
    consumeReservationType (reservationAffinity props) = Some "NO_RESERVATION" /\
    exists t' d,
      dws_flex_duration DemoProps.job_of (dws_flex DemoProps.nodeset) (Some 7%Z)
        = (t', inr d) /\
      maxRunDuration_seconds (props_scheduling props) = Some d /\
      (d = 3600%Z \/ (30 <= d <= 1209600)%Z).
Proof.
  apply (@X15_flexible_capacity_settings
           string unit Demo.lookup DemoProps.template_info DemoProps.nodeset_reservation
           DemoProps.job_of "googleapis.com" DemoProps.str_of_list DemoProps.props_update
           DemoProps.nodeset "c-a-0" None None (Some 7%Z)).
  reflexivity.
Defined.


(** ** The dispatch of the chunks *)

Lemma dict_lookup_In {K} `{Hashable K} {V} (k : K) (d : dict K V) v :
  dict_lookup k d = Some v -> In (k, v) d.
Proof.
  unfold dict_lookup. destruct (find _ d) as [[k' v']|] eqn:E; [|discriminate].
  cbn. intros Ev. inversion Ev; subst. apply find_some in E as [Hin Hk]. cbn in Hk.
  destruct (key_eqb_spec k k'); [subst; assumption | discriminate].
Qed.

Lemma dict_lookup_keys {K} `{Hashable K} {V} (k : K) (d : dict K V) :
  In k (keys d) -> exists v, dict_lookup k d = Some v.
Proof.
  intros Hin. apply in_map_iff in Hin as ([k' v] & E & Hin). cbn in E. subst k'.
  unfold dict_lookup. destruct (find _ d) as [[k' v']|] eqn:Ef; [cbn; eauto|].
  exfalso. apply (find_none _ _ Ef) in Hin. cbn in Hin.
  destruct (key_eqb_spec k k); [discriminate | congruence].
Qed.

Lemma mem_keys_In (k : string) {V} (d : dict string V) :
  mem k (keys d) = true <-> In k (keys d).
Proof. apply mem_In. Qed.

Section DispatchFacts.

Variable Props : Type.
Variable lookup : Lookup.
Variable instance_properties :
  Nodeset -> string -> option string -> option Z -> option Z -> M Props.
Variable pre_instance_bulk_insert :
  list string -> option string -> BulkBody Props -> BulkBody Props.
Variable make_tpu : Nodeset -> TPU.

Local Notation "'run_chunk'" :=
  (dispatch_chunk lookup instance_properties pre_instance_bulk_insert make_tpu).
Local Notation "'run_chunks'" :=
  (dispatch_chunks lookup instance_properties pre_instance_bulk_insert make_tpu).
Local Notation "'request_of' c" :=
  (create_instances_request lookup instance_properties pre_instance_bulk_insert
     (nodes c) (partition c) (placement_group c) (job_id c)) (at level 10, c at level 9).

(** what one turn of the loop does when it goes on *)
Lemma dispatch_chunk_run st g c t st' :
  run_chunk st (g, c) = (t, inr st') ->
  if on_tpu_path lookup c
  then
    t = [] /\ bi_inserts st' = bi_inserts st /\
    (exists tpu,
       tpu_start_data st' = tpu_start_data st ++ [(tpu, nodes c)] /\
       In (prefix c, tpu) (tpu_objs st')) /\
    (forall p tpu, In (p, tpu) (tpu_objs st') ->
       In (p, tpu) (tpu_objs st) \/
       p = prefix c /\ exists model rest,
         nodes c = model :: rest /\ tpu = make_tpu (node_nodeset lookup model))
  else
    exists req,
      request_of c = (t, inr req) /\
      tpu_start_data st' = tpu_start_data st /\ tpu_objs st' = tpu_objs st /\
      bi_inserts st' = dict_set g req (bi_inserts st).
Proof.
  unfold dispatch_chunk. destruct (on_tpu_path lookup c).
  - destruct (mem (prefix c) (keys (tpu_objs st))) eqn:Emem; cbn [negb].
    + destruct (dict_lookup (prefix c) (tpu_objs st)) as [tpu|] eqn:Elook; [|discriminate].
      intros E. inversion E; subst. cbn. repeat split.
      * exists tpu. split; [reflexivity|]. apply dict_lookup_In. assumption.
      * auto.
    + destruct (nodes c) as [|model rest] eqn:En; [discriminate|].
      destruct (dict_lookup (prefix c) _) as [tpu|] eqn:Elook; [|discriminate].
      intros E. inversion E; subst. cbn. repeat split.
      * exists tpu. split; [reflexivity|]. apply dict_lookup_In. assumption.
      * intros p tpu' Hin. apply dict_set_In_inv in Hin as [[-> ->]|Hin]; [|auto].
        right. split; [reflexivity|]. eauto.
  - destruct (request_of c) as [t' [e|req]]; [discriminate|].
    intros E. inversion E; subst. exists req. cbn. auto.
Qed.

(** the loop goes on when the node lists are not empty and the requests can
    be built *)
Lemma dispatch_chunk_returns st g c :
  nodes c <> [] ->
  (exists t req, request_of c = (t, inr req)) ->
  exists t st', run_chunk st (g, c) = (t, inr st').
Proof.
  intros Hne (t & req & Hreq). unfold dispatch_chunk. destruct (on_tpu_path lookup c).
  - destruct (mem (prefix c) (keys (tpu_objs st))) eqn:Emem; cbn [negb].
    + apply mem_keys_In in Emem. apply dict_lookup_keys in Emem as (tpu & ->). eauto.
    + destruct (nodes c) as [|model rest]; [congruence|].
      destruct (@dict_lookup_keys string _ TPU (prefix c)
                  (dict_set (prefix c) (make_tpu (node_nodeset lookup model)) (tpu_objs st)))
        as (tpu & ->); [|eauto].
      apply dict_set_In_keys. left. reflexivity.
  - rewrite Hreq. eauto.
Qed.

Lemma dispatch_chunks_returns items : forall st,
  (forall g c, In (g, c) items ->
     nodes c <> [] /\ exists t req, request_of c = (t, inr req)) ->
  exists t st', run_chunks items st = (t, inr st').
Proof.
  induction items as [|[g c] items IH]; intros st Hall; cbn [dispatch_chunks]; [eauto|].
  destruct (Hall g c (or_introl eq_refl)) as [Hne Hreq].
  destruct (@dispatch_chunk_returns st g c Hne Hreq) as (t1 & st1 & ->).
  destruct (IH st1) as (t2 & st' & ->).
  - intros g' c' Hin. apply (Hall g' c'). right. assumption.
  - eauto.
Qed.

Lemma dispatch_chunks_cons g c items st t st' :
  run_chunks ((g, c) :: items) st = (t, inr st') ->
  exists t1 st1 t2,
    run_chunk st (g, c) = (t1, inr st1) /\
    run_chunks items st1 = (t2, inr st') /\ t = t1 ++ t2.
Proof.
  cbn [dispatch_chunks]. destruct (run_chunk st (g, c)) as [t1 [e|st1]]; [discriminate|].
  destruct (run_chunks items st1) as [t2 r] eqn:E. intros H. inversion H; subst.
  exists t1, st1, t2. auto.
Qed.

(** the two paths of the loop, by induction on the chunks left *)
Lemma dispatch_chunks_run items : forall st t st',
  run_chunks items st = (t, inr st') ->
  map snd (tpu_start_data st')
    = map snd (tpu_start_data st)
      ++ map (@nodes) (filter (on_tpu_path lookup) (values items)) /\
  (forall g, In g (keys (bi_inserts st')) <->
             In g (keys (bi_inserts st)) \/
             exists c, In (g, c) items /\ on_tpu_path lookup c = false) /\
  (forall g req, In (g, req) (bi_inserts st') ->
     In (g, req) (bi_inserts st) \/
     exists c t', In (g, c) items /\ on_tpu_path lookup c = false /\
                  request_of c = (t', inr req)).
Proof.
  induction items as [|[g c] items IH]; intros st t st' Hrun.
  - cbn in Hrun. inversion Hrun; subst. cbn. rewrite app_nil_r.
    split; [reflexivity|]. split; [|auto]. intros g. split; [auto|].
    intros [H|(c & [] & _)]. assumption.
  - apply dispatch_chunks_cons in Hrun as (t1 & st1 & t2 & Hstep & Hrest & ->).
    apply dispatch_chunk_run in Hstep. destruct (IH _ _ _ Hrest) as (Hdata & Hkeys & Hreqs).
    cbn [values map filter snd fst]. destruct (on_tpu_path lookup c) eqn:Epath.
    + destruct Hstep as (_ & Hbi & (tpu & Htsd & _) & _). rewrite Hbi in Hkeys, Hreqs.
      split; [|split].
      * rewrite Hdata, Htsd, map_app. cbn. rewrite <- app_assoc. reflexivity.
      * intros g'. rewrite Hkeys. split.
        -- intros [H|(c' & Hin & Hp)]; [auto|]. right. exists c'. split; [right|]; assumption.
        -- intros [H|(c' & [E|Hin] & Hp)]; [auto | | eauto].
           inversion E; subst. congruence.
      * intros g' req Hin. destruct (Hreqs _ _ Hin) as [H|(c' & t' & Hc & Hp & Hr)]; [auto|].
        right. exists c', t'. split; [right; assumption | auto].
    + destruct Hstep as (req & Hreq & Htsd & _ & Hbi). rewrite Htsd in Hdata.
      split; [exact Hdata|]. split.
      * intros g'. rewrite Hkeys, Hbi, dict_set_In_keys. split.
        -- intros [[->|H]|(c' & Hin & Hp)]; [ | auto | ].
           ++ right. exists c. split; [left; reflexivity | assumption].
           ++ right. exists c'. split; [right|]; assumption.
        -- intros [H|(c' & [E|Hin] & Hp)]; [auto | | eauto].
           inversion E; subst. auto.
      * intros g' req' Hin. destruct (Hreqs _ _ Hin) as [H|(c' & t' & Hc & Hp & Hr)].
        -- rewrite Hbi in H. apply dict_set_In_inv in H as [[-> ->]|H]; [|auto].
           right. exists c, t1. split; [left; reflexivity | auto].
        -- right. exists c', t'. split; [right; assumption | auto].
Qed.

(** the accelerator objects, by induction on the chunks left *)
Lemma dispatch_chunks_objects all items : forall st t st',
  (forall item, In item items -> In item all) ->
  run_chunks items st = (t, inr st') ->
  (forall p tpu, In (p, tpu) (tpu_objs st) -> tpu_built_for lookup make_tpu all p tpu) ->
  Forall (start_datum_ok lookup make_tpu all) (tpu_start_data st) ->
  Forall (start_datum_ok lookup make_tpu all) (tpu_start_data st').
Proof.
  induction items as [|[g c] items IH]; intros st t st' Hsub Hrun Hobjs Hdata.
  - cbn in Hrun. inversion Hrun; subst. assumption.
  - apply dispatch_chunks_cons in Hrun as (t1 & st1 & t2 & Hstep & Hrest & ->).
    apply dispatch_chunk_run in Hstep.
    assert (Hc : In (g, c) all) by (apply Hsub; left; reflexivity).
    assert (Hsub' : forall item, In item items -> In item all)
      by (intros item Hin; apply Hsub; right; assumption).
    destruct (on_tpu_path lookup c) eqn:Epath.
    + destruct Hstep as (_ & _ & (tpu & Htsd & Htpu) & Hnew).
      assert (Hobjs1 : forall p tpu', In (p, tpu') (tpu_objs st1) ->
                         tpu_built_for lookup make_tpu all p tpu').
      { intros p tpu' Hin. destruct (Hnew _ _ Hin) as [Hold|(-> & model & rest & En & ->)];
          [auto|]. exists g, c, model, rest. auto. }
      apply (IH st1 t2 st' Hsub' Hrest Hobjs1). rewrite Htsd.
      apply Forall_app. split; [assumption|]. constructor; [|constructor].
      exists g, c. cbn. auto.
    + destruct Hstep as (req & _ & Htsd & Hobj & _).
      apply (IH st1 t2 st' Hsub' Hrest); rewrite ?Htsd, ?Hobj; assumption.
Qed.

(** X17. The loop of [resume_nodes] over the chunks sends every chunk down
    one of two paths. When it goes through: the accelerator start data hold,
    in order, the node lists of the chunks whose partition is an accelerator
    partition, each with an accelerator object built for the first node of a
    chunk of the same name prefix on that path; the bulk inserts are keyed by
    the identifiers of all the other chunks, each one the request built for a
    chunk filed under its key. *)
Theorem X17_dispatch_splits_the_chunks (grouped_nodes : dict string BulkChunk) t st :
  dispatch_chunks lookup instance_properties pre_instance_bulk_insert make_tpu
                  grouped_nodes (no_dispatch Props) = (t, inr st) ->
  map snd (tpu_start_data st)
    = map (@nodes) (filter (on_tpu_path lookup) (values grouped_nodes)) /\
  Forall (start_datum_ok lookup make_tpu grouped_nodes) (tpu_start_data st) /\
  (forall g, In g (keys (bi_inserts st)) <->
             exists c, In (g, c) grouped_nodes /\ on_tpu_path lookup c = false) /\
  (forall g req, In (g, req) (bi_inserts st) ->
     exists c t', In (g, c) grouped_nodes /\ on_tpu_path lookup c = false /\
                  create_instances_request lookup instance_properties
                    pre_instance_bulk_insert
                    (nodes c) (partition c) (placement_group c) (job_id c) = (t', inr req)).
Proof.
  intros Hrun. destruct (dispatch_chunks_run _ _ Hrun) as (Hdata & Hkeys & Hreqs).
  cbn in Hdata, Hkeys, Hreqs. split; [exact Hdata|]. split; [|split].
  - apply (@dispatch_chunks_objects grouped_nodes grouped_nodes (no_dispatch Props) t st);
      [auto | exact Hrun | intros p tpu [] | constructor].
  - intros g. rewrite Hkeys. split; [intros [[]|H]; exact H | auto].
  - intros g req Hin. destruct (Hreqs _ _ Hin) as [[]|H]. exact H.
Qed.

Lemma start_tpu_returns tpu node :
  node <> [] ->
  exists t, start_tpu tpu node = (t, TpuReturned) /\ List.length (filter is_mutation t) <= 1.
Proof.
  intros Hne. unfold start_tpu. destruct node as [|single [|second rest]]; [congruence| |].
  - destruct (node_exists tpu single).
    + destruct (preserve_tpu tpu); [destruct (start_node tpu single)|];
        eexists; (split; [reflexivity|]); cbn; lia.
    + destruct (create_node tpu (OneNode single));
        eexists; (split; [reflexivity|]); cbn; lia.
  - destruct (create_node tpu _); eexists; (split; [reflexivity|]); cbn; lia.
Qed.

Variable provider : Provider.
Variable pre_placement_group_insert : PolicyRequest -> PolicyRequest.
Variable to_hostlist_fast : list string -> string.

(** X18. The chunks that [group_nodes_bulk] returns always go through the
    dispatch loop of [resume_nodes], provided no accelerator nodeset has a
    VM-group size above the bulk-insert limit and [instance_properties]
    returns whatever it is asked: no node list is empty and every request
    can be built. A chunk without job id is always sent to the bulk insert,
    accelerator nodes included. A chunk sent to the accelerator path belongs
    to a job, has no placement group, and [start_tpu] returns for it after
    at most one call that creates or starts a pod. *)
Theorem X18_dispatch_of_grouped_nodes node_list resume_data t grouped_nodes :
  (forall n, node_is_tpu lookup n = true ->
             tpu_vmcount lookup (node_nodeset lookup n) <= BULK_INSERT_LIMIT) ->
  (forall nodeset model placement_group labels job,
     exists t' props,
       instance_properties nodeset model placement_group labels job = (t', inr props)) ->
  group_nodes_bulk lookup provider pre_placement_group_insert to_hostlist_fast
                   node_list resume_data lookup = (t, inr grouped_nodes) ->
  exists t_dispatch st,
    dispatch_chunks lookup instance_properties pre_instance_bulk_insert make_tpu
                    grouped_nodes (no_dispatch Props) = (t_dispatch, inr st) /\
    (forall g c, In (g, c) grouped_nodes -> job_id c = None ->
                 In g (keys (bi_inserts st))) /\
    (forall tpu ns, In (tpu, ns) (tpu_start_data st) ->
       (exists g c j, In (g, c) grouped_nodes /\ nodes c = ns /\
                      job_id c = Some j /\ placement_group c = None) /\
       exists t', start_tpu tpu ns = (t', TpuReturned) /\
                  List.length (filter is_mutation t') <= 1).
Proof.
  intros Hvm Hprops Hrun.
  assert (Hchunks : forall g c, In (g, c) grouped_nodes ->
            nodes c <> [] /\ exists t' req, request_of c = (t', inr req)).
  { intros g c Hin.
    destruct (@group_nodes_bulk_chunk lookup provider pre_placement_group_insert
                to_hostlist_fast lookup node_list resume_data t grouped_nodes g c Hrun Hin)
      as (_ & key & group & pg_nodes & pfx & bucket & Hok & Hpg & Hb & Hc & _ & _).
    destruct (@chunk_of_bucket lookup pg_nodes pfx bucket (chunk_idx c) (nodes c) Hb Hc)
      as (Hne & Hlen & Hmem & first & Hfirst & Hsize).
    split; [exact Hne|].
    destruct (Hprops (node_nodeset lookup (hd "" (nodes c))) (hd "" (nodes c))
                     (placement_group c) (job_labels lookup (partition c) (job_id c))
                     (job_id c)) as (t' & props & Hip).
    exists t'. eapply create_instances_request_returns; [| |exact Hip].
    - split; [destruct (nodes c); [congruence | cbn; lia]|].
      destruct (node_is_tpu lookup first) eqn:Etpu; [|exact Hsize].
      specialize (Hvm first Etpu). lia.
    - intros Htruthy. destruct Hok as (_ & Hentries & _). specialize (Hentries _ _ Hpg).
      destruct (placement_group c); [|discriminate]. destruct Hentries as [Hle _]. lia. }
  destruct (dispatch_chunks_returns grouped_nodes (no_dispatch Props) Hchunks)
    as (t_dispatch & st & Hst).
  exists t_dispatch, st. split; [exact Hst|].
  destruct (dispatch_chunks_run _ _ Hst) as (Hdata & Hkeys & _). cbn in Hdata, Hkeys.
  assert (Hsound : forall g c, In (g, c) grouped_nodes ->
            (job_id c = None -> partition c = None) /\
            (forall p, partition c = Some p -> partition_is_tpu lookup p = true ->
                       (exists j, job_id c = Some j) /\ placement_group c = None)).
  { intros g c Hin.
    destruct (@group_nodes_bulk_chunk_sound lookup provider pre_placement_group_insert
                to_hostlist_fast lookup node_list resume_data t grouped_nodes g c Hrun Hin)
      as (key & group & pg_nodes & [_ Hkey] & Hpg & _ & _ & _ & Hjob & Hpart).
    rewrite Hjob, Hpart. destruct key as [j|name].
    - destruct Hkey as (job & _ & _ & -> & -> & _ & Htpu). split; [discriminate|].
      intros p E Hp. inversion E; subst. split; [eauto|]. eapply Htpu; eassumption.
    - destruct Hkey as (_ & -> & _). split; [reflexivity | discriminate]. }
  split.
  - intros g c Hin Hjob. apply Hkeys. right. exists c. split; [exact Hin|].
    unfold on_tpu_path. rewrite (proj1 (Hsound g c Hin) Hjob). reflexivity.
  - intros tpu ns Hin.
    assert (Hns : In ns (map (@nodes) (filter (on_tpu_path lookup) (values grouped_nodes)))).
    { rewrite <- Hdata. change ns with (snd (tpu, ns)). apply in_map. exact Hin. }
    apply in_map_iff in Hns as (c & <- & Hc). apply filter_In in Hc as [Hc Hpath].
    apply in_map_iff in Hc as ([g c'] & E & Hc). cbn in E. subst c'.
    split.
    + unfold on_tpu_path in Hpath. destruct (partition c) as [p|] eqn:Ep; [|discriminate].
      apply andb_true_iff in Hpath as [_ Hp].
      destruct (proj2 (Hsound g c Hc) p Ep Hp) as [(j & Hj) Hnone].
      exists g, c, j. auto.
    + apply start_tpu_returns. apply (Hchunks g c Hc).
Qed.

End DispatchFacts.

(** one chunk for the accelerator path and one for the bulk insert *)
Lemma X17_dispatch_splits_the_chunks_witness :
  exists t st,
    DemoDispatch.dispatch DemoDispatch.chunks = (t, inr st) /\
    map snd (tpu_start_data st)
      = map (@nodes) (filter (on_tpu_path Demo.lookup) (values DemoDispatch.chunks)) /\
    Forall (start_datum_ok Demo.lookup DemoDispatch.make_tpu DemoDispatch.chunks)
           (tpu_start_data st) /\
    (forall g, In g (keys (bi_inserts st)) <->
               exists c, In (g, c) DemoDispatch.chunks /\ on_tpu_path Demo.lookup c = false) /\
    (forall g req, In (g, req) (bi_inserts st) ->
       exists c t', In (g, c) DemoDispatch.chunks /\ on_tpu_path Demo.lookup c = false /\
                    create_instances_request Demo.lookup DemoRequest.instance_properties
                      DemoRequest.no_plugin
                      (nodes c) (partition c) (placement_group c) (job_id c) = (t', inr req)).
Proof.
  eexists. eexists. split; [vm_compute; reflexivity|].
  eapply (@X17_dispatch_splits_the_chunks unit Demo.lookup DemoRequest.instance_properties
            DemoRequest.no_plugin DemoDispatch.make_tpu DemoDispatch.chunks).
  vm_compute. reflexivity.
Defined.

(** a job on the accelerator partition, an accelerator node without job and a
    conventional node without job, on nodesets with a reservation and
    flexible capacity: the properties of the conventional node are logged *)
Lemma X18_dispatch_of_grouped_nodes_witness :
  let node_list := ["c-t-0"; "c-t-1"; "c-t-2"; "c-b-0"] in
  let resume_data := Some {| jobs := [ {| rj_job_id := 9; rj_partition := "tpu";
                                          rj_nodes_alloc := ["c-t-0"; "c-t-1"] |} ] |} in
  exists t grouped_nodes,
    Demo.group_nodes Demo.fresh node_list resume_data = (t, inr grouped_nodes) /\
    exists t_dispatch st,
      dispatch_chunks Demo.lookup DemoProps.request_instance_properties
                      (fun _ _ body => body) DemoDispatch.make_tpu
                      grouped_nodes (no_dispatch (InstanceProps string))
        = (t_dispatch, inr st) /\
      (forall g c, In (g, c) grouped_nodes -> job_id c = None ->
                   In g (keys (bi_inserts st))) /\
      (forall tpu ns, In (tpu, ns) (tpu_start_data st) ->
         (exists g c j, In (g, c) grouped_nodes /\ nodes c = ns /\
                        job_id c = Some j /\ placement_group c = None) /\
         exists t', start_tpu tpu ns = (t', TpuReturned) /\
                    List.length (filter is_mutation t') <= 1).
Proof.
  intros node_list resume_data. eexists. eexists. split; [vm_compute; reflexivity|].
  apply (@X18_dispatch_of_grouped_nodes (InstanceProps string) Demo.lookup
           DemoProps.request_instance_properties
           (fun _ _ body => body) DemoDispatch.make_tpu Demo.fresh Demo.no_plugin
           Demo.hostlist node_list resume_data
           (fst (Demo.group_nodes Demo.fresh node_list resume_data))).
  - intros n _. cbn. unfold BULK_INSERT_LIMIT. lia.
  - intros nodeset model placement_group labels job.
    apply request_instance_properties_returns.
  - vm_compute. reflexivity.
Defined.

(** ** The grouping returns when no placement policy is refused *)

Lemma foldM_returns {A B} (f : A -> B -> M A) l :
  (forall a x, In x l -> exists t a', f a x = (t, inr a')) ->
  forall a, exists t r, foldM f l a = (t, inr r).
Proof.
  induction l as [|x l IH]; intros Hf a; cbn [foldM]; [eexists _, _; reflexivity|].
  destruct (Hf a x (or_introl eq_refl)) as (t1 & a1 & Hstep).
  destruct (IH (fun a y Hy => Hf a y (or_intror Hy)) a1) as (t2 & r & Hrest).
  exists (t1 ++ t2), r. apply bind_eq with (a := a1); assumption.
Qed.

Section Returns.

Variable lookup : Lookup.
Variable provider : Provider.
Variable pre_placement_group_insert : PolicyRequest -> PolicyRequest.
Variable to_hostlist_fast : list string -> string.
Variable lkp : Lookup.

Hypothesis accepts : provider_accepts provider.

Lemma accepted_none_failed node_list job :
  snd (classify_ops (placement_ops lookup provider pre_placement_group_insert node_list job))
  = [].
Proof.
  unfold classify_ops. cbn [snd]. apply grouped_get_none. intros [g r] Hin.
  unfold placement_ops in Hin. apply dict_of_items_In_inv, in_combine_r in Hin.
  apply in_map_iff in Hin as (req & <- & _).
  unfold classify_result. cbn [snd]. specialize (accepts req).
  destruct (ensure_execute provider req) as [op|ds]; [discriminate|].
  replace (forallb _ ds) with true; [discriminate|]. symmetry. apply forallb_forall.
  intros e He. rewrite (accepts e He). destruct (key_eqb_spec (Some "alreadyExists") (Some "alreadyExists")); congruence.
Qed.

Lemma create_nodeset_placement_groups_returns node_list job :
  exists t groups,
    create_nodeset_placement_groups lookup provider pre_placement_group_insert
                                    to_hostlist_fast node_list job = (t, inr groups).
Proof.
  destruct (placement_applies lookup node_list) eqn:Happ.
  - destruct (@placement_applies_run lookup provider pre_placement_group_insert
                to_hostlist_fast node_list job Happ) as [Hok _].
    destruct (Hok (accepted_none_failed node_list job)) as (t & Hrun & _). eauto.
  - destruct (@placement_applies_false lookup provider pre_placement_group_insert
                to_hostlist_fast node_list job Happ) as (t & Hrun & _). eauto.
Qed.

Lemma create_placement_groups_returns node_list job :
  exists t pgs,
    create_placement_groups lookup provider pre_placement_group_insert
                            to_hostlist_fast node_list job = (t, inr pgs).
Proof.
  unfold create_placement_groups. apply foldM_returns. intros pgs [name group_nodes] _.
  destruct (create_nodeset_placement_groups_returns group_nodes job) as (t & new_pgs & Hrun).
  rewrite Hrun. mstep. unfold ret. rewrite prepend_pair. eauto.
Qed.

(** X19. With a provider that refuses no placement policy, unless as one
    that exists already, the grouping returns a mapping for every node list
    and every resume data. *)
Theorem X19_group_nodes_bulk_returns node_list resume_data :
  exists t grouped_nodes,
    group_nodes_bulk lookup provider pre_placement_group_insert to_hostlist_fast
                     node_list resume_data lkp = (t, inr grouped_nodes).
Proof.
  unfold group_nodes_bulk, job_groups_of, separate.
  set (rd := match resume_data with Some r => r | None => {| jobs := [] |} end).
  assert (Hjobs : exists t jgs,
            job_groups_of_jobs lookup provider pre_placement_group_insert to_hostlist_fast
                               lkp (set_of node_list) rd = (t, inr jgs)).
  { unfold job_groups_of_jobs. apply foldM_returns. intros acc job _.
    destruct (partition_is_tpu lkp (rj_partition job)).
    - mstep. eexists _, _. reflexivity.
    - destruct (create_placement_groups_returns (rj_nodes_alloc job) (rj_job_id job))
        as (t & pgs & Hrun).
      rewrite Hrun. mstep. unfold ret.
      rewrite !prepend_pair. eexists _, _. reflexivity. }
  destruct Hjobs as (t1 & jgs & Hjobs). rewrite Hjobs. mstep.
  match goal with
  | |- context [create_placement_groups _ _ _ _ ?l ?j] =>
      destruct (create_placement_groups_returns l j) as (t2 & normal & Hnormal)
  end.
  rewrite Hnormal. mstep. unfold ret.
  rewrite !prepend_pair. eexists _, _. reflexivity.
Qed.

End Returns.

(** a provider on which nothing exists yet *)
Lemma X19_group_nodes_bulk_returns_witness :
  exists t grouped_nodes,
    Demo.group_nodes Demo.fresh ["c-a-0"; "c-a-1"; "c-b-0"] None = (t, inr grouped_nodes).
Proof.
  apply (@X19_group_nodes_bulk_returns Demo.lookup Demo.fresh Demo.no_plugin Demo.hostlist
           Demo.lookup).
  intros req. exact I.
Defined.

(** ** Which nodes the merge of the per-nodeset answers loses *)

Lemma filter_keys_NoDup {K V} (f : K * V -> bool) (d : dict K V) :
  NoDup (keys d) -> NoDup (keys (filter f d)).
Proof.
  unfold keys. induction d as [|[k v] d IH]; cbn; intros Hnd; [constructor|].
  inversion Hnd as [|? ? Hnin Hnd']; subst. destruct (f (k, v)); cbn; [|auto].
  constructor; [|auto]. intros Hin. apply Hnin.
  apply in_map_iff in Hin as (kv & E & Hin). apply filter_In in Hin as [Hin _].
  rewrite <- E. apply in_map. assumption.
Qed.

Section LostNodes.

Variable lookup : Lookup.
Variable provider : Provider.
Variable pre_placement_group_insert : PolicyRequest -> PolicyRequest.
Variable to_hostlist_fast : list string -> string.

(** every entry of the merged mapping is an entry of the answer for one
    nodeset of the list *)
Lemma create_placement_groups_source node_list job t pgs pg ns :
  create_placement_groups lookup provider pre_placement_group_insert
                          to_hostlist_fast node_list job = (t, inr pgs) ->
  In (pg, ns) pgs ->
  exists name group_nodes,
    In (name, group_nodes) (nodeset_map lookup node_list) /\
    In (pg, ns) (if placement_applies lookup group_nodes
                 then map (fun '(group, nodes) => (Some group, nodes))
                          (placement_groups_of lookup group_nodes job)
                 else [(None, group_nodes)]).
Proof.
  unfold create_placement_groups. intros Hrun. revert pg ns.
  eapply (foldM_ok_inv
            (fun acc : dict (option string) (list string) =>
               forall pg ns, In (pg, ns) acc ->
                 exists name group_nodes,
                   In (name, group_nodes) (nodeset_map lookup node_list) /\
                   In (pg, ns) (if placement_applies lookup group_nodes
                                then map (fun '(group, nodes) => (Some group, nodes))
                                         (placement_groups_of lookup group_nodes job)
                                else [(None, group_nodes)])));
    [ | | exact Hrun].
  - intros acc [name group_nodes] t' acc' Hentry Hacc Hstep.
    apply bind_ok in Hstep as (t1 & new_pgs & t2 & Hnew & Hret & _).
    inversion Hret; subst. intros pg ns Hin.
    apply dict_update_In_inv in Hin as [Hin|Hin]; [eauto|].
    apply create_nodeset_placement_groups_result in Hnew. subst new_pgs.
    exists name, group_nodes. auto.
  - intros pg ns [].
Qed.

(** the entry under [None] is the list of the last nodeset that gets no
    placement group *)
Lemma create_placement_groups_none node_list job t pgs :
  create_placement_groups lookup provider pre_placement_group_insert
                          to_hostlist_fast node_list job = (t, inr pgs) ->
  forall ns,
    In (None, ns) pgs <->
    exists name earlier,
      filter (fun entry => negb (placement_applies lookup (snd entry)))
             (nodeset_map lookup node_list) = earlier ++ [(name, ns)].
Proof.
  unfold create_placement_groups. intros Hrun.
  eapply (foldM_ok_prefix
            (fun pre (acc : dict (option string) (list string)) =>
               NoDup (keys acc) /\
               forall ns,
                 In (None, ns) acc <->
                 exists name earlier,
                   filter (fun entry => negb (placement_applies lookup (snd entry))) pre
                   = earlier ++ [(name, ns)]));
    [ | | exact Hrun].
  - intros pre [name group_nodes] suf acc t' acc' _ [Hnd Hacc] Hstep.
    apply bind_ok in Hstep as (t1 & new_pgs & t2 & Hnew & Hret & _).
    inversion Hret; subst. split; [apply dict_update_NoDup; assumption|].
    apply create_nodeset_placement_groups_result in Hnew. subst new_pgs.
    intros ns. rewrite filter_app. cbn [filter snd].
    destruct (placement_applies lookup group_nodes); cbn [negb].
    + rewrite app_nil_r, <- Hacc.
      assert (Hkeys : ~ In None (keys (map (fun '(group, nodes) => (Some group, nodes))
                                           (placement_groups_of lookup group_nodes job)))).
      { intros Hin. apply in_map_iff in Hin as ([pg l] & E & Hin).
        apply in_map_iff in Hin as ([g l'] & E' & _). inversion E'; subst. discriminate. }
      split.
      * intros Hin. apply dict_update_In_inv in Hin as [Hin|Hin]; [assumption|].
        exfalso. apply Hkeys. change None with (fst (@None string, ns)).
        apply in_map. assumption.
      * intros Hin. apply dict_update_In_old; assumption.
    + change (dict_update acc [(None, group_nodes)]) with (dict_set None group_nodes acc).
      split.
      * intros Hin. exists name, (filter (fun entry => negb (placement_applies lookup (snd entry))) pre).
        f_equal. f_equal. f_equal.
        pose proof (@dict_set_NoDup (option string) _ (list string) None group_nodes acc Hnd)
          as Hnd'.
        pose proof (@dict_set_In_new (option string) _ (list string) None group_nodes acc)
          as Hnew.
        exact (keys_functional _ _ _ _ Hnd' Hnew Hin).
      * intros (name' & earlier & E). apply app_inj_tail in E as [_ E]. inversion E; subst.
        apply (@dict_set_In_new (option string) _ (list string)).
  - split; [constructor|]. intros ns. split; [intros []|].
    intros (name & earlier & E). destruct earlier; discriminate.
Qed.

(** X20. The per-nodeset answers are merged into one mapping, and the
    answers without placement group all sit under the same key. So when
    several nodesets of the list get no placement group, the mapping keeps
    under that key the nodes of the last of them only: the nodes of every
    earlier one are in no entry of the result. *)
Theorem X20_earlier_unplaced_nodesets_are_lost node_list job t pgs earlier name kept :
  create_placement_groups lookup provider pre_placement_group_insert
                          to_hostlist_fast node_list job = (t, inr pgs) ->
  filter (fun entry => negb (placement_applies lookup (snd entry)))
         (nodeset_map lookup node_list) = earlier ++ [(name, kept)] ->
  In (None, kept) pgs /\
  forall name' lost n pg ns,
    In (name', lost) earlier -> In n lost -> In (pg, ns) pgs -> ~ In n ns.
Proof.
  intros Hrun Hunplaced.
  pose proof (create_placement_groups_none _ _ Hrun) as Hnone.
  split; [apply Hnone; eauto|].
  intros name' lost n pg ns Hlost Hn Hentry Hns.
  assert (Hmap : In (name', lost) (nodeset_map lookup node_list) /\
                 placement_applies lookup lost = false).
  { assert (Hin : In (name', lost) (earlier ++ [(name, kept)]))
      by (apply in_or_app; left; assumption).
    rewrite <- Hunplaced in Hin. apply filter_In in Hin as [Hin Hp]. cbn in Hp.
    apply negb_true_iff in Hp. auto. }
  destruct Hmap as [Hmap Hunpl].
  destruct (@create_placement_groups_source _ _ _ _ _ _ Hrun Hentry)
    as (name2 & group_nodes & Hgroup & Hres).
  assert (Hng : In n group_nodes).
  { destruct (placement_applies lookup group_nodes).
    - apply in_map_iff in Hres as ([g l] & E & Hres). inversion E; subst.
      rewrite placement_groups_of_items in Hres.
      apply in_map_iff in Hres as ([i c] & E' & Hres). inversion E'; subst.
      apply enumerate_In, chunked_In in Hres as (_ & _ & _ & Hsub). auto.
    - destruct Hres as [E|[]]. inversion E; subst. assumption. }
  unfold nodeset_map in Hmap, Hgroup.
  pose proof (groupby_unsorted_member (node_nodeset_name lookup) _ _ _ n Hmap Hn) as [_ E1].
  pose proof (groupby_unsorted_member (node_nodeset_name lookup) _ _ _ n Hgroup Hng) as [_ E2].
  pose proof (@groupby_unsorted_NoDup string string _ (node_nodeset_name lookup) node_list)
    as Hkeys.
  subst name' name2.
  assert (group_nodes = lost)
    by (eapply keys_functional; [exact Hkeys | exact Hgroup | exact Hmap]).
  subst group_nodes. rewrite Hunpl in Hres. destruct Hres as [E|[]]. inversion E; subst.
  apply Hnone in Hentry as (name3 & earlier3 & E3).
  rewrite Hunplaced in E3. apply app_inj_tail in E3 as [-> E3]. inversion E3; subst.
  assert (Hnd : NoDup (keys (earlier3 ++ [(name3, ns)]))).
  { rewrite <- Hunplaced. apply filter_keys_NoDup. exact Hkeys. }
  unfold keys in Hnd. rewrite map_app in Hnd. apply NoDup_app_disjoint in Hnd.
  apply (Hnd (node_nodeset_name lookup n)).
  - change (node_nodeset_name lookup n) with (fst (node_nodeset_name lookup n, ns)).
    apply in_map. assumption.
  - cbn. left.
    assert (Hlast : In (name3, ns) (earlier3 ++ [(name3, ns)]))
      by (apply in_or_app; right; left; reflexivity).
    rewrite <- Hunplaced in Hlast. apply filter_In in Hlast as [Hlast _].
    pose proof (groupby_unsorted_member (node_nodeset_name lookup) _ _ _ n Hlast Hn)
      as [_ E4].
    symmetry. exact E4.
Qed.

End LostNodes.

(** a single node of the nodeset with placement, then two nodes of a nodeset
    without *)
Lemma X20_earlier_unplaced_nodesets_are_lost_witness :
  let node_list := ["c-a-0"; "c-b-0"; "c-b-1"] in
  exists t pgs,
    create_placement_groups Demo.lookup Demo.fresh Demo.no_plugin Demo.hostlist node_list 0
      = (t, inr pgs) /\
    In (None, ["c-b-0"; "c-b-1"]) pgs /\
    forall name' lost n pg ns,
      In (name', lost) [("a", ["c-a-0"])] -> In n lost -> In (pg, ns) pgs -> ~ In n ns.
Proof.
  intros node_list. eexists. eexists. split; [vm_compute; reflexivity|].
  apply (@X20_earlier_unplaced_nodesets_are_lost Demo.lookup Demo.fresh Demo.no_plugin
           Demo.hostlist node_list 0%Z
           (fst (create_placement_groups Demo.lookup Demo.fresh Demo.no_plugin Demo.hostlist
                   node_list 0))
           _ [("a", ["c-a-0"])] "b" ["c-b-0"; "c-b-1"]).
  - vm_compute. reflexivity.
  - vm_compute. reflexivity.
Defined.

(** ** An accelerator nodeset with large VM groups *)


Section OneAcceleratorBucket.

Variable lookup : Lookup.
Variable provider : Provider.
Variable pre_placement_group_insert : PolicyRequest -> PolicyRequest.
Variable to_hostlist_fast : list string -> string.
Variable lkp : Lookup.


End OneAcceleratorBucket.





